(** * AutoCare Pro: the message provider (MessageContext)

    A shallow embedding of the conversation normalizer and of the message
    synchronization operations of the React message provider, and the
    properties the specification states about them.

    The repository holds three copies of the provider:
    - the normalizing provider (with [normalizeMessage] and
      [normalizeMessagesArray]), embedded in [Module Provider];
    - the summary-based provider (conversation summaries, detail fetches
      limited to the first 20 users), embedded in [Module Summary];
    - the plain provider, which stores backend records as they arrive,
      embedded in [Module Plain].

    JavaScript values are embedded as the type [value]; a thrown exception
    or a rejected promise is the [Throw] case of [outcome]; React state and
    the browser's local storage are passed explicitly. *)

From Stdlib Require Import ZArith Ascii DecimalString Sorted.
From stdpp Require Import gmap strings list fin_maps.

Open Scope string_scope.
Open Scope list_scope.
Set Warnings "-register-all".

(* ===================================================================== *)
(** ** JavaScript values *)
(* ===================================================================== *)

(** A JSON-like JavaScript value. Numbers are the integers (identifiers and
    epoch milliseconds are the only numbers the provider computes with);
    an object is its list of own properties in insertion order, and a read
    takes the first binding of a key. *)
Inductive value : Type :=
| VUndef
| VNull
| VBool (b : bool)
| VNum (n : Z)
| VStr (s : string)
| VArr (elems : list value)
| VObj (fields : list (string * value)).

(** What a [throw] carries. *)
Inductive exn : Type :=
| TypeError
| Error (message : value)
| Rejected (reason : value).

(** The result of running code that may throw (or of awaiting a promise that
    may reject). *)
Inductive outcome (A : Type) : Type :=
| Return (a : A)
| Throw (e : exn).
Arguments Return {A} a.
Arguments Throw {A} e.

Definition bind {A B} (o : outcome A) (k : A → outcome B) : outcome B :=
  match o with
  | Return a => k a
  | Throw e => Throw e
  end.

(** [try { body } catch (e) { handler }] *)
Definition try_catch {A} (body : outcome A) (handler : exn → outcome A) : outcome A :=
  match body with
  | Return a => Return a
  | Throw e => handler e
  end.

Declare Scope js_scope.
Delimit Scope js_scope with js.
Notation "'let!' x ':=' e 'in' k" := (bind e (λ x, k))
  (at level 10, x name, e at level 100, k at level 200) : js_scope.
Open Scope js_scope.

(** ToBoolean *)
Definition truthy (v : value) : bool :=
  match v with
  | VUndef | VNull => false
  | VBool b => b
  | VNum n => negb (n =? 0)%Z
  | VStr s => negb (String.eqb s "")
  | VArr _ | VObj _ => true
  end.

Definition nullish (v : value) : bool :=
  match v with
  | VUndef | VNull => true
  | _ => false
  end.

(** [a || b] and [a && b] *)
Definition or_ (a b : value) : value := if truthy a then a else b.
Definition and_ (a b : value) : value := if truthy a then b else a.

(** Decimal rendering of integers, as in ToString of an integral Number
    (below 10^21, from where JavaScript switches to exponent notation). *)
Definition string_of_Z (n : Z) : string := NilZero.string_of_int (Z.to_int n).
Definition key_of_index (i : nat) : string := NilZero.string_of_uint (Nat.to_uint i).

(** The array index a property key denotes, if it is a canonical index. *)
Definition index_of_key (k : string) : option nat :=
  match NilZero.uint_of_string k with
  | Some d => let i := Nat.of_uint d in
              if String.eqb (key_of_index i) k then Some i else None
  | None => None
  end.

Fixpoint assoc (k : string) (f : list (string * value)) : option value :=
  match f with
  | [] => None
  | (k', v) :: f' => if String.eqb k' k then Some v else assoc k f'
  end.

Fixpoint chars (s : string) : list value :=
  match s with
  | EmptyString => []
  | String c s' => VStr (String c EmptyString) :: chars s'
  end.

(** Reading property [k] of a value that is neither [null] nor [undefined]. *)
Definition get (v : value) (k : string) : value :=
  match v with
  | VObj f => default VUndef (assoc k f)
  | VArr l =>
      if String.eqb k "length" then VNum (Z.of_nat (length l))
      else default VUndef (i ← index_of_key k; l !! i)
  | VStr s =>
      if String.eqb k "length" then VNum (Z.of_nat (String.length s))
      else default VUndef (i ← index_of_key k; chars s !! i)
  | _ => VUndef
  end.

(** [v.k]: a TypeError on [null] and [undefined]. *)
Definition prop (v : value) (k : string) : outcome value :=
  if nullish v then Throw TypeError else Return (get v k).

(** [v?.k] *)
Definition opt_chain (v : value) (k : string) : value :=
  if nullish v then VUndef else get v k.

(** The own enumerable properties copied by an object spread [{...v}]. *)
Definition own_fields (v : value) : list (string * value) :=
  match v with
  | VObj f => f
  | VArr l => imap (λ i x, (key_of_index i, x)) l
  | VStr s => imap (λ i x, (key_of_index i, x)) (chars s)
  | _ => []
  end.

(** Writing a property in an object literal: an existing key keeps its
    position, a new key goes last. *)
Fixpoint set_field (k : string) (v : value) (f : list (string * value))
  : list (string * value) :=
  match f with
  | [] => [(k, v)]
  | (k', v') :: f' =>
      if String.eqb k' k then (k, v) :: f' else (k', v') :: set_field k v f'
  end.

(** ToString, as used by template literals and by computed property keys. *)
Fixpoint toString (v : value) : string :=
  match v with
  | VUndef => "undefined"
  | VNull => "null"
  | VBool true => "true"
  | VBool false => "false"
  | VNum n => string_of_Z n
  | VStr s => s
  | VArr l =>
      (fix join (l : list value) : string :=
         match l with
         | [] => ""
         | [x] => if nullish x then "" else toString x
         | x :: (_ :: _) as l' =>
             (if nullish x then "" else toString x) +:+ "," +:+ join l'
         end) l
  | VObj _ => "[object Object]"
  end.

(** [a === b]. Two objects (or arrays) are identical only if they are the
    same reference; the comparisons in the provider are between a stored
    value and a value of a payload that was just received, so they never
    are. *)
Definition strict_eq (a b : value) : bool :=
  match a, b with
  | VUndef, VUndef => true
  | VNull, VNull => true
  | VBool x, VBool y => Bool.eqb x y
  | VNum x, VNum y => (x =? y)%Z
  | VStr x, VStr y => String.eqb x y
  | _, _ => false
  end.

(** [JSON.parse(JSON.stringify(v))] for [v] an element of an array:
    properties whose value is [undefined] are left out, and an [undefined]
    array element is written as [null]. *)
Fixpoint JSON_value (v : value) : value :=
  match v with
  | VUndef => VNull
  | VArr l => VArr (List.map JSON_value l)
  | VObj f =>
      VObj ((fix go (f : list (string * value)) : list (string * value) :=
               match f with
               | [] => []
               | (k, VUndef) :: f' => go f'
               | (k, x) :: f' => (k, JSON_value x) :: go f'
               end) f)
  | _ => v
  end.

(* ===================================================================== *)
(** ** Host functions: dates, clock, random numbers, [Array.prototype.sort] *)
(* ===================================================================== *)

(** What the clock and the random number generator return during one call:
    [Date.now()], [new Date().toISOString()] and
    [Math.random().toString(36).slice(2)]. *)
Record tick : Type := Tick {
  now_ms : Z;
  now_iso : string;
  random36 : string
}.

(** A run of the provider reads the clock several times; [ticks i] is what
    the [i]-th read returns. *)
Definition shift (k : nat) (ticks : nat → tick) : nat → tick :=
  λ i, ticks (k + i)%nat.

(** The comparator result [v] of [sort] places [x] before [y] unless
    [v > 0]; a [NaN] result counts as [+0]. *)
Definition sort_before {A} (cmp : A → A → option Z) (x y : A) : bool :=
  match cmp x y with
  | Some v => (v <=? 0)%Z
  | None => true
  end.

Fixpoint sort_insert {A} (cmp : A → A → option Z) (x : A) (l : list A) : list A :=
  match l with
  | [] => [x]
  | y :: l' => if sort_before cmp x y then x :: y :: l' else y :: sort_insert cmp x l'
  end.

(** [Array.prototype.sort(cmp)], which ECMAScript requires to be stable: a
    stable insertion sort; [None] stands for a [NaN] result of the
    comparator. For a comparator that is a consistent order on the elements
    every stable sort returns this list ([stable_sort_unique]). For any
    other comparator ECMAScript leaves the order to the implementation, and
    the embedding returns what this insertion sort does. *)
Definition Array_sort {A} (cmp : A → A → option Z) (l : list A) : list A :=
  foldr (sort_insert cmp) [] l.

Section Host.

(** [Date.parse]: the time value of a date string, [None] for a string that
    is not a date. *)
Variable Date_parse : string → option Z.

(** The time value of [new Date(v)]; [None] is an Invalid Date, whose
    number value is [NaN]. *)
Definition newDate (v : value) : option Z :=
  match v with
  | VUndef => None
  | VNull => Some 0%Z
  | VBool b => Some (if b then 1 else 0)%Z
  | VNum n => if (Z.abs n <=? 8640000000000000)%Z then Some n else None
  | VStr s => Date_parse s
  | (VArr _ | VObj _) as o => Date_parse (toString o)
  end.

(** The timestamp a canonical message is ordered by. *)
Definition msg_time (m : value) : option Z := newDate (get m "createdAt").

End Host.

(** An array receiver of [.forEach] or [.map]: anything else has no such
    method. *)
Definition as_array (v : value) : outcome (list value) :=
  match v with
  | VArr l => Return l
  | _ => Throw TypeError
  end.

(** [Promise.all(l.map(f))]: rejects as soon as one of the promises does. *)
Fixpoint Promise_all {A B} (f : A → outcome B) (l : list A) : outcome (list B) :=
  match l with
  | [] => Return []
  | a :: l' =>
      let! b := f a in
      let! bs := Promise_all f l' in
      Return (b :: bs)
  end.

(** [s.startsWith(p)] together with [s.replace(p, '')] for such an [s]: the
    rest of [s] after the prefix [p]. *)
Fixpoint strip_prefix (p s : string) : option string :=
  match p, s with
  | EmptyString, _ => Some s
  | String a p', String b s' => if Ascii.eqb a b then strip_prefix p' s' else None
  | String _ _, EmptyString => None
  end.

(* ===================================================================== *)
(** ** State of a provider and the browser's local storage *)
(* ===================================================================== *)

(** A Known-user entry [{id, name, email}]. *)
Record known_user : Type := KnownUser {
  user_id : value;
  user_name : value;
  user_email : value
}.

(** Local storage. [items] holds, by key, the JSON arrays the provider
    stores (messages are kept under [autocare_messages_<conversation>]);
    [message_users] is the array stored under [autocare_message_users].
    An item is represented by the array its JSON text denotes: the items
    are those the provider wrote, so [JSON.parse] returns an array for each,
    and a write is taken to succeed. *)
Record storage : Type := Storage {
  items : gmap string (list value);
  message_users : list known_user
}.

(** The React state of the provider and the local storage it writes.
    [selectedUser] is display state that no operation below reads or
    writes, and is left out. An operation reads [conversations] from the
    snapshot its closure holds, taken here to be the current state: the
    operations run one after the other.

    [conversations] holds the own properties of the conversations object,
    each of them an array. The object is an ordinary one: what it does not
    have itself it inherits from [Object.prototype]. (Every update builds
    the next object with an object literal, [Object.fromEntries] or a
    spread, which give an ordinary object; the two loops that assign to
    [conversations[userId]] can put an array in the place of the prototype,
    and the state does not follow a prototype replaced that way.) *)
Record State : Type := MkState {
  conversations : gmap string (list value);
  usersWithMessages : list known_user;
  loading : bool;
  localStorage : storage
}.

Definition setConversations (c : gmap string (list value)) (st : State) : State :=
  MkState c (usersWithMessages st) (loading st) (localStorage st).
Definition setUsersWithMessages (u : list known_user) (st : State) : State :=
  MkState (conversations st) u (loading st) (localStorage st).
Definition setLoading (b : bool) (st : State) : State :=
  MkState (conversations st) (usersWithMessages st) b (localStorage st).
Definition setLocalStorage (ls : storage) (st : State) : State :=
  MkState (conversations st) (usersWithMessages st) (loading st) ls.

(** The names of the members that every ordinary object inherits from
    [Object.prototype]. *)
Definition Object_prototype : list string :=
  ["constructor"; "__proto__"; "hasOwnProperty"; "isPrototypeOf";
   "propertyIsEnumerable"; "toLocaleString"; "toString"; "valueOf";
   "__defineGetter__"; "__defineSetter__"; "__lookupGetter__"; "__lookupSetter__"].

(** [k] names a member of [Object.prototype]. *)
Definition inherited (k : string) : bool := existsb (String.eqb k) Object_prototype.

(** What [obj[k] || []] can be, for an object whose own properties are
    arrays: an array, or a member inherited from [Object.prototype]. Such a
    member is a function, or for [__proto__] the prototype itself: it is
    truthy, it is not iterable and it has none of the methods of an
    array. *)
Inductive member : Type :=
  | Messages (l : list value)
  | Builtin.

(** [obj[k] || []]: the own property, else the inherited member, else
    [[]]. *)
Definition messages_of (c : gmap string (list value)) (k : value) : member :=
  match c !! toString k with
  | Some l => Messages l
  | None => if inherited (toString k) then Builtin else Messages []
  end.

(** The spread [[...x]]: a TypeError when [x] is not iterable. *)
Definition spread (x : member) : outcome (list value) :=
  match x with
  | Messages l => Return l
  | Builtin => Throw TypeError
  end.

Definition messages_prefix : string := "autocare_messages_".

(** The template literal [`autocare_messages_${conversationId}`] *)
Definition messages_key (conversationId : value) : string :=
  messages_prefix +:+ toString conversationId.

(** [getLocalConversations]: every item whose key starts with
    [autocare_messages_], under the rest of its key. The assignment
    [conversations[userId] = ...] adds no property for the name
    [__proto__]: it puts the array in the place of the prototype of the
    object instead. *)
Definition getLocalConversations (ls : storage) : gmap string (list value) :=
  map_fold
    (λ key arr acc,
       match strip_prefix messages_prefix key with
       | Some userId => if String.eqb userId "__proto__" then acc else <[userId := arr]> acc
       | None => acc
       end)
    ∅ (items ls).

(** [saveMessageLocally]: the stored array with the message added at its
    end, written back as JSON. *)
Definition saveMessageLocally (message conversationId : value) (ls : storage) : storage :=
  let key := messages_key conversationId in
  let existingMessages := default [] (items ls !! key) in
  let newMessages := existingMessages ++ [JSON_value message] in
  Storage (<[key := newMessages]> (items ls)) (message_users ls).

(** A property value after a JSON round trip: an [undefined] property is
    not written, and reads as [undefined] again. *)
Definition JSON_prop (v : value) : value :=
  match v with
  | VUndef => VUndef
  | _ => JSON_value v
  end.

(** [saveUserToMessageList] (its return value is not used by the
    provider). *)
Definition saveUserToMessageList (user : value) (ls : storage) : storage :=
  let existingUsers := message_users ls in
  let userExists :=
    existsb (λ u, strict_eq (user_id u) (get user "id")) existingUsers in
  if negb userExists then
    let newUserList :=
      existingUsers ++ [KnownUser (JSON_prop (get user "id"))
                                  (JSON_prop (get user "name"))
                                  (JSON_prop (get user "email"))] in
    Storage (items ls) newUserList
  else ls.

(** [a > 0] for the operands the provider meets: a number or a boolean.
    Every other operand reads as not greater (a string or an object would
    be converted by StringToNumber, which is not modelled). *)
Definition gt0 (v : value) : bool :=
  match v with
  | VNum n => (0 <? n)%Z
  | VBool b => b
  | _ => false
  end.

(* ===================================================================== *)
(** ** The normalizing provider *)
(* ===================================================================== *)

Module Provider.
Section WithHost.

Variable Date_parse : string → option Z.

(** [(a, b) => new Date(a.createdAt) - new Date(b.createdAt)] *)
Definition byCreatedAt (a b : value) : option Z :=
  match msg_time Date_parse a, msg_time Date_parse b with
  | Some x, Some y => Some (x - y)%Z
  | _, _ => None
  end.

(** [normalizeMessage]: [null] for a falsy input, otherwise a copy of the
    record with [id], [senderType] and [createdAt] filled in. *)
Definition normalizeMessage (t : tick) (message : value) : value :=
  if negb (truthy message) then VNull
  else
    let createdAt :=
      or_ (or_ (get message "createdAt") (get message "timestamp"))
          (VStr (now_iso t)) in
    let senderType := or_ (get message "senderType") (get message "sender") in
    let id :=
      or_ (or_ (get message "id") (get message "_id"))
          (VStr (toString (VNum (now_ms t)) +:+ "-" +:+ random36 t)) in
    VObj (set_field "createdAt" createdAt
            (set_field "senderType" senderType
               (set_field "id" id (own_fields message)))).

(** The chain [arr.map(normalizeMessage).filter(Boolean).sort(...)] on the
    elements of an array; [ticks i] serves the call on element [i]. *)
Definition normalize_list (ticks : nat → tick) (l : list value) : list value :=
  Array_sort byCreatedAt
    (filter (λ m, truthy m = true) (imap (λ i m, normalizeMessage (ticks i) m) l)).

(** The parameter [arr = []] as the receiver of [.map]: the default for an
    [undefined] argument, an array as it is; anything else has no [map]
    method. *)
Definition array_arg (arr : value) : outcome (list value) :=
  match arr with
  | VUndef => Return []
  | _ => as_array arr
  end.

(** [normalizeMessagesArray] *)
Definition normalizeMessagesArray (ticks : nat → tick) (arr : value)
  : outcome (list value) :=
  let! l := array_arg arr in
  Return (normalize_list ticks l).

(** *** Loading *)

(** The grouping built by [msgs.forEach]: [byUser], an object from
    conversation key to the messages seen for it, and [users], a [Map] in
    insertion order. *)
Record grouping : Type := Grouping {
  byUser : gmap string (list value);
  users : list (value * known_user)
}.

(** [users.set(k, u)]: an existing key keeps its position. *)
Fixpoint Map_set (k : value) (u : known_user) (m : list (value * known_user))
  : list (value * known_user) :=
  match m with
  | [] => [(k, u)]
  | (k', u') :: m' =>
      if strict_eq k' k then (k, u) :: m' else (k', u') :: Map_set k u m'
  end.

(** The body of the [forEach] callback of the admin load. For a key that
    names an inherited member and has no group yet, [!byUser[convId]] is
    false, no group is made, and [byUser[convId].push(m)] is a TypeError:
    the member has no [push]. *)
Definition group_message (g : grouping) (m : value) : outcome grouping :=
  let! conversation := prop m "conversation" in
  let fromUser := strict_eq (get m "senderType") (VStr "user") in
  let party := if fromUser then get m "sender" else get m "recipient" in
  let convId := or_ conversation (or_ (opt_chain party "_id") party) in
  if negb (truthy convId) then Return g
  else
    let key := toString convId in
    let! seen := spread (messages_of (byUser g) convId) in
    let uName := or_ (opt_chain party "name") (VStr "User") in
    let uEmail := or_ (opt_chain party "email") (VStr "") in
    Return (Grouping (<[key := seen ++ [m]]> (byUser g))
                     (Map_set convId (KnownUser convId uName uEmail) (users g))).

Fixpoint group_messages (g : grouping) (msgs : list value) : outcome grouping :=
  match msgs with
  | [] => Return g
  | m :: msgs' =>
      let! g' := group_message g m in
      group_messages g' msgs'
  end.

(** One of the concurrent detail fetches of the admin load, with its own
    [try]/[catch]: [provisional] is [byUser[uid]]. *)
Definition fetch_conversation
    (ticks : nat → tick) (getMessagesForConversation : string → outcome value)
    (uid : string) (provisional : list value) : outcome (string * list value) :=
  try_catch
    (let! convResp := getMessagesForConversation uid in
     let! success := prop convResp "success" in
     let list :=
       if truthy success then or_ (get convResp "data") (VArr [])
       else VArr provisional in
     let! normalized := normalizeMessagesArray ticks list in
     Return (uid, normalized))
    (λ _,
     let! normalized := normalizeMessagesArray ticks (VArr provisional) in
     Return (uid, normalized)).

(** The fall-back of an admin load: the local mirror as it is stored. *)
Definition local_fallback (withUsers : bool) (st : State) : State :=
  let localConvos := getLocalConversations (localStorage st) in
  let st' := setConversations localConvos st in
  if withUsers then setUsersWithMessages (message_users (localStorage st)) st'
  else st'.

(** The network during one load: the response (or rejection) of each
    request. *)
Record load_api : Type := LoadApi {
  getAdminAllMessages : outcome value;
  getMessagesForConversation : string → outcome value;
  getMessages : outcome value
}.

(** The admin branch of [loadMessages], inside its own [try]/[catch].
    [ticks uid] serves the normalization of conversation [uid]. *)
Definition loadMessages_admin
    (ticks : string → nat → tick) (api : load_api) (st : State) : outcome State :=
  try_catch
    (let! adminResp := getAdminAllMessages api in
     let! success := prop adminResp "success" in
     if truthy success then
       let msgs := or_ (opt_chain (get adminResp "data") "messages") (VArr []) in
       let! msgs := as_array msgs in
       let! g := group_messages (Grouping ∅ []) msgs in
       let! conversationsEntries :=
         Promise_all
           (λ '(uid, provisional),
              fetch_conversation (ticks uid) (getMessagesForConversation api)
                uid provisional)
           (map_to_list (byUser g)) in
       let normalizedConvos : gmap string (list value) :=
         list_to_map conversationsEntries in
       Return (setUsersWithMessages (List.map snd (users g))
                 (setConversations normalizedConvos st))
     else Return (local_fallback true st))
    (λ _, Return (local_fallback true st)).

(** [{ [user.id]: normalizeMessagesArray(arr) }] *)
Definition own_conversation
    (ticks : nat → tick) (user arr : value) : outcome (gmap string (list value)) :=
  let! normalized := normalizeMessagesArray ticks arr in
  Return {[ toString (get user "id") := normalized ]}.

(** The stored messages of the user's own conversation, or [[]]. *)
Definition local_messages (user : value) (st : State) : value :=
  VArr (default [] (items (localStorage st) !! messages_key (get user "id"))).

(** The non-admin branch of [loadMessages]. *)
Definition loadMessages_user
    (ticks : nat → tick) (api : load_api) (user : value) (st : State) : outcome State :=
  let messages := get user "messages" in
  if truthy messages && gt0 (get messages "length") then
    let! c := own_conversation ticks user messages in
    Return (setConversations c st)
  else
    let! response := getMessages api in
    let! success := prop response "success" in
    if truthy success then
      let! c := own_conversation ticks user (or_ (get response "data") (VArr [])) in
      Return (setConversations c st)
    else
      let! c := own_conversation ticks user (local_messages user st) in
      Return (setConversations c st).

(** The outer [catch] of [loadMessages]. *)
Definition loadMessages_catch
    (ticks : nat → tick) (user : value) (st : State) : outcome State :=
  let isAdmin := truthy (get user "isAdmin") in
  if negb isAdmin && truthy (get user "messages") then
    let! c := own_conversation ticks user (get user "messages") in
    Return (setConversations c st)
  else if isAdmin then Return (local_fallback false st)
  else
    let! c := own_conversation ticks user (local_messages user st) in
    Return (setConversations c st).

(** [loadMessages]: the state it leaves, and the error its promise rejects
    with, if any. Every [throw] happens before the first write of the
    [try] or [catch] block it is in, so a block that throws leaves the
    state as it found it; [finally] clears [loading]. *)
Definition loadMessages
    (ticks : string → nat → tick) (api : load_api) (user : value) (st : State)
  : State * option exn :=
  if negb (truthy user) then (st, None)
  else
    let st := setLoading true st in
    let own := ticks (toString (get user "id")) in
    let result :=
      try_catch
        (if truthy (get user "isAdmin") then loadMessages_admin ticks api st
         else loadMessages_user own api user st)
        (λ _, loadMessages_catch (shift 1 own) user st) in
    match result with
    | Return st' => (setLoading false st', None)
    | Throw e => (setLoading false st, Some e)
    end.

(** The effect on a change of [user]. *)
Definition userEffect
    (ticks : string → nat → tick) (api : load_api) (user : value) (st : State)
  : State * option exn :=
  if truthy user then loadMessages ticks api user st
  else (setUsersWithMessages [] (setConversations ∅ st), None).

(** *** Real-time events *)

(** The handler of [message-received]. [ticks 0] serves the normalization
    of the payload, the later ticks the batch. The handler queues two
    updaters, which run when the provider renders next; when the first
    throws, the render fails and neither update is applied: the event
    leaves no state. *)
Definition handleMessageReceived
    (ticks : nat → tick) (user data : value) (st : State) : outcome State :=
  if truthy user && truthy (get user "isAdmin") then
    let! senderId0 := prop data "senderId" in
    let sender := get data "sender" in
    let senderId := or_ senderId0 (and_ sender (get sender "_id")) in
    if negb (truthy senderId) then Return st
    else
      let! prevMessages := spread (messages_of (conversations st) senderId) in
      let incoming := normalizeMessage (ticks 0) (or_ (get data "message") data) in
      let st1 :=
        setConversations
          (<[toString senderId :=
               normalize_list (shift 1 ticks) (prevMessages ++ [incoming])]>
             (conversations st)) st in
      let prev := usersWithMessages st1 in
      if existsb (λ u, strict_eq (user_id u) senderId) prev then Return st1
      else
        let newUser :=
          KnownUser senderId
            (or_ (or_ (get data "senderName") (and_ sender (get sender "name")))
                 (VStr "User"))
            (or_ (and_ sender (get sender "email")) (VStr "")) in
        Return (setUsersWithMessages (newUser :: prev) st1)
  else Return st.

(** *** Sending *)

(** The record built by the fall-back of a send. *)
Definition pending_message (t : tick) (senderType : string) (text : value) : value :=
  VObj [("id", VNum (now_ms t));
        ("senderType", VStr senderType);
        ("text", text);
        ("createdAt", VStr (now_iso t));
        ("pending", VBool true)].

(** The fall-back of a send ([catch]): a pending message in conversation
    [conversationId], in the state and in local storage. A throw of the
    spread leaves the [catch] block before anything is written. *)
Definition send_fallback
    (ticks : nat → tick) (senderType : string) (conversationId text : value)
    (st : State) : outcome State :=
  let newMessage := pending_message (ticks 0) senderType text in
  let! currentMessages := spread (messages_of (conversations st) conversationId) in
  let updatedMessages :=
    normalize_list (shift 1 ticks) (currentMessages ++ [newMessage]) in
  let newConversations :=
    <[toString conversationId := updatedMessages]> (conversations st) in
  Return
    (setLocalStorage (saveMessageLocally newMessage conversationId (localStorage st))
       (setConversations newConversations st)).

(** [sendMessage]. [send] is the backend's answer to the request;
    [ticks 0] serves the normalization of [response.data]. *)
Definition sendMessage
    (ticks : nat → tick) (send : value → outcome value) (user text : value)
    (st : State) : outcome State :=
  if negb (truthy user) then Return st
  else
    let isAdmin := truthy (get user "isAdmin") in
    try_catch
      (let messageData :=
         VObj [("text", text); ("recipientId", if isAdmin then VNull else VUndef)] in
       let! response := send messageData in
       let! success := prop response "success" in
       if truthy success then
         let sentMessage := normalizeMessage (ticks 0) (get response "data") in
         let! conversationId :=
           if isAdmin then
             let! recipient := prop sentMessage "recipient" in
             Return (or_ (opt_chain recipient "_id") recipient)
           else Return (get user "id") in
         let! currentMessages :=
           spread (messages_of (conversations st) conversationId) in
         let batch := currentMessages ++ [sentMessage] in
         let updatedMessages := normalize_list (shift 1 ticks) batch in
         let newConversations :=
           <[toString conversationId := updatedMessages]> (conversations st) in
         let st1 :=
           setLocalStorage
             (saveMessageLocally sentMessage conversationId (localStorage st))
             (setConversations newConversations st) in
         let autoReply := get response "autoReply" in
         let st2 :=
           if truthy autoReply then
             let k := S (length batch) in
             let reply := normalizeMessage (ticks k) autoReply in
             let messagesWithReply :=
               normalize_list (shift (S k) ticks) (updatedMessages ++ [reply]) in
             let finalConversations :=
               <[toString conversationId := messagesWithReply]> (conversations st) in
             setLocalStorage
               (saveMessageLocally autoReply conversationId (localStorage st1))
               (setConversations finalConversations st1)
           else st1 in
         Return (if isAdmin then st2
                 else setLocalStorage
                        (saveUserToMessageList user (localStorage st2)) st2)
       else
         Throw (Error (or_ (get response "message") (VStr "Failed to send message"))))
      (λ _,
       let! st' :=
         send_fallback (shift 1 ticks) (if isAdmin then "admin" else "user")
           (get user "id") text st in
       Return (if isAdmin then st'
               else setLocalStorage
                      (saveUserToMessageList user (localStorage st')) st')).

(** [sendMessageToUser] *)
Definition sendMessageToUser
    (ticks : nat → tick) (send : value → outcome value) (user userId text : value)
    (st : State) : outcome State :=
  if negb (truthy user) || negb (truthy (get user "isAdmin")) then Return st
  else
    try_catch
      (let! response := send (VObj [("text", text); ("recipientId", userId)]) in
       let! success := prop response "success" in
       if truthy success then
         let sentMessage := normalizeMessage (ticks 0) (get response "data") in
         let! userMessages := spread (messages_of (conversations st) userId) in
         let updatedMessages :=
           normalize_list (shift 1 ticks) (userMessages ++ [sentMessage]) in
         let newConversations :=
           <[toString userId := updatedMessages]> (conversations st) in
         Return (setLocalStorage
                   (saveMessageLocally sentMessage userId (localStorage st))
                   (setConversations newConversations st))
       else
         Throw (Error (or_ (get response "message") (VStr "Failed to send message"))))
      (λ _, send_fallback (shift 1 ticks) "admin" userId text st).

(** *** The Known-user list and the context value *)

(** [arr[arr.length - 1]] *)
Definition last_or_undefined (l : list value) : value := default VUndef (last l).

(** [refreshUserList]: for an admin, one entry per key of [conversations],
    named after the last message of the conversation. The entries come in
    the order of [Object.keys], which the map of this embedding does not
    keep; they are listed in the order of [map_to_list]. *)
Definition refreshUserList (user : value) (st : State) : State :=
  if truthy (opt_chain user "isAdmin") then
    let list :=
      List.map
        (λ '(uid, msgs),
           let last := last_or_undefined msgs in
           let party :=
             if strict_eq (opt_chain last "senderType") (VStr "user")
             then opt_chain last "sender" else opt_chain last "recipient" in
           KnownUser (VStr uid)
             (or_ (opt_chain party "name") (VStr "User"))
             (or_ (opt_chain party "email") (VStr "")))
        (map_to_list (conversations st)) in
    setUsersWithMessages list st
  else st.

(** The [messages] of the context value:
    [user && !user.isAdmin ? conversations[user.id] || [] : []] *)
Definition context_messages (user : value) (st : State) : member :=
  if truthy user && negb (truthy (get user "isAdmin"))
  then messages_of (conversations st) (get user "id")
  else Messages [].

End WithHost.
End Provider.

(* ===================================================================== *)
(** ** The summary-based provider: the admin branch of [loadMessages], and
    sending *)
(* ===================================================================== *)

Module Summary.

(** [summaries.map((c) => ...)]: the Known-user entry of one conversation
    summary. *)
Definition summary_user (c : value) : outcome known_user :=
  let! lastMessage := prop c "lastMessage" in
  let last := or_ lastMessage (VObj []) in
  let isUserSender := strict_eq (get last "senderType") (VStr "user") in
  let party := if isUserSender then get last "sender" else get last "recipient" in
  let name := or_ (opt_chain party "name") (VStr "User") in
  let email := or_ (opt_chain party "email") (VStr "") in
  Return (KnownUser (get c "_id") name email).

Fixpoint summary_users (summaries : list value) : outcome (list known_user) :=
  match summaries with
  | [] => Return []
  | c :: cs =>
      let! u := summary_user c in
      let! us := summary_users cs in
      Return (u :: us)
  end.

(** [usersList.slice(0, 20)] *)
Definition toFetch (usersList : list known_user) : list known_user :=
  take 20 usersList.

(** [Promise.allSettled(toFetch.map((u) => apiService.getMessages(u.id)))]:
    each request, by its argument, with how it settled. [getMessages idx]
    is the answer of the network to request number [idx]. *)
Definition fetch_details
    (getMessages : nat → value → outcome value) (toFetch : list known_user)
  : list (value * outcome value) :=
  imap (λ idx u, (user_id u, getMessages idx (user_id u))) toFetch.

(** The shape given to a fetched record. *)
Definition shape_message (m : value) : outcome value :=
  let! _id := prop m "_id" in
  let id := or_ _id (get m "id") in
  let sender := get m "sender" in
  let senderType :=
    or_ (get m "senderType")
        (if strict_eq sender (VStr "admin") || strict_eq sender (VStr "user")
         then sender else VUndef) in
  Return (VObj [("id", id); ("_id", id); ("text", get m "text");
                ("senderType", senderType); ("sender", senderType);
                ("timestamp", or_ (get m "createdAt") (get m "timestamp"))]).

Fixpoint shape_messages (l : list value) : outcome (list value) :=
  match l with
  | [] => Return []
  | m :: l' =>
      let! x := shape_message m in
      let! xs := shape_messages l' in
      Return (x :: xs)
  end.

(** The body of [results.forEach((res, idx) => ...)] for one result. The
    assignment [convMap[convUser.id] = normalized] adds no property for the
    name [__proto__]: it puts the array in the place of the prototype of
    [convMap] instead. *)
Definition fold_result
    (convMap : gmap string (list value)) (convUser_id : value) (res : outcome value)
  : outcome (gmap string (list value)) :=
  match res with
  | Return v =>
      if truthy (opt_chain v "success") then
        let! data := as_array (or_ (get v "data") (VArr [])) in
        let! shaped := shape_messages data in
        Return (if String.eqb (toString convUser_id) "__proto__" then convMap
                else <[toString convUser_id := reverse shaped]> convMap)
      else Return convMap
  | Throw _ => Return convMap
  end.

Fixpoint fold_results
    (convMap : gmap string (list value)) (results : list (value * outcome value))
  : outcome (gmap string (list value)) :=
  match results with
  | [] => Return convMap
  | (uid, res) :: results' =>
      let! convMap' := fold_result convMap uid res in
      fold_results convMap' results'
  end.

(** The network during one load. *)
Record load_api : Type := LoadApi {
  getConversations : outcome value;
  getMessages : nat → value → outcome value
}.

(** The outcome of the admin branch: the state it leaves, the detail
    requests it issued (by their argument), and whether it ran to its end
    or was cut short by a [throw] that the outer [catch] turned into the
    local fall-back. *)
Record admin_load : Type := AdminLoad {
  final : State;
  issued : list value;
  fell_back : bool
}.

(** The outer [catch] for an admin: the local mirror. *)
Definition local_fallback (st : State) : State :=
  setConversations (getLocalConversations (localStorage st)) st.

(** The admin branch of [loadMessages], with the outer [catch] and
    [finally] around it. *)
Definition loadMessages_admin (api : load_api) (st : State) : admin_load :=
  let st := setLoading true st in
  let finish (a : admin_load) :=
    AdminLoad (setLoading false (final a)) (issued a) (fell_back a) in
  finish
    match
      (let! response := getConversations api in
       let! success := prop response "success" in
       if truthy success then
         let! summaries := as_array (or_ (get response "data") (VArr [])) in
         let! usersList := summary_users summaries in
         Return (Some usersList)
       else Return None)
    with
    | Throw _ => AdminLoad (local_fallback st) [] true
    | Return None => AdminLoad (local_fallback st) [] true
    | Return (Some usersList) =>
        let st1 := setUsersWithMessages usersList st in
        let results := fetch_details (getMessages api) (toFetch usersList) in
        match fold_results ∅ results with
        | Return convMap =>
            AdminLoad (setConversations convMap st1) (List.map fst results) false
        | Throw _ => AdminLoad (local_fallback st1) (List.map fst results) true
        end
    end.

(** The record built by the fall-back of a send. *)
Definition pending_message (t : tick) (sender : string) (text : value) : value :=
  VObj [("id", VNum (now_ms t));
        ("sender", VStr sender);
        ("text", text);
        ("timestamp", VStr (now_iso t));
        ("pending", VBool true)].

(** The fall-back of a send ([catch]): the pending message goes to the end
    of the list. *)
Definition send_fallback
    (t : tick) (sender : string) (conversationId text : value) (st : State)
  : outcome State :=
  let newMessage := pending_message t sender text in
  let! currentMessages := spread (messages_of (conversations st) conversationId) in
  let updatedMessages := currentMessages ++ [newMessage] in
  let newConversations :=
    <[toString conversationId := updatedMessages]> (conversations st) in
  Return
    (setLocalStorage (saveMessageLocally newMessage conversationId (localStorage st))
       (setConversations newConversations st)).

(** [sendMessage] *)
Definition sendMessage
    (t : tick) (send : value → outcome value) (user text : value) (st : State)
  : outcome State :=
  if negb (truthy user) then Return st
  else
    let isAdmin := truthy (get user "isAdmin") in
    try_catch
      (let messageData :=
         VObj [("text", text); ("recipientId", if isAdmin then VNull else VUndef)] in
       let! response := send messageData in
       let! success := prop response "success" in
       if truthy success then
         let raw := get response "data" in
         let! _id := prop raw "_id" in
         let id := or_ _id (get raw "id") in
         let sentMessage :=
           VObj [("id", id); ("_id", id); ("text", get raw "text");
                 ("senderType", get raw "senderType"); ("sender", get raw "senderType");
                 ("timestamp", or_ (get raw "createdAt") (get raw "timestamp"))] in
         let conversationId :=
           if isAdmin then or_ (get raw "recipient") (get raw "conversation")
           else or_ (get user "id") (get user "_id") in
         let! currentMessages :=
           spread (messages_of (conversations st) conversationId) in
         let updatedMessages := currentMessages ++ [sentMessage] in
         let newConversations :=
           <[toString conversationId := updatedMessages]> (conversations st) in
         let st1 :=
           setLocalStorage
             (saveMessageLocally sentMessage conversationId (localStorage st))
             (setConversations newConversations st) in
         let ar := get response "autoReply" in
         let st2 :=
           if truthy ar then
             let arId := or_ (get ar "_id") (get ar "id") in
             let arType := or_ (get ar "senderType") (VStr "admin") in
             let autoReply :=
               VObj [("id", arId); ("_id", arId); ("text", get ar "text");
                     ("senderType", arType); ("sender", arType);
                     ("timestamp", or_ (get ar "createdAt") (get ar "timestamp"))] in
             let messagesWithReply := updatedMessages ++ [autoReply] in
             let finalConversations :=
               <[toString conversationId := messagesWithReply]> (conversations st) in
             setLocalStorage
               (saveMessageLocally autoReply conversationId (localStorage st1))
               (setConversations finalConversations st1)
           else st1 in
         Return (if isAdmin then st2
                 else setLocalStorage
                        (saveUserToMessageList user (localStorage st2)) st2)
       else
         Throw (Error (or_ (get response "message") (VStr "Failed to send message"))))
      (λ _,
       let! st' :=
         send_fallback t (if isAdmin then "admin" else "user")
           (or_ (get user "id") (get user "_id")) text st in
       Return (if isAdmin then st'
               else setLocalStorage
                      (saveUserToMessageList user (localStorage st')) st')).

(** [sendMessageToUser] (the plain provider has the same text). *)
Definition sendMessageToUser
    (t : tick) (send : value → outcome value) (user userId text : value) (st : State)
  : outcome State :=
  if negb (truthy user) || negb (truthy (get user "isAdmin")) then Return st
  else
    try_catch
      (let! response := send (VObj [("text", text); ("recipientId", userId)]) in
       let! success := prop response "success" in
       if truthy success then
         let sentMessage := get response "data" in
         let! userMessages := spread (messages_of (conversations st) userId) in
         let updatedMessages := userMessages ++ [sentMessage] in
         let newConversations :=
           <[toString userId := updatedMessages]> (conversations st) in
         Return (setLocalStorage
                   (saveMessageLocally sentMessage userId (localStorage st))
                   (setConversations newConversations st))
       else
         Throw (Error (or_ (get response "message") (VStr "Failed to send message"))))
      (λ _, send_fallback t "admin" userId text st).

End Summary.

(* ===================================================================== *)
(** ** The plain provider: the [message-received] handler *)
(* ===================================================================== *)

Module Plain.

(** The handler of [message-received]: the payload is stored as it
    arrives, at the end of the sender's list. When the updater of the
    conversations throws, neither update is applied. *)
Definition handleMessageReceived (user data : value) (st : State) : outcome State :=
  if truthy user && truthy (get user "isAdmin") then
    let! senderId0 := prop data "senderId" in
    let sender := get data "sender" in
    let senderId := or_ senderId0 (and_ sender (get sender "_id")) in
    if negb (truthy senderId) then Return st
    else
      let! prevMessages := spread (messages_of (conversations st) senderId) in
      let st1 :=
        setConversations
          (<[toString senderId := prevMessages ++ [or_ (get data "message") data]]>
             (conversations st)) st in
      let prev := usersWithMessages st1 in
      if existsb (λ u, strict_eq (user_id u) senderId) prev then Return st1
      else
        let newUser :=
          KnownUser senderId
            (or_ (or_ (get data "senderName") (and_ sender (get sender "name")))
                 (VStr "User"))
            (or_ (and_ sender (get sender "email")) (VStr "")) in
        Return (setUsersWithMessages (newUser :: prev) st1)
  else Return st.

(** The listener [socket.on('message-received', handleMessageReceived)]:
    the handler runs once for each event, in the order of arrival. *)
Fixpoint on_message_received (user : value) (events : list value) (st : State)
  : outcome State :=
  match events with
  | [] => Return st
  | data :: events' =>
      let! st' := handleMessageReceived user data st in
      on_message_received user events' st'
  end.

End Plain.

(* ===================================================================== *)
(** ** The user list of the admin view *)
(* ===================================================================== *)

Module AdminUserConversations.

(** The line under a user's name:
    [conversations[user.id]?.slice(-1)[0]?.text || 'No messages yet'].
    Without a conversation the chain stops at [undefined]; on a member
    inherited from [Object.prototype] the call of [slice], which the member
    does not have, is a TypeError. *)
Definition preview (conversations : gmap string (list value)) (user : known_user)
  : outcome value :=
  match conversations !! toString (user_id user) with
  | Some msgs =>
      Return (or_ (opt_chain (Provider.last_or_undefined msgs) "text")
                  (VStr "No messages yet"))
  | None =>
      if inherited (toString (user_id user)) then Throw TypeError
      else Return (VStr "No messages yet")
  end.

End AdminUserConversations.

(* ===================================================================== *)
(** ** A date parser for the examples *)
(* ===================================================================== *)

(** The theorems hold for every [Date_parse]. The examples run with this
    one, which reads the format [toISOString] writes,
    [YYYY-MM-DDTHH:mm:ss.sssZ], and nothing else. *)
Module Iso.

Definition digit (c : ascii) : option Z :=
  let n := Z.of_nat (nat_of_ascii c) in
  if (48 <=? n)%Z && (n <=? 57)%Z then Some (n - 48)%Z else None.

(** The number written by the [len] digits at the head of [s], and the rest
    of [s]. *)
Fixpoint digits (len : nat) (acc : Z) (s : string) : option (Z * string) :=
  match len, s with
  | O, _ => Some (acc, s)
  | S len', String c s' => d ← digit c; digits len' (10 * acc + d)%Z s'
  | S _, EmptyString => None
  end.

Definition sep (c : ascii) (s : string) : option string :=
  match s with
  | String c' s' => if Ascii.eqb c c' then Some s' else None
  | EmptyString => None
  end.

(** Days from 1970-01-01 to the given civil date. *)
Definition days_from_civil (y m d : Z) : Z :=
  let y' := (if m <=? 2 then y - 1 else y)%Z in
  let era := (y' / 400)%Z in
  let yoe := (y' - era * 400)%Z in
  let mp := (if m <=? 2 then m + 9 else m - 3)%Z in
  let doy := ((153 * mp + 2) / 5 + d - 1)%Z in
  let doe := (yoe * 365 + yoe / 4 - yoe / 100 + doy)%Z in
  (era * 146097 + doe - 719468)%Z.

Definition Date_parse (s : string) : option Z :=
  '(y, s) ← digits 4 0 s; s ← sep "-" s;
  '(m, s) ← digits 2 0 s; s ← sep "-" s;
  '(d, s) ← digits 2 0 s; s ← sep "T" s;
  '(hh, s) ← digits 2 0 s; s ← sep ":" s;
  '(mm, s) ← digits 2 0 s; s ← sep ":" s;
  '(ss, s) ← digits 2 0 s; s ← sep "." s;
  '(ms, s) ← digits 3 0 s; s ← sep "Z" s;
  if String.eqb s ""
     && (1 <=? m)%Z && (m <=? 12)%Z && (1 <=? d)%Z && (d <=? 31)%Z
     && (hh <? 24)%Z && (mm <? 60)%Z && (ss <? 60)%Z
  then Some ((((days_from_civil y m d * 24 + hh) * 60 + mm) * 60 + ss) * 1000 + ms)%Z
  else None.

End Iso.

(* ===================================================================== *)
(** * Vocabulary of the specification *)
(* ===================================================================== *)

(** The comparator is the difference of the keys on the elements of [l]. *)
Definition keyed_on {A} (cmp : A → A → option Z) (key : A → Z) (l : list A) : Prop :=
  ∀ x y, x ∈ l → y ∈ l → cmp x y = Some (key x - key y)%Z.

(** [a] occurs in [l] at an earlier position than an occurrence of [b]. *)
Inductive before {A} (a b : A) : list A → Prop :=
| before_here l : b ∈ l → before a b (a :: l)
| before_later x l : before a b l → before a b (x :: l).

(** An array index is written with digits. *)
Definition is_digit (c : ascii) : bool :=
  let n := nat_of_ascii c in (48 <=? n)%nat && (n <=? 57)%nat.

(** A property name that does not start with a digit. *)
Definition is_name (k : string) : bool :=
  match k with
  | EmptyString => true
  | String c _ => negb (is_digit c)
  end.

(** A malformed record according to the specification: absent, or with an
    empty or missing text. *)
Definition malformed (m : value) : bool :=
  negb (truthy m) || negb (truthy (get m "text")).

(** A canonical message: a record that normalization leaves as it is. *)
Definition canonical (m : value) : Prop :=
  truthy m = true ∧ ∀ t, Provider.normalizeMessage t m = m.

(** [toISOString] never returns the empty string. *)
Definition iso_clock (ticks : nat → tick) : Prop :=
  ∀ i, now_iso (ticks i) ≠ "".

Section TimeOrder.

Variable Date_parse : string → option Z.

(** Both records carry a date, and the first is not later. *)
Definition time_le (a b : value) : Prop :=
  ∃ x y, msg_time Date_parse a = Some x ∧ msg_time Date_parse b = Some y ∧ (x ≤ y)%Z.

(** Non-decreasing timestamp order. *)
Definition in_time_order (l : list value) : Prop := StronglySorted time_le l.

(** Every record of [l] has a timestamp that is a date. *)
Definition all_dated (l : list value) : Prop :=
  Forall (λ m, is_Some (msg_time Date_parse m)) l.

Definition time_key (m : value) : Z := default 0%Z (msg_time Date_parse m).

(** The records of [l] whose timestamp is [t], in the order of [l]. *)
Definition at_time (t : Z) (l : list value) : list value :=
  filter (λ m, msg_time Date_parse m = Some t) l.

End TimeOrder.

(** The normalized records of a batch that are not dropped, in input
    order: the batch before it is sorted. *)
Definition kept (ticks : nat → tick) (l : list value) : list value :=
  filter (λ m, truthy m = true) (imap (λ i m, Provider.normalizeMessage (ticks i) m) l).

(** A value that is compared by content, not by reference. *)
Definition is_primitive (v : value) : bool :=
  match v with
  | VArr _ | VObj _ => false
  | _ => true
  end.

(** The sender a [message-received] payload names. *)
Definition event_sender (data : value) : value :=
  or_ (get data "senderId") (and_ (get data "sender") (get (get data "sender") "_id")).

(** The sender is already in the Known-user list. *)
Definition known (senderId : value) (l : list known_user) : bool :=
  existsb (λ u, strict_eq (user_id u) senderId) l.

(** A request that failed: it was rejected, or its response is absent or
    does not report success. *)
Definition request_failed (o : outcome value) : bool :=
  match o with
  | Throw _ => true
  | Return r => nullish r || negb (truthy (get r "success"))
  end.

(** The conversation key under which the admin load groups a message of
    the summary, if any. *)
Definition conversation_key (m : value) : option string :=
  let party :=
    if strict_eq (get m "senderType") (VStr "user") then get m "sender"
    else get m "recipient" in
  let convId := or_ (get m "conversation") (or_ (opt_chain party "_id") party) in
  if truthy convId then Some (toString convId) else None.

(** A detail fetch of the summary-based load that counts as successful. *)
Definition detail_succeeded (res : outcome value) : bool :=
  match res with
  | Return v => truthy (opt_chain v "success")
  | Throw _ => false
  end.

(** A successful detail response carries no [data] or an array of records,
    none of which is [null] or [undefined]. *)
Definition well_formed_detail (res : outcome value) : Prop :=
  ∀ v, res = Return v → truthy (opt_chain v "success") = true →
       ∃ l, or_ (get v "data") (VArr []) = VArr l ∧ Forall (λ m, nullish m = false) l.

(** The key of a Known-user entry in the conversations object. *)
Definition user_key (u : known_user) : string := toString (user_id u).

(** The messages the conversations object [c] holds for [k]: those of its
    own property, none when it has no such property. *)
Definition conversation_of (c : gmap string (list value)) (k : value) : list value :=
  default [] (c !! toString k).

(** [k] is the name of a member that every object inherits. *)
Definition inherited_name (k : string) : Prop :=
  k ∈ ["constructor"; "__proto__"; "hasOwnProperty"; "isPrototypeOf";
       "propertyIsEnumerable"; "toLocaleString"; "toString"; "valueOf";
       "__defineGetter__"; "__defineSetter__"; "__lookupGetter__"; "__lookupSetter__"].

(** The conversation of [k] can be read from [c] as an array: [c] has it, or
    [k] names nothing that an object inherits. *)
Definition readable (c : gmap string (list value)) (k : value) : Prop :=
  c !! toString k = None → ¬ inherited_name (toString k).

(** The key of local storage under which the messages of conversation [k]
    are kept, and the array stored there. *)
Definition storage_key (k : value) : string := "autocare_messages_" +:+ toString k.

Definition stored_under (ls : storage) (k : value) : list value :=
  default [] (items ls !! storage_key k).

(** The state in which the pending record of a failed send has been filed
    for conversation [cid]: it is in the conversation, which is normalized,
    and at the end of the array stored for it. *)
Definition pending_filed
    (Date_parse : string → option Z) (ticks : nat → tick) (senderType : string)
    (cid text : value) (st : State) : State :=
  let pending := Provider.pending_message (ticks 0) senderType text in
  setLocalStorage (saveMessageLocally pending cid (localStorage st))
    (setConversations
       (<[toString cid
          := Provider.normalize_list Date_parse (shift 1 ticks)
               (conversation_of (conversations st) cid ++ [pending])]>
          (conversations st)) st).

(* ===================================================================== *)
(** * Data of the examples *)
(* ===================================================================== *)

(** The clock of the examples. *)
Definition tick0 : tick := Tick 1704067200000 "2024-01-01T00:00:00.000Z" "k3x9q2".

(** Records of the examples. *)
Definition iso (hhmmss : string) : value := VStr ("2024-01-01T" +:+ hhmmss +:+ ".000Z").

Definition mixed_batch : list value :=
  [ VObj [("_id", VStr "b"); ("text", VStr "second"); ("sender", VStr "admin");
          ("timestamp", iso "10:00:05")];
    VNull;
    VObj [("id", VStr "a"); ("text", VStr "first"); ("senderType", VStr "user");
          ("createdAt", iso "10:00:01")];
    VObj [("text", VStr "tie"); ("sender", VStr "user"); ("createdAt", iso "10:00:05")] ].

(** A batch whose second record is malformed: its text is empty, and its
    timestamp is not a date either. *)
Definition batch_with_malformed : list value :=
  [ VObj [("id", VStr "a"); ("text", VStr "later"); ("createdAt", iso "10:00:02")];
    VObj [("id", VStr "b"); ("text", VStr ""); ("createdAt", VStr "soon")];
    VObj [("id", VStr "c"); ("text", VStr "earlier"); ("createdAt", iso "10:00:01")] ].

Definition no_text_record : value :=
  VObj [("id", VStr "m1"); ("createdAt", iso "10:00:00")].

(** The state of a session that has loaded nothing and stored nothing. *)
Definition empty_state : State := MkState ∅ [] false (Storage ∅ []).

Definition admin_user : value :=
  VObj [("id", VStr "admin1"); ("name", VStr "Ada"); ("isAdmin", VBool true)].

Definition plain_user : value :=
  VObj [("id", VStr "u1"); ("name", VStr "Uma"); ("email", VStr "uma@example.com");
        ("isAdmin", VBool false)].

(** A [message-received] payload that carries a message with an
    identifier. *)
Definition event_m1 : value :=
  VObj [("senderId", VStr "u1"); ("senderName", VStr "Uma");
        ("message", VObj [("_id", VStr "m1"); ("text", VStr "Need an oil change");
                          ("senderType", VStr "user"); ("createdAt", iso "10:00:00")])].


Definition network_down : value → outcome value :=
  λ _, Throw (Rejected (VStr "Network Error")).

(** A successful response whose auto-reply carries its own timestamp. *)
Definition response_with_reply : value :=
  VObj [("success", VBool true);
        ("data", VObj [("_id", VStr "m1"); ("text", VStr "Need an oil change");
                       ("senderType", VStr "user"); ("createdAt", iso "10:00:05")]);
        ("autoReply", VObj [("_id", VStr "a1"); ("text", VStr "We will get back to you");
                            ("senderType", VStr "admin"); ("createdAt", iso "10:00:06")])].


(** The summary of the examples: one message in conversation A, one in
    conversation B. *)
Definition summary_A : value :=
  VObj [("_id", VStr "s1"); ("conversation", VStr "A"); ("text", VStr "latest of A");
        ("senderType", VStr "user"); ("sender", VObj [("_id", VStr "A"); ("name", VStr "Ann")]);
        ("createdAt", iso "10:00:03")].

Definition summary_B : value :=
  VObj [("_id", VStr "s2"); ("conversation", VStr "B"); ("text", VStr "latest of B");
        ("senderType", VStr "user"); ("sender", VObj [("_id", VStr "B"); ("name", VStr "Bob")]);
        ("createdAt", iso "10:00:04")].

Definition history_A : list value :=
  [ VObj [("_id", VStr "a1"); ("text", VStr "one"); ("senderType", VStr "user");
          ("createdAt", iso "10:00:01")];
    VObj [("_id", VStr "a3"); ("text", VStr "latest of A"); ("senderType", VStr "user");
          ("createdAt", iso "10:00:03")];
    VObj [("_id", VStr "a2"); ("text", VStr "two"); ("senderType", VStr "admin");
          ("createdAt", iso "10:00:02")] ].

(** The network of the examples: the summary arrives, the detail fetch of A
    succeeds, the detail fetch of B is rejected. *)
Definition api_B_fails : Provider.load_api :=
  Provider.LoadApi
    (Return (VObj [("success", VBool true);
                   ("data", VObj [("messages", VArr [summary_A; summary_B])])]))
    (λ uid, if String.eqb uid "A"
            then Return (VObj [("success", VBool true); ("data", VArr history_A)])
            else Throw (Rejected (VStr "Network Error")))
    (Throw (Rejected (VStr "Network Error"))).

(** A summary message whose conversation bears the name of an inherited
    member. *)
Definition summary_constructor : value :=
  VObj [("_id", VStr "s3"); ("conversation", VStr "constructor");
        ("text", VStr "latest of constructor"); ("senderType", VStr "user");
        ("sender", VObj [("_id", VStr "constructor"); ("name", VStr "Connie")]);
        ("createdAt", iso "10:00:05")].


(** An admin's message as the backend confirms it, stamped by the server. *)
Definition confirmed_m1 : value :=
  VObj [("_id", VStr "m1"); ("text", VStr "Your car is ready");
        ("senderType", VStr "admin"); ("recipient", VStr "u1");
        ("createdAt", iso "10:00:05")].

Definition send_confirms_m1 : value → outcome value :=
  λ _, Return (VObj [("success", VBool true); ("data", confirmed_m1)]).

(** The network is down for every request of a load. *)
Definition offline : Provider.load_api :=
  Provider.LoadApi (Throw (Rejected (VStr "Network Error")))
    (λ _, Throw (Rejected (VStr "Network Error")))
    (Throw (Rejected (VStr "Network Error"))).

(** A [message-received] payload whose message is older than the one of
    [event_m1]. *)
Definition event_m0 : value :=
  VObj [("senderId", VStr "u1"); ("senderName", VStr "Uma");
        ("message", VObj [("_id", VStr "m0"); ("text", VStr "Hello");
                          ("senderType", VStr "user"); ("createdAt", iso "09:59:00")])].

(** A summary of 22 conversations, [u0] to [u21]. *)
Definition many_summaries : list value :=
  List.map (λ i, VObj [("_id", VStr ("u" +:+ key_of_index i))]) (seq 0 22).

Definition many_users : list known_user :=
  List.map (λ i, KnownUser (VStr ("u" +:+ key_of_index i)) (VStr "User") (VStr ""))
    (seq 0 22).

(** The summary arrives; every detail fetch answers with one message,
    except the second, which is rejected. *)
Definition api_second_fails : Summary.load_api :=
  Summary.LoadApi
    (Return (VObj [("success", VBool true); ("data", VArr many_summaries)]))
    (λ idx _,
       if Nat.eqb idx 1 then Throw (Rejected (VStr "Network Error"))
       else Return (VObj [("success", VBool true);
                          ("data", VArr [VObj [("_id", VStr "m"); ("text", VStr "hi")]])])).

(** Two canonical messages. *)
Definition early_message : value :=
  VObj [("id", VStr "e"); ("text", VStr "earlier"); ("senderType", VStr "user");
        ("createdAt", iso "10:00:01")].

Definition late_message : value :=
  VObj [("id", VStr "l"); ("text", VStr "later"); ("senderType", VStr "admin");
        ("createdAt", iso "10:00:02")].

(** A clock that reads later than [tick0]. *)
Definition tick1 : tick := Tick 1704110400000 "2024-01-01T12:00:00.000Z" "p0q1r2".

(** The summary names A and B; the detail fetch of A succeeds, the detail
    response of B reports success with an object as [data]. *)
Definition api_malformed_detail : Summary.load_api :=
  Summary.LoadApi
    (Return (VObj [("success", VBool true);
                   ("data", VArr [VObj [("_id", VStr "A")]; VObj [("_id", VStr "B")]])]))
    (λ idx _, if Nat.eqb idx 0
              then Return (VObj [("success", VBool true); ("data", VArr [late_message])])
              else Return (VObj [("success", VBool true);
                                 ("data", VObj [("messages", VArr [])])])).

(** The summary names [u0] to [u21] and then [u0] again; every detail
    fetch succeeds. *)
Definition api_repeated_user : Summary.load_api :=
  Summary.LoadApi
    (Return (VObj [("success", VBool true);
                   ("data", VArr (many_summaries ++ [VObj [("_id", VStr "u0")]]))]))
    (λ _ _, Return (VObj [("success", VBool true); ("data", VArr [late_message])])).

(** A canonical message older than the one of [event_m1]. *)
Definition older_message : value :=
  VObj [("id", VStr "m0"); ("text", VStr "Hello"); ("senderType", VStr "user");
        ("createdAt", iso "09:59:00")].

(** A user whose profile carries an empty [messages] array. *)
Definition user_no_history : value :=
  VObj [("id", VStr "u1"); ("name", VStr "Uma"); ("isAdmin", VBool false);
        ("messages", VArr [])].

(** A user whose profile carries two messages. *)
Definition user_with_history : value :=
  VObj [("id", VStr "u1"); ("name", VStr "Uma"); ("isAdmin", VBool false);
        ("messages", VArr [late_message; early_message])].

(** A local storage that holds one message of conversation [u1]. *)
Definition storage_u1 : storage :=
  Storage {[ "autocare_messages_u1" := [early_message] ]} [].

Definition state_u1 : State := MkState ∅ [] false storage_u1.

(** The backend answers a load with [success: false]. *)
Definition api_refuses : Provider.load_api :=
  Provider.LoadApi (Return (VObj [("success", VBool false)]))
    (λ _, Return (VObj [("success", VBool false)]))
    (Return (VObj [("success", VBool false)])).

(** The backend answers a load with [success: true] and an object where the
    array of messages should be. *)
Definition api_wrong_shape : Provider.load_api :=
  Provider.LoadApi (Return (VObj [("success", VBool true); ("data", VObj [])]))
    (λ _, Return (VObj [("success", VBool true); ("data", VObj [])]))
    (Return (VObj [("success", VBool true); ("data", VObj [("messages", VArr [])])])).

(* ===================================================================== *)
(** * Properties *)
(* ===================================================================== *)

(** ** [Array.prototype.sort] with a comparator that subtracts keys *)

Section SortFacts.

Context {A : Type} (cmp : A → A → option Z) (key : A → Z).

Local Abbreviation keyed_on := (keyed_on cmp key).

Lemma keyed_on_cons x l : keyed_on (x :: l) → keyed_on l.
Proof. intros H a b Ha Hb. apply H; by right. Qed.

Lemma keyed_on_skip x y l : keyed_on (x :: y :: l) → keyed_on (x :: l).
Proof.
  intros H a b Ha Hb. apply H.
  - apply elem_of_cons in Ha as [->|Ha]; [left | by do 2 right].
  - apply elem_of_cons in Hb as [->|Hb]; [left | by do 2 right].
Qed.

Lemma keyed_on_perm l l' : l ≡ₚ l' → keyed_on l → keyed_on l'.
Proof. intros Hp H a b Ha Hb. apply H; by rewrite Hp. Qed.

Lemma sort_insert_perm x l : sort_insert cmp x l ≡ₚ x :: l.
Proof.
  induction l as [|y l IH]; simpl; [done|].
  destruct (sort_before cmp x y); [done|].
  rewrite IH. apply Permutation_swap.
Qed.

Lemma Array_sort_perm l : Array_sort cmp l ≡ₚ l.
Proof.
  induction l as [|x l IH]; simpl; [done|].
  fold (Array_sort cmp l). by rewrite sort_insert_perm, IH.
Qed.

Lemma Array_sort_length l : length (Array_sort cmp l) = length l.
Proof. by rewrite Array_sort_perm. Qed.

Lemma sort_before_keyed x y :
  cmp x y = Some (key x - key y)%Z → sort_before cmp x y = bool_decide (key x ≤ key y)%Z.
Proof.
  intros H. unfold sort_before. rewrite H.
  case_bool_decide; [apply Z.leb_le | apply Z.leb_gt]; lia.
Qed.

Lemma sort_insert_sorted x l :
  keyed_on (x :: l) →
  StronglySorted (λ a b, key a ≤ key b)%Z l →
  StronglySorted (λ a b, key a ≤ key b)%Z (sort_insert cmp x l).
Proof.
  intros Hk Hs. induction Hs as [|y l Hs IH Hy]; simpl.
  - repeat constructor.
  - rewrite (sort_before_keyed x y) by (apply Hk; [left | right; left]).
    case_bool_decide as Hxy.
    + constructor; [by constructor|].
      constructor; [done|].
      eapply Forall_impl; [exact Hy|]. simpl. intros; lia.
    + constructor.
      * apply IH. by eapply keyed_on_skip.
      * rewrite sort_insert_perm. constructor; [lia | done].
Qed.

Lemma Array_sort_sorted l :
  keyed_on l → StronglySorted (λ a b, key a ≤ key b)%Z (Array_sort cmp l).
Proof.
  induction l as [|x l IH]; intros Hk; simpl; [constructor|].
  fold (Array_sort cmp l). apply sort_insert_sorted.
  - eapply keyed_on_perm; [|exact Hk]. by rewrite Array_sort_perm.
  - apply IH. by eapply keyed_on_cons.
Qed.

(** Insertion passes only elements with a strictly smaller key, so the
    elements of one key keep their order. *)
Lemma sort_insert_filter x l k :
  keyed_on (x :: l) →
  filter (λ a, key a = k) (sort_insert cmp x l) = filter (λ a, key a = k) (x :: l).
Proof.
  intros Hk. induction l as [|y l IH]; simpl; [done|].
  rewrite (sort_before_keyed x y) by (apply Hk; [left | right; left]).
  case_bool_decide as Hxy; [done|].
  rewrite filter_cons, IH by (by eapply keyed_on_skip).
  rewrite !filter_cons. repeat case_decide; try done; lia.
Qed.

Lemma Array_sort_stable l k :
  keyed_on l →
  filter (λ a, key a = k) (Array_sort cmp l) = filter (λ a, key a = k) l.
Proof.
  induction l as [|x l IH]; intros Hk; simpl; [done|].
  fold (Array_sort cmp l). rewrite sort_insert_filter.
  - rewrite !filter_cons, IH by (by eapply keyed_on_cons). done.
  - eapply keyed_on_perm; [|exact Hk]. by rewrite Array_sort_perm.
Qed.

(** Two sorted lists that agree key by key are equal. *)
Lemma sorted_by_classes (l1 l2 : list A) :
  StronglySorted (λ a b, key a ≤ key b)%Z l1 →
  StronglySorted (λ a b, key a ≤ key b)%Z l2 →
  (∀ k, filter (λ a, key a = k) l1 = filter (λ a, key a = k) l2) →
  l1 = l2.
Proof.
  intros H1. revert l2. induction H1 as [|x l1 Hs1 IH Hx]; intros l2 H2 Hf.
  - destruct l2 as [|y l2]; [done|].
    specialize (Hf (key y)). rewrite filter_cons in Hf.
    case_decide; [discriminate | done].
  - destruct l2 as [|y l2].
    { specialize (Hf (key x)). rewrite filter_cons in Hf.
      case_decide; [discriminate | done]. }
    inversion H2 as [|? ? Hs2 Hy]; subst.
    assert (Hxin : x ∈ y :: l2).
    { pose proof (Hf (key x)) as E. rewrite filter_cons in E.
      case_decide; [|done].
      assert (x ∈ filter (λ a, key a = key x) (y :: l2)) as Hin
        by (rewrite <- E; left).
      by apply list_elem_of_filter in Hin as [_ ?]. }
    assert (Hyin : y ∈ x :: l1).
    { pose proof (Hf (key y)) as E. rewrite (filter_cons _ y) in E.
      case_decide; [|done].
      assert (y ∈ filter (λ a, key a = key y) (x :: l1)) as Hin
        by (rewrite E; left).
      by apply list_elem_of_filter in Hin as [_ ?]. }
    assert (key x = key y) as Hxy.
    { apply Z.le_antisymm.
      - apply elem_of_cons in Hyin as [->|Hin]; [lia|].
        rewrite Forall_forall in Hx. by apply Hx.
      - apply elem_of_cons in Hxin as [->|Hin]; [lia|].
        rewrite Forall_forall in Hy. by apply Hy. }
    assert (x = y) as ->.
    { pose proof (Hf (key x)) as E. rewrite !filter_cons in E.
      repeat case_decide; try done; congruence. }
    f_equal. apply IH; [done|]. intros k.
    specialize (Hf k). rewrite !filter_cons in Hf.
    case_decide; congruence.
Qed.

(** Whatever algorithm a host uses for [sort], if its result is sorted and
    stable it is the list [Array_sort] returns. *)
Lemma stable_sort_unique l out :
  keyed_on l →
  StronglySorted (λ a b, key a ≤ key b)%Z out →
  (∀ k, filter (λ a, key a = k) out = filter (λ a, key a = k) l) →
  out = Array_sort cmp l.
Proof.
  intros Hk Hs Hf. apply sorted_by_classes; [done | by apply Array_sort_sorted |].
  intros k. by rewrite Hf, Array_sort_stable.
Qed.

End SortFacts.

(** ** The normalizer on one record *)

Lemma prop_truthy m k : truthy m = true → prop m k = Return (get m k).
Proof. unfold prop. by destruct m. Qed.

Lemma prop_not_nullish m k : nullish m = false → prop m k = Return (get m k).
Proof. unfold prop. by intros ->. Qed.

Lemma normalizeMessage_falsy t m :
  truthy m = false → Provider.normalizeMessage t m = VNull.
Proof. unfold Provider.normalizeMessage. by intros ->. Qed.

Lemma normalizeMessage_truthy t m :
  truthy m = true → ∃ f, Provider.normalizeMessage t m = VObj f.
Proof. unfold Provider.normalizeMessage. intros ->. simpl. eauto. Qed.

Lemma normalizeMessage_truthy_iff t m :
  truthy (Provider.normalizeMessage t m) = truthy m.
Proof.
  destruct (truthy m) eqn:E.
  - by destruct (normalizeMessage_truthy t m E) as [f ->].
  - by rewrite normalizeMessage_falsy.
Qed.

(** ** Batches *)

Lemma kept_length_gen (f : nat → value → value) l :
  (∀ i m, truthy (f i m) = truthy m) →
  length (filter (λ m, truthy m = true) (imap f l))
  = length (filter (λ m, truthy m = true) l).
Proof.
  revert f. induction l as [|x l IH]; intros f Hf; [done|].
  rewrite imap_cons, !filter_cons, Hf.
  case_decide; simpl; rewrite IH; try done; intros; apply Hf.
Qed.

Lemma kept_length ticks l :
  length (kept ticks l) = length (filter (λ m, truthy m = true) l).
Proof. apply kept_length_gen. intros. apply normalizeMessage_truthy_iff. Qed.

Lemma kept_truthy ticks l : Forall (λ m, truthy m = true) (kept ticks l).
Proof. apply Forall_forall. intros m Hm. by apply list_elem_of_filter in Hm as [? _]. Qed.

Lemma kept_app ticks l1 l2 :
  kept ticks (l1 ++ l2) = kept ticks l1 ++ kept (shift (length l1) ticks) l2.
Proof. unfold kept. by rewrite imap_app, filter_app. Qed.

Lemma kept_singleton ticks m :
  truthy m = true → kept ticks [m] = [Provider.normalizeMessage (ticks 0) m].
Proof.
  intros H. unfold kept. simpl. rewrite filter_cons.
  rewrite decide_True by (by rewrite normalizeMessage_truthy_iff). done.
Qed.

Section NormalizerFacts.

Variable Date_parse : string → option Z.

Local Abbreviation normalize_list := (Provider.normalize_list Date_parse).
Local Abbreviation tkey := (time_key Date_parse).
Local Abbreviation byCreatedAt := (Provider.byCreatedAt Date_parse).

Lemma normalize_list_kept ticks l :
  normalize_list ticks l = Array_sort byCreatedAt (kept ticks l).
Proof. reflexivity. Qed.

Lemma normalize_list_perm ticks l : normalize_list ticks l ≡ₚ kept ticks l.
Proof. apply Array_sort_perm. Qed.

Lemma normalizeMessagesArray_returns ticks l :
  Provider.normalizeMessagesArray Date_parse ticks (VArr l)
  = Return (normalize_list ticks l).
Proof. reflexivity. Qed.

Lemma all_dated_keyed l : all_dated Date_parse l → keyed_on byCreatedAt tkey l.
Proof.
  intros Hd x y Hx Hy. unfold all_dated in Hd. rewrite Forall_forall in Hd.
  destruct (Hd x Hx) as [tx Ex], (Hd y Hy) as [ty Ey].
  unfold Provider.byCreatedAt, time_key. by rewrite Ex, Ey.
Qed.

Lemma all_dated_perm l l' : l ≡ₚ l' → all_dated Date_parse l → all_dated Date_parse l'.
Proof. unfold all_dated. by intros ->. Qed.

Lemma key_order_time_order l :
  all_dated Date_parse l →
  StronglySorted (λ a b, tkey a ≤ tkey b)%Z l →
  in_time_order Date_parse l.
Proof.
  intros Hd Hs. induction Hs as [|x l Hs IH Hx]; [constructor|].
  apply Forall_cons in Hd as [[tx Ex] Hd].
  constructor; [by apply IH|].
  unfold all_dated in Hd. rewrite Forall_forall in *.
  intros y Hy. destruct (Hd y Hy) as [ty Ey].
  specialize (Hx y Hy). unfold time_key in Hx. rewrite Ex, Ey in Hx.
  by exists tx, ty.
Qed.

Lemma at_time_key t l :
  all_dated Date_parse l →
  at_time Date_parse t l = filter (λ m, tkey m = t) l.
Proof.
  intros Hd. unfold at_time. induction Hd as [|x l [tx Ex] Hd IH]; [done|].
  rewrite !filter_cons, IH. unfold time_key. rewrite Ex. simpl.
  repeat case_decide; try done; congruence.
Qed.

(** A batch whose records are dated comes out in timestamp order. *)
Lemma normalize_list_in_time_order ticks l :
  all_dated Date_parse (kept ticks l) →
  in_time_order Date_parse (normalize_list ticks l).
Proof.
  intros Hd. apply key_order_time_order.
  - eapply all_dated_perm; [|exact Hd]. by rewrite normalize_list_perm.
  - apply Array_sort_sorted. by apply all_dated_keyed.
Qed.

(** ... and the records of one timestamp keep their input order. *)
Lemma normalize_list_stable ticks l t :
  all_dated Date_parse (kept ticks l) →
  at_time Date_parse t (normalize_list ticks l) = at_time Date_parse t (kept ticks l).
Proof.
  intros Hd. rewrite !at_time_key; [|done|].
  - apply Array_sort_stable. by apply all_dated_keyed.
  - eapply all_dated_perm; [|exact Hd]. by rewrite normalize_list_perm.
Qed.

End NormalizerFacts.

(** ** Normalization is idempotent *)

Lemma assoc_set_same k v f : assoc k (set_field k v f) = Some v.
Proof.
  induction f as [|[k' v'] f IH]; simpl.
  - by rewrite String.eqb_refl.
  - destruct (String.eqb k' k) eqn:E; simpl.
    + by rewrite String.eqb_refl.
    + by rewrite E.
Qed.

Lemma assoc_set_other k k' v f :
  k ≠ k' → assoc k' (set_field k v f) = assoc k' f.
Proof.
  intros Hne. induction f as [|[k0 v0] f IH]; simpl.
  - by rewrite (proj2 (String.eqb_neq k k')).
  - destruct (String.eqb k0 k) eqn:E; simpl.
    + apply String.eqb_eq in E as ->.
      by rewrite (proj2 (String.eqb_neq k k')).
    + by rewrite IH.
Qed.

Lemma set_field_id k v f : assoc k f = Some v → set_field k v f = f.
Proof.
  induction f as [|[k' v'] f IH]; simpl; [done|].
  destruct (String.eqb k' k) eqn:E.
  - apply String.eqb_eq in E as ->. by intros [= ->].
  - intros H. by rewrite IH.
Qed.

Lemma get_VObj k f : get (VObj f) k = default VUndef (assoc k f).
Proof. reflexivity. Qed.

Lemma key_of_index_head i : ∃ c s, key_of_index i = String c s ∧ is_digit c = true.
Proof.
  unfold key_of_index, NilZero.string_of_uint.
  destruct (Nat.to_uint i); simpl; eauto.
Qed.

Lemma key_of_index_not_name i k : is_name k = true → String.eqb (key_of_index i) k = false.
Proof.
  intros Hk. destruct (key_of_index_head i) as (c & s & -> & Hc).
  apply String.eqb_neq. intros <-. simpl in Hk. by rewrite Hc in Hk.
Qed.

Lemma assoc_indexed k (l : list value) (f : nat → string) :
  (∀ i, String.eqb (f i) k = false) →
  assoc k (imap (λ i x, (f i, x)) l) = None.
Proof.
  revert f. induction l as [|x l IH]; intros f Hf; [done|].
  rewrite imap_cons. simpl. rewrite Hf.
  apply (IH (f ∘ S)). intros i. apply Hf.
Qed.

Lemma index_of_key_name k : is_name k = true → k ≠ "" → index_of_key k = None.
Proof.
  intros Hk Hne. unfold index_of_key.
  destruct (NilZero.uint_of_string k) as [d|] eqn:E; [|done].
  by rewrite key_of_index_not_name.
Qed.

(** The properties the normalizer reads are the own properties it copies. *)
Lemma get_own_fields m k :
  is_name k = true → k ≠ "" → k ≠ "length" →
  get m k = default VUndef (assoc k (own_fields m)).
Proof.
  intros Hk Hne Hlen. destruct m as [| | | | s | l | f]; try done; simpl.
  - rewrite (proj2 (String.eqb_neq k "length")) by done.
    rewrite index_of_key_name by done. simpl.
    rewrite assoc_indexed; [done|]. intros. by apply key_of_index_not_name.
  - rewrite (proj2 (String.eqb_neq k "length")) by done.
    rewrite index_of_key_name by done. simpl.
    rewrite assoc_indexed; [done|]. intros. by apply key_of_index_not_name.
Qed.

Lemma or_truthy_l a b : truthy a = true → or_ a b = a.
Proof. unfold or_. by intros ->. Qed.

Lemma or_falsy_l a b : truthy a = false → or_ a b = b.
Proof. unfold or_. by intros ->. Qed.

Lemma or_idem a b : or_ (or_ a b) b = or_ a b.
Proof. unfold or_. destruct (truthy a) eqn:E; [by rewrite E|]. by destruct (truthy b). Qed.

Lemma truthy_or_r a b : truthy b = true → truthy (or_ a b) = true.
Proof. unfold or_. by destruct (truthy a) eqn:E. Qed.

Lemma generated_id_truthy a b : truthy (VStr (a +:+ "-" +:+ b)) = true.
Proof. by destruct a. Qed.

Lemma truthy_VStr s : s ≠ "" → truthy (VStr s) = true.
Proof. intros H. simpl. by rewrite (proj2 (String.eqb_neq s "")). Qed.

Ltac name_side :=
  solve [ reflexivity | discriminate
        | intros E; apply String.eqb_eq in E; discriminate E ].

Lemma normalizeMessage_idem t t' m :
  truthy m = true → now_iso t ≠ "" →
  Provider.normalizeMessage t' (Provider.normalizeMessage t m)
  = Provider.normalizeMessage t m.
Proof.
  intros Hm Hiso. unfold Provider.normalizeMessage at 2 3. rewrite Hm. simpl negb. cbv iota.
  rewrite !(get_own_fields m) by name_side.
  set (F := own_fields m).
  set (c := or_ (or_ (default VUndef (assoc "createdAt" F))
                     (default VUndef (assoc "timestamp" F))) (VStr (now_iso t))).
  set (s := or_ (default VUndef (assoc "senderType" F))
                (default VUndef (assoc "sender" F))).
  set (i := or_ (or_ (default VUndef (assoc "id" F))
                     (default VUndef (assoc "_id" F)))
                (VStr (toString (VNum (now_ms t)) +:+ "-" +:+ random36 t))).
  set (F3 := set_field "createdAt" c (set_field "senderType" s (set_field "id" i F))).
  assert (Hc : assoc "createdAt" F3 = Some c) by apply assoc_set_same.
  assert (Hs : assoc "senderType" F3 = Some s).
  { unfold F3. rewrite assoc_set_other by done. apply assoc_set_same. }
  assert (Hi : assoc "id" F3 = Some i).
  { unfold F3. rewrite !assoc_set_other by done. apply assoc_set_same. }
  assert (Hsender : assoc "sender" F3 = assoc "sender" F).
  { unfold F3. by rewrite !assoc_set_other. }
  assert (Tc : truthy c = true) by (apply truthy_or_r, truthy_VStr, Hiso).
  assert (Ti : truthy i = true) by apply truthy_or_r, generated_id_truthy.
  unfold Provider.normalizeMessage. simpl truthy. simpl negb. cbv iota.
  rewrite !get_VObj, Hc, Hs, Hi, Hsender. simpl default.
  rewrite (or_truthy_l c) by done. rewrite (or_truthy_l c) by done.
  rewrite (or_truthy_l i) by done. rewrite (or_truthy_l i) by done.
  replace (or_ s (default VUndef (assoc "sender" F))) with s by (symmetry; apply or_idem).
  simpl own_fields.
  rewrite (set_field_id "id" i F3) by done.
  rewrite (set_field_id "senderType" s F3) by done.
  by rewrite (set_field_id "createdAt" c F3).
Qed.

(** The three properties the normalizer fills in, by precedence: the newer
    field name, then the legacy one, then a generated default. *)
Lemma normalizeMessage_fields t m :
  truthy m = true →
  let n := Provider.normalizeMessage t m in
  get n "id"
  = or_ (or_ (get m "id") (get m "_id"))
        (VStr (toString (VNum (now_ms t)) +:+ "-" +:+ random36 t))
  ∧ get n "senderType" = or_ (get m "senderType") (get m "sender")
  ∧ get n "createdAt"
    = or_ (or_ (get m "createdAt") (get m "timestamp")) (VStr (now_iso t))
  ∧ truthy (get n "id") = true.
Proof.
  intros Hm n. unfold n, Provider.normalizeMessage. rewrite Hm. simpl negb. cbv iota.
  rewrite !get_VObj.
  rewrite assoc_set_same.
  rewrite (assoc_set_other "createdAt" "senderType") by done.
  rewrite assoc_set_same.
  rewrite (assoc_set_other "createdAt" "id"), (assoc_set_other "senderType" "id") by done.
  rewrite assoc_set_same. simpl default.
  repeat split. apply truthy_or_r, generated_id_truthy.
Qed.

Lemma normalizeMessage_canonical t m :
  truthy m = true → now_iso t ≠ "" → canonical (Provider.normalizeMessage t m).
Proof.
  intros Hm Hiso. split.
  - by rewrite normalizeMessage_truthy_iff.
  - intros t'. by apply normalizeMessage_idem.
Qed.

Lemma kept_canonical_gen (f : nat → tick) l :
  (∀ i, now_iso (f i) ≠ "") → Forall canonical (kept f l).
Proof.
  revert f. induction l as [|x l IH]; intros f Hf; [constructor|].
  unfold kept. rewrite imap_cons, filter_cons.
  case_decide as Hx.
  - constructor.
    + rewrite normalizeMessage_truthy_iff in Hx. by apply normalizeMessage_canonical.
    + apply (IH (f ∘ S)). intros i. apply Hf.
  - apply (IH (f ∘ S)). intros i. apply Hf.
Qed.

Lemma kept_canonical ticks l : iso_clock ticks → Forall canonical (kept ticks l).
Proof. apply kept_canonical_gen. Qed.

(** A batch of canonical messages is only sorted. *)
Lemma kept_of_canonical ticks l : Forall canonical l → kept ticks l = l.
Proof.
  intros H. revert ticks. induction H as [|x l [Hx Hn] Hl IH]; intros ticks; [done|].
  unfold kept. rewrite imap_cons, filter_cons, Hn, decide_True by done.
  f_equal. apply (IH (ticks ∘ S)).
Qed.

Lemma canonical_perm l l' : l ≡ₚ l' → Forall canonical l → Forall canonical l'.
Proof. by intros ->. Qed.


Lemma pending_message_canonical t senderType text :
  now_ms t ≠ 0%Z → now_iso t ≠ "" → senderType ≠ "" →
  canonical (Provider.pending_message t senderType text).
Proof.
  intros Hms Hiso Hst. split; [done|]. intros t'.
  unfold Provider.pending_message, Provider.normalizeMessage. simpl.
  unfold or_. simpl.
  rewrite (proj2 (Z.eqb_neq _ _) Hms).
  rewrite (proj2 (String.eqb_neq _ _) Hst), (proj2 (String.eqb_neq _ _) Hiso).
  simpl. by rewrite (proj2 (Z.eqb_neq _ _) Hms), (proj2 (String.eqb_neq _ _) Hiso).
Qed.

(* ===================================================================== *)
(** ** The normalizer: claims C1 and C7 *)
(* ===================================================================== *)

Ltac by_computation :=
  match goal with
  | |- ?P => apply (@bool_decide_unpack P _); vm_compute; exact I
  end.

(** C1, as stated, fails. Of the three records of this batch the second is
    malformed (its text is empty), so two are not; yet
    [normalizeMessagesArray] returns three messages, the malformed one among
    them, and they are not in ascending timestamp order: the first message
    is stamped 10:00:02, the third 10:00:01. (The timestamp of the malformed
    record is not a date, so it compares as equal to both its neighbours.) *)
Lemma normalizeMessagesArray_keeps_malformed_unsorted :
  let a := VObj [("id", VStr "a"); ("text", VStr "later"); ("createdAt", iso "10:00:02");
                 ("senderType", VUndef)] in
  let b := VObj [("id", VStr "b"); ("text", VStr ""); ("createdAt", VStr "soon");
                 ("senderType", VUndef)] in
  let c := VObj [("id", VStr "c"); ("text", VStr "earlier"); ("createdAt", iso "10:00:01");
                 ("senderType", VUndef)] in
  length (filter (λ m, malformed m = false) batch_with_malformed) = 2
  ∧ Provider.normalizeMessagesArray Iso.Date_parse (λ _, tick0) (VArr batch_with_malformed)
    = Return [a; b; c]
  ∧ msg_time Iso.Date_parse a = Some 1704103202000%Z
  ∧ msg_time Iso.Date_parse c = Some 1704103201000%Z.
Proof. repeat split; reflexivity. Qed.

(** C1, amended. For every input array, [normalizeMessagesArray] returns
    exactly one message per input record that is not absent (falsy),
    whatever its text: the result is a permutation of the normalized
    records. The messages are canonical. When the timestamp of every one
    of them is a date, the result is in ascending timestamp order and the
    records of one timestamp keep their relative input order. *)
Theorem normalizeMessagesArray_sorted_stable
    (Date_parse : string → option Z) (ticks : nat → tick) (arr : list value) :
  ∃ out,
    Provider.normalizeMessagesArray Date_parse ticks (VArr arr) = Return out
    ∧ out ≡ₚ kept ticks arr
    ∧ length out = length (filter (λ m, truthy m = true) arr)
    ∧ (iso_clock ticks → Forall canonical out)
    ∧ (all_dated Date_parse (kept ticks arr) →
       in_time_order Date_parse out
       ∧ ∀ t, at_time Date_parse t out = at_time Date_parse t (kept ticks arr)).
Proof.
  exists (Provider.normalize_list Date_parse ticks arr).
  split; [reflexivity|].
  split; [apply normalize_list_perm|].
  split; [by rewrite normalize_list_perm, kept_length|].
  split.
  - intros Hc. eapply canonical_perm; [|by apply kept_canonical].
    by rewrite normalize_list_perm.
  - intros Hd. split; [by apply normalize_list_in_time_order|].
    intros t. by apply normalize_list_stable.
Qed.

Lemma normalizeMessagesArray_sorted_stable_witness :
  ∃ out,
    Provider.normalizeMessagesArray Iso.Date_parse (λ _, tick0) (VArr mixed_batch)
    = Return out
    ∧ length out = 3
    ∧ in_time_order Iso.Date_parse out
    ∧ at_time Iso.Date_parse 1704103205000 out
      = at_time Iso.Date_parse 1704103205000 (kept (λ _, tick0) mixed_batch).
Proof.
  destruct (normalizeMessagesArray_sorted_stable Iso.Date_parse (λ _, tick0) mixed_batch)
    as (out & Hout & _ & Hlen & _ & Hsorted).
  exists out. split; [exact Hout|]. split; [exact Hlen|].
  assert (Hd : all_dated Iso.Date_parse (kept (λ _, tick0) mixed_batch))
    by (unfold all_dated; by_computation).
  destruct (Hsorted Hd) as [Hs Hst]. split; [exact Hs | apply Hst].
Defined.

(** What the batch of the witness comes out as. *)
Example normalize_mixed_batch :
  Provider.normalize_list Iso.Date_parse (λ _, tick0) mixed_batch
  = [ VObj [("id", VStr "a"); ("text", VStr "first"); ("senderType", VStr "user");
            ("createdAt", iso "10:00:01")];
      VObj [("_id", VStr "b"); ("text", VStr "second"); ("sender", VStr "admin");
            ("timestamp", iso "10:00:05"); ("id", VStr "b");
            ("senderType", VStr "admin"); ("createdAt", iso "10:00:05")];
      VObj [("text", VStr "tie"); ("sender", VStr "user"); ("createdAt", iso "10:00:05");
            ("id", VStr "1704067200000-k3x9q2"); ("senderType", VStr "user")] ].
Proof. reflexivity. Qed.

(** C7, as stated, fails: a record without a text is malformed, but it is
    normalized like any other and stays in the batch. *)
Lemma normalizeMessage_keeps_missing_text :
  malformed no_text_record = true
  ∧ Provider.normalizeMessage tick0 no_text_record
    = VObj [("id", VStr "m1"); ("createdAt", iso "10:00:00"); ("senderType", VUndef)]
  ∧ Provider.normalizeMessagesArray Iso.Date_parse (λ _, tick0) (VArr [no_text_record])
    = Return [VObj [("id", VStr "m1"); ("createdAt", iso "10:00:00");
                    ("senderType", VUndef)]].
Proof. repeat split; reflexivity. Qed.

(** C7, amended. The normalizer never throws on a record: it reads the
    properties of its argument only after it found the argument truthy,
    where a read cannot throw, and the batch operation returns for every
    array of records and for an [undefined] argument (a batch argument that
    is no array has no [map] method, see
    [normalizeMessagesArray_needs_an_array]). The normalizer yields [null]
    exactly for an absent (falsy) input, and such a record is left out of
    the batch. A record with an empty or missing text is normalized like
    any other, with its text as it was, and stays in the batch. *)
Theorem normalizeMessage_null_iff_absent
    (Date_parse : string → option Z) (t : tick) (m : value) :
  (truthy m = false → Provider.normalizeMessage t m = VNull)
  ∧ (truthy m = true →
     (∀ k, prop m k = Return (get m k))
     ∧ ∃ f, Provider.normalizeMessage t m = VObj f
            ∧ get (VObj f) "text" = get m "text")
  ∧ Provider.normalizeMessagesArray Date_parse (λ _, t) VUndef = Return []
  ∧ ∀ ticks arr, ∃ out,
      Provider.normalizeMessagesArray Date_parse ticks (VArr arr) = Return out
      ∧ Forall (λ x, truthy x = true) out
      ∧ length out = length (filter (λ x, truthy x = true) arr).
Proof.
  split; [apply normalizeMessage_falsy|]. split; [|split; [reflexivity|]].
  - intros Hm. split; [intros k; by apply prop_truthy|].
    unfold Provider.normalizeMessage. rewrite Hm. simpl negb. cbv iota.
    eexists. split; [reflexivity|].
    rewrite get_VObj, !assoc_set_other by done.
    by rewrite (get_own_fields m "text").
  - intros ticks arr. exists (Provider.normalize_list Date_parse ticks arr).
    split; [reflexivity|]. split.
    + pose proof (kept_truthy ticks arr) as H.
      by rewrite <- (normalize_list_perm Date_parse ticks arr) in H.
    + by rewrite normalize_list_perm, kept_length.
Qed.

Lemma normalizeMessage_null_iff_absent_witness :
  Provider.normalizeMessage tick0 VNull = VNull
  ∧ ∃ f, Provider.normalizeMessage tick0 no_text_record = VObj f
         ∧ get (VObj f) "text" = VUndef.
Proof.
  destruct (normalizeMessage_null_iff_absent Iso.Date_parse tick0 VNull) as [Hnull _].
  destruct (normalizeMessage_null_iff_absent Iso.Date_parse tick0 no_text_record)
    as (_ & Hobj & _).
  split; [apply Hnull; reflexivity|].
  destruct (Hobj eq_refl) as (_ & f & Hf & Htext).
  exists f. split; [exact Hf | exact Htext].
Defined.

(* ===================================================================== *)
(** ** Local storage *)
(* ===================================================================== *)

Lemma saveMessageLocally_items m cid ls :
  items (saveMessageLocally m cid ls)
  = <[messages_key cid := default [] (items ls !! messages_key cid) ++ [JSON_value m]]>
      (items ls).
Proof. reflexivity. Qed.

Lemma saveMessageLocally_users m cid ls :
  message_users (saveMessageLocally m cid ls) = message_users ls.
Proof. reflexivity. Qed.

Lemma saveUserToMessageList_items user ls :
  items (saveUserToMessageList user ls) = items ls.
Proof. unfold saveUserToMessageList. by destruct (negb _). Qed.

Lemma JSON_value_pending t senderType text :
  JSON_value (Provider.pending_message t senderType (VStr text))
  = Provider.pending_message t senderType (VStr text).
Proof. reflexivity. Qed.

Lemma strip_prefix_app p s : strip_prefix p (p +:+ s) = Some s.
Proof. induction p as [|a p IH]; simpl; [done|]. by rewrite Ascii.eqb_refl. Qed.

Lemma strip_prefix_Some p k s : strip_prefix p k = Some s → k = p +:+ s.
Proof.
  revert k. induction p as [|a p IH]; intros k; simpl; [by intros [= ->]|].
  destruct k as [|b k]; [done|].
  destruct (Ascii.eqb a b) eqn:E; [|done].
  apply Ascii.eqb_eq in E as ->. intros H. by rewrite (IH _ H).
Qed.

Lemma append_inj_l p s1 s2 : p +:+ s1 = p +:+ s2 → s1 = s2.
Proof. induction p as [|a p IH]; simpl; [done|]. intros [= H]. by apply IH. Qed.

(** [getLocalConversations] returns the stored array of every conversation
    as it is, except under the name [__proto__]. *)
Lemma getLocalConversations_lookup ls uid :
  getLocalConversations ls !! uid
  = if String.eqb uid "__proto__" then None
    else items ls !! (messages_prefix +:+ uid).
Proof.
  unfold getLocalConversations.
  apply (map_fold_weak_ind
           (λ (r : gmap string (list value)) (m : gmap string (list value)),
              r !! uid
              = if String.eqb uid "__proto__" then None
                else m !! (messages_prefix +:+ uid))).
  - rewrite !lookup_empty. by destruct (String.eqb uid "__proto__").
  - intros key arr m r Hnone IH.
    destruct (strip_prefix messages_prefix key) as [userId|] eqn:E.
    + apply strip_prefix_Some in E as ->.
      destruct (String.eqb userId "__proto__") eqn:Ep.
      * apply String.eqb_eq in Ep as ->. rewrite IH.
        destruct (String.eqb uid "__proto__") eqn:Eu; [done|].
        rewrite lookup_insert_ne; [done|].
        intros H. apply append_inj_l in H as <-. by rewrite String.eqb_refl in Eu.
      * destruct (decide (userId = uid)) as [->|Hne].
        -- by rewrite Ep, !lookup_insert_eq.
        -- rewrite lookup_insert_ne, IH by done.
           destruct (String.eqb uid "__proto__"); [done|].
           rewrite lookup_insert_ne; [done|].
           intros H. by apply append_inj_l in H.
    + rewrite IH. destruct (String.eqb uid "__proto__"); [done|].
      rewrite lookup_insert_ne; [done|].
      intros ->. by rewrite strip_prefix_app in E.
Qed.

(* ===================================================================== *)
(** ** [sendMessageToUser] without an admin: claim C10 *)
(* ===================================================================== *)

(** C10. When the authenticated user is absent (falsy) or is not an admin,
    [sendMessageToUser] returns at its guard, in the normalizing provider
    and in the summary-based one: it issues no request (the answer of the
    network is never looked at) and leaves the conversations, the
    Known-user list and local storage, indeed the whole state, as they
    were. *)
Theorem sendMessageToUser_guard
    (Date_parse : string → option Z) (ticks : nat → tick)
    (send : value → outcome value) (user userId text : value) (st : State) :
  truthy user = false ∨ truthy (get user "isAdmin") = false →
  Provider.sendMessageToUser Date_parse ticks send user userId text st = Return st
  ∧ Summary.sendMessageToUser (ticks 0) send user userId text st = Return st.
Proof.
  unfold Provider.sendMessageToUser, Summary.sendMessageToUser.
  intros [H|H]; rewrite H; simpl; [done|].
  by rewrite orb_true_r.
Qed.

Lemma sendMessageToUser_guard_witness :
  (Provider.sendMessageToUser Iso.Date_parse (λ _, tick0) network_down
     VNull (VStr "u1") (VStr "hello") empty_state = Return empty_state
   ∧ Summary.sendMessageToUser tick0 network_down
       VNull (VStr "u1") (VStr "hello") empty_state = Return empty_state)
  ∧ (Provider.sendMessageToUser Iso.Date_parse (λ _, tick0) network_down
       plain_user (VStr "u2") (VStr "hello") empty_state = Return empty_state
     ∧ Summary.sendMessageToUser tick0 network_down
         plain_user (VStr "u2") (VStr "hello") empty_state = Return empty_state).
Proof.
  split.
  - apply (sendMessageToUser_guard Iso.Date_parse (λ _, tick0)). left. reflexivity.
  - apply (sendMessageToUser_guard Iso.Date_parse (λ _, tick0)). right. reflexivity.
Defined.

(* ===================================================================== *)
(** ** The [message-received] handler: claims C6 and C4 *)
(* ===================================================================== *)

Lemma strict_eq_refl v : is_primitive v = true → strict_eq v v = true.
Proof.
  destruct v as [| | b | n | s | |]; simpl; try done; intros _.
  - by destruct b.
  - apply Z.eqb_refl.
  - apply String.eqb_refl.
Qed.

Lemma event_sender_not_nullish data :
  truthy (event_sender data) = true → nullish data = false.
Proof. by destruct data. Qed.

(** Reading a conversation: what the spread of [obj[k] || []] gives. *)
Lemma inherited_false k : ¬ inherited_name k → inherited k = false.
Proof.
  intros Hk. destruct (inherited k) eqn:E; [|done].
  apply existsb_exists in E as (x & Hin & Heq).
  apply String.eqb_eq in Heq as <-. destruct Hk. by apply list_elem_of_In.
Qed.

Lemma inherited_true k : inherited_name k → inherited k = true.
Proof.
  intros Hk. apply existsb_exists. exists k.
  split; [by apply list_elem_of_In | apply String.eqb_refl].
Qed.

Lemma inherited_inv k : inherited k = true → inherited_name k.
Proof.
  intros E. apply existsb_exists in E as (x & Hin & Heq).
  apply String.eqb_eq in Heq as <-. by apply list_elem_of_In.
Qed.

Lemma spread_readable c k :
  readable c k → spread (messages_of c k) = Return (conversation_of c k).
Proof.
  unfold readable, messages_of, conversation_of. intros Hr.
  destruct (c !! toString k) as [l|]; [done|].
  by rewrite (inherited_false _ (Hr eq_refl)).
Qed.

Lemma spread_own c k l :
  c !! toString k = Some l → spread (messages_of c k) = Return l.
Proof. unfold messages_of. by intros ->. Qed.

Lemma spread_inherited c k :
  c !! toString k = None → inherited (toString k) = true →
  spread (messages_of c k) = Throw TypeError.
Proof. unfold messages_of. by intros -> ->. Qed.

Lemma spread_cases c k :
  (spread (messages_of c k) = Return (conversation_of c k)
   ∧ (c !! toString k = None → inherited (toString k) = false))
  ∨ (spread (messages_of c k) = Throw TypeError
     ∧ c !! toString k = None ∧ inherited (toString k) = true).
Proof.
  unfold messages_of, conversation_of.
  destruct (c !! toString k) as [l|]; [by left|].
  destruct (inherited (toString k)); [by right | by left].
Qed.

Lemma readable_own c k l : c !! toString k = Some l → readable c k.
Proof. intros H H'. congruence. Qed.

Lemma readable_insert c k l : readable (<[toString k := l]> c) k.
Proof. apply (readable_own _ _ l), lookup_insert_eq. Qed.

Lemma conversation_of_insert c k l : conversation_of (<[toString k := l]> c) k = l.
Proof. unfold conversation_of. by rewrite lookup_insert_eq. Qed.

(** What the handler does for an admin when the payload names a sender
    whose conversation can be read. *)
Lemma handleMessageReceived_unfold Date_parse ticks user data st :
  truthy user = true → truthy (get user "isAdmin") = true →
  truthy (event_sender data) = true →
  readable (conversations st) (event_sender data) →
  let senderId := event_sender data in
  let incoming := Provider.normalizeMessage (ticks 0) (or_ (get data "message") data) in
  let st1 :=
    setConversations
      (<[toString senderId :=
           Provider.normalize_list Date_parse (shift 1 ticks)
             (conversation_of (conversations st) senderId ++ [incoming])]>
         (conversations st)) st in
  Provider.handleMessageReceived Date_parse ticks user data st
  = Return
      (if known senderId (usersWithMessages st) then st1
       else
         setUsersWithMessages
           (KnownUser senderId
              (or_ (or_ (get data "senderName")
                        (and_ (get data "sender") (get (get data "sender") "name")))
                   (VStr "User"))
              (or_ (and_ (get data "sender") (get (get data "sender") "email"))
                   (VStr ""))
            :: usersWithMessages st) st1).
Proof.
  intros Hu Ha Hs Hr. simpl.
  unfold Provider.handleMessageReceived. rewrite Hu, Ha. simpl andb. cbv iota.
  rewrite prop_not_nullish by (by apply event_sender_not_nullish). simpl bind.
  fold (event_sender data). rewrite Hs. simpl negb. cbv iota.
  rewrite spread_readable by done. simpl bind.
  unfold known. simpl usersWithMessages.
  by destruct (existsb _ _).
Qed.

(** For a sender whose name is that of an inherited member and who has no
    conversation, the handler leaves nothing. *)
Lemma handleMessageReceived_throws Date_parse ticks user data st :
  truthy user = true → truthy (get user "isAdmin") = true →
  truthy (event_sender data) = true →
  conversations st !! toString (event_sender data) = None →
  inherited (toString (event_sender data)) = true →
  Provider.handleMessageReceived Date_parse ticks user data st = Throw TypeError.
Proof.
  intros Hu Ha Hs Hn Hi.
  unfold Provider.handleMessageReceived. rewrite Hu, Ha. simpl andb. cbv iota.
  rewrite prop_not_nullish by (by apply event_sender_not_nullish). simpl bind.
  fold (event_sender data). rewrite Hs. simpl negb. cbv iota.
  by rewrite spread_inherited.
Qed.




(** Adding one record to a batch. *)
Lemma kept_snoc ticks l x :
  truthy x = true →
  kept ticks (l ++ [x]) = kept ticks l ++ [Provider.normalizeMessage (ticks (length l)) x].
Proof.
  intros Hx. rewrite kept_app, kept_singleton by done.
  unfold shift. by rewrite Nat.add_0_r.
Qed.

Lemma kept_snoc_canonical ticks l x :
  canonical x → kept ticks (l ++ [x]) = kept ticks l ++ [x].
Proof. intros [Hx Hn]. by rewrite kept_snoc, Hn. Qed.

Lemma event_payload_truthy data :
  truthy (event_sender data) = true → truthy (or_ (get data "message") data) = true.
Proof.
  intros H. apply truthy_or_r.
  destruct data as [| | b | n | s | l | f]; try done.
Qed.

(** C4, as stated, fails: when the same [message-received] event, whose
    message carries the identifier [m1], is delivered twice, the
    conversation holds two records with that identifier. *)
Lemma redelivered_event_is_kept_twice :
  let handle := Provider.handleMessageReceived Iso.Date_parse (λ _, tick0) admin_user in
  let r := VObj [("_id", VStr "m1"); ("text", VStr "Need an oil change");
                 ("senderType", VStr "user"); ("createdAt", iso "10:00:00");
                 ("id", VStr "m1")] in
  (let! st1 := handle event_m1 empty_state in
   let! st2 := handle event_m1 st1 in
   Return (conversations st2 !! "u1"))
  = Return (Some [r; r]).
Proof. vm_compute. reflexivity. Qed.

(** C4, amended. Identifiers are not compared on insert, and nothing is
    replaced: when an admin session receives [message-received] for a
    sender who has a conversation, that conversation becomes the
    (normalized, sorted) previous messages together with the incoming one.
    If the previous messages are canonical, as the normalizer leaves them,
    every one of them is still there, also one that has the identifier of
    the incoming message, and the list is one longer. *)
Theorem handleMessageReceived_keeps_every_record
    (Date_parse : string → option Z) (ticks : nat → tick)
    (user data : value) (st : State) (prev : list value) :
  truthy user = true → truthy (get user "isAdmin") = true →
  truthy (event_sender data) = true → iso_clock ticks →
  let senderId := event_sender data in
  conversations st !! toString senderId = Some prev →
  let incoming := Provider.normalizeMessage (ticks 0) (or_ (get data "message") data) in
  ∃ st' conv',
    Provider.handleMessageReceived Date_parse ticks user data st = Return st'
    ∧ conversations st' !! toString senderId = Some conv'
    ∧ conv' ≡ₚ kept (shift 1 ticks) prev ++ [incoming]
    ∧ (Forall canonical prev →
       conv' ≡ₚ prev ++ [incoming] ∧ length conv' = S (length prev)).
Proof.
  intros Hu Ha Hs Hclock senderId Hprev incoming.
  pose proof (handleMessageReceived_unfold Date_parse ticks user data st Hu Ha Hs
                (readable_own _ _ _ Hprev)) as H.
  cbv zeta in H. unfold conversation_of in H. fold senderId in H.
  rewrite Hprev in H. cbn [default] in H. fold incoming in H.
  assert (Hc : canonical incoming).
  { apply normalizeMessage_canonical; [by apply event_payload_truthy | apply Hclock]. }
  eexists _, _. split; [exact H|]. split.
  { destruct (known senderId (usersWithMessages st)); simpl; apply lookup_insert_eq. }
  assert (Hp : Provider.normalize_list Date_parse (shift 1 ticks) (prev ++ [incoming])
               ≡ₚ kept (shift 1 ticks) prev ++ [incoming]).
  { by rewrite normalize_list_perm, kept_snoc_canonical. }
  split; [exact Hp|].
  intros Hcan. rewrite Hp, kept_of_canonical by done.
  split; [done|]. rewrite length_app. simpl. lia.
Qed.

Lemma handleMessageReceived_keeps_every_record_witness :
  let st1 :=
    setConversations
      {[ "u1" := [VObj [("_id", VStr "m1"); ("text", VStr "Need an oil change");
                        ("senderType", VStr "user"); ("createdAt", iso "10:00:00");
                        ("id", VStr "m1")]] ]} empty_state in
  ∃ st' conv',
    Provider.handleMessageReceived Iso.Date_parse (λ _, tick0) admin_user event_m1 st1
    = Return st'
    ∧ conversations st' !! "u1" = Some conv'
    ∧ length conv' = 2.
Proof.
  intros st1.
  destruct (handleMessageReceived_keeps_every_record Iso.Date_parse (λ _, tick0)
              admin_user event_m1 st1
              [VObj [("_id", VStr "m1"); ("text", VStr "Need an oil change");
                     ("senderType", VStr "user"); ("createdAt", iso "10:00:00");
                     ("id", VStr "m1")]])
    as (st' & conv' & Hrun & Hlook & _ & Hcanon); try reflexivity.
  { intros i. discriminate. }
  exists st', conv'. split; [exact Hrun|]. split; [exact Hlook|].
  apply Hcanon. repeat constructor.
Defined.

(* ===================================================================== *)
(** ** Sending: claims C2 and C3 *)
(* ===================================================================== *)

(** The fall-back of a send files the pending record when the conversation
    can be read, and throws before it writes anything when it cannot. *)
Lemma send_fallback_readable Date_parse ticks senderType cid text st :
  readable (conversations st) cid →
  Provider.send_fallback Date_parse ticks senderType cid text st
  = Return (pending_filed Date_parse ticks senderType cid text st).
Proof.
  intros Hr. unfold Provider.send_fallback. by rewrite spread_readable.
Qed.

Lemma send_fallback_throws Date_parse ticks senderType cid text st :
  conversations st !! toString cid = None → inherited (toString cid) = true →
  Provider.send_fallback Date_parse ticks senderType cid text st = Throw TypeError.
Proof.
  intros Hn Hi. unfold Provider.send_fallback. by rewrite spread_inherited.
Qed.

(** A failed send runs the fall-back on the state as it was. *)
Lemma sendMessage_failure_fallback Date_parse ticks send user text st :
  truthy user = true →
  let isAdmin := truthy (get user "isAdmin") in
  request_failed
    (send (VObj [("text", text); ("recipientId", if isAdmin then VNull else VUndef)]))
  = true →
  Provider.sendMessage Date_parse ticks send user text st
  = (let! st' :=
       Provider.send_fallback Date_parse (shift 1 ticks)
         (if isAdmin then "admin" else "user") (get user "id") text st in
     Return (if isAdmin then st'
             else setLocalStorage (saveUserToMessageList user (localStorage st')) st')).
Proof.
  intros Hu isAdmin Hf. unfold Provider.sendMessage. rewrite Hu. simpl negb. cbv iota.
  fold isAdmin.
  destruct (send _) as [r|e]; simpl in *; [|done].
  unfold prop. destruct (nullish r); simpl in *; [done|].
  by destruct (truthy (get r "success")).
Qed.

Lemma sendMessage_failure_unfold Date_parse ticks send user text st :
  truthy user = true →
  let isAdmin := truthy (get user "isAdmin") in
  request_failed
    (send (VObj [("text", text); ("recipientId", if isAdmin then VNull else VUndef)]))
  = true →
  readable (conversations st) (get user "id") →
  Provider.sendMessage Date_parse ticks send user text st
  = Return
      (let st' :=
         pending_filed Date_parse (shift 1 ticks)
           (if isAdmin then "admin" else "user") (get user "id") text st in
       if isAdmin then st'
       else setLocalStorage (saveUserToMessageList user (localStorage st')) st').
Proof.
  intros Hu isAdmin Hf Hr.
  rewrite sendMessage_failure_fallback by done.
  by rewrite send_fallback_readable.
Qed.




(** The scenario of the specification: user U sends "Need an oil change"
    with no network; a reload, still without network, finds the pending
    record in the conversation of U. *)
Example offline_send_then_reload :
  let offline := Provider.LoadApi (Throw (Rejected VNull)) (λ _, Throw (Rejected VNull))
                   (Throw (Rejected VNull)) in
  (let! st1 := Provider.sendMessage Iso.Date_parse (λ _, tick0) network_down plain_user
                 (VStr "Need an oil change") empty_state in
   let st2 := (Provider.loadMessages Iso.Date_parse (λ _ _, tick0) offline plain_user
                 (setConversations ∅ st1)).1 in
   Return (conversations st2 !! "u1"))
  = Return (Some [VObj [("id", VNum 1704067200000); ("senderType", VStr "user");
                        ("text", VStr "Need an oil change");
                        ("createdAt", VStr "2024-01-01T00:00:00.000Z");
                        ("pending", VBool true)]]).
Proof. vm_compute. reflexivity. Qed.

(** *** The order of two records after a sort *)

Section SortOrder.

Context {A : Type} (cmp : A → A → option Z) (key : A → Z).

Lemma before_split (a b : A) l : before a b l → ∃ l1 l2 l3, l = l1 ++ a :: l2 ++ b :: l3.
Proof.
  induction 1 as [l Hb|x l _ (l1 & l2 & l3 & ->)].
  - apply list_elem_of_split in Hb as (l2 & l3 & ->). by exists [], l2, l3.
  - by exists (x :: l1), l2, l3.
Qed.




End SortOrder.

Lemma truthy_get_not_nullish v k : truthy (get v k) = true → nullish v = false.
Proof. by destruct v. Qed.


Lemma time_le_key Date_parse a b :
  time_le Date_parse a b → (time_key Date_parse a ≤ time_key Date_parse b)%Z.
Proof. intros (x & y & Ex & Ey & H). unfold time_key. by rewrite Ex, Ey. Qed.





(* ===================================================================== *)
(** ** Loading for an admin: claim C5 *)
(* ===================================================================== *)



(** The group of a summary message is the only thing a message changes. *)
Lemma group_message_byUser g m g' key :
  Provider.group_message g m = Return g' →
  default [] (Provider.byUser g' !! key)
  = default [] (Provider.byUser g !! key)
    ++ (if decide (conversation_key m = Some key) then [m] else []).
Proof.
  unfold Provider.group_message, prop, conversation_key.
  destruct (nullish m) eqn:Hn; [done|]. simpl bind.
  set (party := if strict_eq (get m "senderType") (VStr "user")
                then get m "sender" else get m "recipient").
  set (convId := or_ (get m "conversation") (or_ (opt_chain party "_id") party)).
  destruct (truthy convId); simpl.
  - destruct (spread_cases (Provider.byUser g) convId) as [[-> _]|[-> _]]; [|done].
    simpl bind. intros [= <-]. simpl. unfold conversation_of. case_decide as Hk.
    + injection Hk as <-. by rewrite lookup_insert_eq.
    + rewrite lookup_insert_ne by congruence. by rewrite app_nil_r.
  - intros [= <-]. by rewrite app_nil_r.
Qed.

(** [byUser] groups the summary by conversation key, in summary order. *)
Lemma group_messages_byUser msgs g g' key :
  Provider.group_messages g msgs = Return g' →
  default [] (Provider.byUser g' !! key)
  = default [] (Provider.byUser g !! key)
    ++ filter (λ m, conversation_key m = Some key) msgs.
Proof.
  revert g. induction msgs as [|m msgs IH]; intros g; simpl.
  - intros [= <-]. by rewrite app_nil_r.
  - destruct (Provider.group_message g m) as [g1|] eqn:E; [|done]. simpl.
    intros H. rewrite (IH _ H), (group_message_byUser _ _ _ _ E), filter_cons.
    rewrite <- app_assoc. by case_decide.
Qed.

(** The summary is grouped whenever none of its entries is [null] or
    [undefined] and no conversation key is the name of an inherited
    member. *)
Lemma group_messages_returns msgs g :
  Forall (λ m, nullish m = false) msgs →
  Forall (λ m, ∀ k, conversation_key m = Some k → ¬ inherited_name k) msgs →
  ∃ g', Provider.group_messages g msgs = Return g'.
Proof.
  intros H Hk. revert g.
  induction H as [|m msgs Hm _ IH]; intros g; simpl; [eauto|].
  apply Forall_cons in Hk as [Hkm Hk].
  unfold Provider.group_message, prop. rewrite Hm. simpl bind.
  unfold conversation_key in Hkm.
  destruct (truthy _) eqn:Ht; simpl negb; cbv iota; [|by apply IH].
  rewrite spread_readable by (intros _; by apply Hkm). simpl bind. by apply IH.
Qed.

Lemma bind_Return {A B} (o : outcome A) (k : A → outcome B) b :
  bind o k = Return b → ∃ a, o = Return a ∧ k a = Return b.
Proof. destruct o as [a|e]; simpl; [eauto | done]. Qed.

(** No group is empty. *)
Lemma group_message_nonempty g m g' :
  (∀ key l, Provider.byUser g !! key = Some l → l ≠ []) →
  Provider.group_message g m = Return g' →
  ∀ key l, Provider.byUser g' !! key = Some l → l ≠ [].
Proof.
  intros Hg. unfold Provider.group_message, prop.
  destruct (nullish m); [done|]. simpl bind.
  destruct (negb _); [by intros [= <-]|].
  intros H. apply bind_Return in H as (seen & _ & [= <-]). simpl.
  intros key l. rewrite lookup_insert. case_decide.
  - intros [= <-]. by destruct seen.
  - apply Hg.
Qed.

Lemma group_messages_nonempty msgs g g' :
  (∀ key l, Provider.byUser g !! key = Some l → l ≠ []) →
  Provider.group_messages g msgs = Return g' →
  ∀ key l, Provider.byUser g' !! key = Some l → l ≠ [].
Proof.
  revert g. induction msgs as [|m msgs IH]; intros g Hg; simpl.
  - by intros [= <-].
  - intros H. apply bind_Return in H as (g1 & H1 & H).
    eapply IH; [|exact H]. by eapply group_message_nonempty.
Qed.

(** The groups of a summary that starts without groups. *)
Lemma group_messages_groups msgs g :
  Provider.group_messages (Provider.Grouping ∅ []) msgs = Return g →
  ∀ key,
    Provider.byUser g !! key
    = match filter (λ m, conversation_key m = Some key) msgs with
      | [] => None
      | l => Some l
      end.
Proof.
  intros Hg key.
  pose proof (group_messages_byUser _ _ _ key Hg) as Hby. simpl in Hby.
  rewrite lookup_empty in Hby. simpl in Hby.
  destruct (Provider.byUser g !! key) as [l|] eqn:E; simpl in Hby.
  - assert (l ≠ []) as Hne.
    { eapply (group_messages_nonempty msgs (Provider.Grouping ∅ [])); [|exact Hg|exact E].
      intros k l'. simpl. by rewrite lookup_empty. }
    rewrite <- Hby. by destruct l.
  - by rewrite <- Hby.
Qed.

(** A key that names an inherited member stops the grouping. *)
Lemma group_messages_throws pre m post g :
  Forall (λ m, nullish m = false) pre →
  Forall (λ m, ∀ k, conversation_key m = Some k → ¬ inherited_name k) pre →
  nullish m = false →
  (∃ k, conversation_key m = Some k ∧ inherited_name k) →
  (∀ key, inherited_name key → Provider.byUser g !! key = None) →
  Provider.group_messages g (pre ++ m :: post) = Throw TypeError.
Proof.
  intros Hpre Hkeys Hm (k & Hk & Hin). revert g Hkeys.
  induction Hpre as [|x pre Hx _ IH]; intros g Hkeys Hg; simpl.
  - unfold Provider.group_message, prop. rewrite Hm. simpl bind.
    unfold conversation_key in Hk.
    destruct (truthy _) eqn:Ht; [|done]. injection Hk as <-. simpl negb. cbv iota.
    rewrite spread_inherited; [done|by apply Hg|by apply inherited_true].
  - apply Forall_cons in Hkeys as [Hkx Hkeys].
    destruct (Provider.group_message g x) as [g1|e] eqn:E.
    + simpl bind. apply IH; [done|].
      intros key Hkey.
      pose proof (group_message_byUser _ _ _ key E) as Hby.
      rewrite (Hg key Hkey) in Hby. simpl in Hby.
      case_decide as Hc; [by destruct (Hkx key Hc)|].
      destruct (Provider.byUser g1 !! key) as [l|] eqn:El; [|done].
      simpl in Hby. subst l. exfalso.
      unfold Provider.group_message, prop in E. rewrite Hx in E. simpl bind in E.
      destruct (negb _); [injection E as <-; by rewrite (Hg key Hkey) in El|].
      apply bind_Return in E as (seen & _ & [= <-]). simpl in El.
      rewrite lookup_insert in El. case_decide; [|by rewrite (Hg key Hkey) in El].
      injection El as El. by destruct seen.
    + exfalso. unfold Provider.group_message, prop in E. rewrite Hx in E.
      simpl bind in E. unfold conversation_key in Hkx.
      destruct (truthy _) eqn:Ht; simpl negb in E; cbv iota in E; [|done].
      rewrite spread_readable in E by (intros _; by apply Hkx). done.
Qed.








(** The scenario of the specification: two conversations in the summary;
    the fetch of A returns three messages, the fetch of B fails. A holds
    exactly these three, in normalized order; B holds what the summary
    grouping produced. *)
Example load_with_one_failed_fetch :
  let st' := (Provider.loadMessages Iso.Date_parse (λ _ _, tick0) api_B_fails admin_user
                empty_state).1 in
  List.map (λ m, get m "text") <$> conversations st' !! "A"
  = Some [VStr "one"; VStr "two"; VStr "latest of A"]
  ∧ List.map (λ m, get m "text") <$> conversations st' !! "B"
    = Some [VStr "latest of B"]
  ∧ List.map user_name (usersWithMessages st') = [VStr "Ann"; VStr "Bob"].
Proof. vm_compute. repeat split; reflexivity. Qed.

(* ===================================================================== *)
(** ** Timestamp order of a conversation: claim C8 *)
(* ===================================================================== *)

(** Every operation that passes a conversation through the normalizer
    leaves it in timestamp order, when its records are dated: the handler
    of [message-received] ... *)
Lemma handleMessageReceived_in_time_order Date_parse ticks user data st :
  truthy user = true → truthy (get user "isAdmin") = true →
  truthy (event_sender data) = true →
  let senderId := event_sender data in
  readable (conversations st) senderId →
  let batch :=
    conversation_of (conversations st) senderId
    ++ [Provider.normalizeMessage (ticks 0) (or_ (get data "message") data)] in
  all_dated Date_parse (kept (shift 1 ticks) batch) →
  ∃ st' conv',
    Provider.handleMessageReceived Date_parse ticks user data st = Return st'
    ∧ conversations st' !! toString senderId = Some conv'
    ∧ in_time_order Date_parse conv'.
Proof.
  intros Hu Ha Hs senderId Hr batch Hd.
  pose proof (handleMessageReceived_unfold Date_parse ticks user data st Hu Ha Hs Hr) as H.
  cbv zeta in H. eexists _, (Provider.normalize_list Date_parse (shift 1 ticks) batch).
  split; [exact H|]. split.
  - destruct (known _ _); simpl; apply lookup_insert_eq.
  - by apply normalize_list_in_time_order.
Qed.

(** ... and the fall-back of a send. (A successful send and the loads from
    the backend build their lists with [normalize_list] in the same way.) *)
Lemma send_fallback_in_time_order Date_parse ticks senderType cid text st :
  readable (conversations st) cid →
  let batch :=
    conversation_of (conversations st) cid
    ++ [Provider.pending_message (ticks 0) senderType text] in
  all_dated Date_parse (kept (shift 1 ticks) batch) →
  ∃ st' conv',
    Provider.send_fallback Date_parse ticks senderType cid text st = Return st'
    ∧ conversations st' !! toString cid = Some conv'
    ∧ in_time_order Date_parse conv'.
Proof.
  intros Hr batch Hd. rewrite send_fallback_readable by done.
  eexists _, (Provider.normalize_list Date_parse (shift 1 ticks) batch).
  split; [reflexivity|].
  split; [apply lookup_insert_eq | by apply normalize_list_in_time_order].
Qed.

(** So does every path of a non-admin load, its local fall-back included:
    the conversation it sets is a list the normalizer returned. *)
Lemma own_conversation_normalized Date_parse ticks user arr c :
  Provider.own_conversation Date_parse ticks user arr = Return c →
  ∃ l, c = {[ toString (get user "id") := Provider.normalize_list Date_parse ticks l ]}.
Proof.
  unfold Provider.own_conversation, Provider.normalizeMessagesArray.
  destruct (Provider.array_arg arr) as [l|e]; simpl; [|done].
  intros [= <-]. by exists l.
Qed.

Lemma loadMessages_user_normalized Date_parse ticks api user st st' :
  Provider.loadMessages_user Date_parse ticks api user st = Return st'
  ∨ Provider.loadMessages_catch Date_parse ticks user st = Return st'
    ∧ truthy (get user "isAdmin") = false →
  ∃ l, conversations st'
       = {[ toString (get user "id") := Provider.normalize_list Date_parse ticks l ]}.
Proof.
  assert (Hset : ∀ o,
            (let! c := o in Return (setConversations c st)) = Return st' →
            ∃ c, o = Return c ∧ conversations st' = c).
  { intros [c|e]; simpl; [|done]. intros [= <-]. by exists c. }
  assert (Hown : ∀ arr,
            (let! c := Provider.own_conversation Date_parse ticks user arr in
             Return (setConversations c st)) = Return st' →
            ∃ l, conversations st'
                 = {[ toString (get user "id")
                      := Provider.normalize_list Date_parse ticks l ]}).
  { intros arr H. apply Hset in H as (c & Hc & ->).
    by eapply own_conversation_normalized. }
  intros [H|[H Ha]].
  - unfold Provider.loadMessages_user in H.
    destruct (truthy (get user "messages") && gt0 _); [by eapply Hown|].
    destruct (Provider.getMessages api) as [r|e]; [|done].
    cbn [bind] in H. unfold prop in H.
    destruct (nullish r); cbn [bind] in H; [done|].
    destruct (truthy (get r "success")); by eapply Hown.
  - unfold Provider.loadMessages_catch in H. rewrite Ha in H.
    simpl negb in H. simpl andb in H.
    destruct (truthy (get user "messages")); by eapply Hown.
Qed.

(** The fall-back of an admin load hands out the stored arrays as they
    are, without the normalizer. *)
Lemma loadMessages_admin_fallback Date_parse ticks api user st :
  truthy user = true → truthy (get user "isAdmin") = true →
  request_failed (Provider.getAdminAllMessages api) = true →
  let st' := (Provider.loadMessages Date_parse ticks api user st).1 in
  (Provider.loadMessages Date_parse ticks api user st).2 = None
  ∧ ∀ uid, conversations st' !! uid
           = if String.eqb uid "__proto__" then None
             else items (localStorage st) !! (messages_prefix +:+ uid).
Proof.
  intros Hu Ha Hf. unfold Provider.loadMessages. rewrite Hu, Ha. simpl negb. cbv iota zeta.
  unfold Provider.loadMessages_admin.
  destruct (Provider.getAdminAllMessages api) as [r|e]; simpl in Hf |- *.
  - unfold prop. destruct (nullish r); simpl in Hf |- *.
    + split; [done|]. intros uid. apply getLocalConversations_lookup.
    + destruct (truthy (get r "success")); [done|]. simpl.
      split; [done|]. intros uid. apply getLocalConversations_lookup.
  - split; [done|]. intros uid. apply getLocalConversations_lookup.
Qed.

(** C8 fails on the code. An admin sends a message that the backend confirms
    with the server's time 10:00:05, then one that fails while the client's
    clock reads 00:00:00; local storage holds them in the order they were
    saved. A reload while the backend is unreachable puts the stored array
    into the conversation as it is: the later message first. The non-admin
    fall-back of the same function sorts the stored array; the admin
    fall-back does not. *)
Theorem admin_reload_from_local_is_unsorted :
  let pending := Provider.pending_message tick0 "admin" (VStr "Anything else?") in
  let confirmed :=
    VObj [("_id", VStr "m1"); ("text", VStr "Your car is ready");
          ("senderType", VStr "admin"); ("recipient", VStr "u1");
          ("createdAt", iso "10:00:05"); ("id", VStr "m1")] in
  (let! st1 := Provider.sendMessageToUser Iso.Date_parse (λ _, tick0) send_confirms_m1
                 admin_user (VStr "u1") (VStr "Your car is ready") empty_state in
   let! st2 := Provider.sendMessageToUser Iso.Date_parse (λ _, tick0) network_down
                 admin_user (VStr "u1") (VStr "Anything else?") st1 in
   let st3 := (Provider.loadMessages Iso.Date_parse (λ _ _, tick0) offline admin_user st2).1 in
   Return (conversations st2 !! "u1", conversations st3 !! "u1"))
  = Return (Some [pending; confirmed], Some [confirmed; pending])
  ∧ ¬ in_time_order Iso.Date_parse [confirmed; pending].
Proof.
  split; [vm_compute; reflexivity|].
  intros H. inversion H as [|? ? _ Hall]; subst.
  apply Forall_cons in Hall as [(x & y & Ex & Ey & Hle) _].
  vm_compute in Ex, Ey. injection Ex as <-. injection Ey as <-. lia.
Qed.

(** The plain provider has no normalizer: its handler keeps arrival order. *)
Example plain_handler_keeps_arrival_order :
  (let! st1 := Plain.handleMessageReceived admin_user event_m1 empty_state in
   let! st2 := Plain.handleMessageReceived admin_user event_m0 st1 in
   Return (List.map (λ m, get m "createdAt") <$> conversations st2 !! "u1"))
  = Return (Some [iso "10:00:00"; iso "09:59:00"]).
Proof. vm_compute. reflexivity. Qed.

(* ===================================================================== *)
(** ** The summary-based admin load: claim C9 *)
(* ===================================================================== *)

Lemma shape_messages_returns l :
  Forall (λ m, nullish m = false) l → ∃ l', Summary.shape_messages l = Return l'.
Proof.
  induction 1 as [|m l Hm _ [l' IH]]; simpl; [eauto|].
  unfold Summary.shape_message, prop. rewrite Hm. simpl. rewrite IH. simpl. eauto.
Qed.

Lemma fold_result_returns convMap uid res :
  well_formed_detail res →
  ∃ convMap',
    Summary.fold_result convMap uid res = Return convMap'
    ∧ ∀ key, is_Some (convMap' !! key)
             ↔ is_Some (convMap !! key)
               ∨ (toString uid = key ∧ key ≠ "__proto__"
                  ∧ detail_succeeded res = true).
Proof.
  intros Hwf. unfold Summary.fold_result.
  destruct res as [v|e]; simpl.
  2:{ eexists. split; [done|]. intros key. split; [by left | by intros [?|(_ & _ & ?)]]. }
  destruct (truthy (opt_chain v "success")) eqn:Hs.
  2:{ eexists. split; [done|]. intros key. split; [by left | by intros [?|(_ & _ & ?)]]. }
  destruct (Hwf v eq_refl Hs) as (l & -> & Hl). simpl.
  destruct (shape_messages_returns l Hl) as [l' ->]. simpl.
  eexists. split; [done|]. intros key.
  destruct (String.eqb (toString uid) "__proto__") eqn:Ep.
  { apply String.eqb_eq in Ep. split; [by left|].
    intros [?|(Hk & Hne & _)]; [done|]. congruence. }
  apply String.eqb_neq in Ep.
  destruct (decide (toString uid = key)) as [<-|Hne].
  - rewrite lookup_insert_eq. split; [by right | by eauto].
  - rewrite lookup_insert_ne by done. split; [by left | by intros [?|(? & _)]].
Qed.

Lemma fold_results_returns convMap results :
  Forall (λ r, well_formed_detail r.2) results →
  ∃ convMap',
    Summary.fold_results convMap results = Return convMap'
    ∧ ∀ key, is_Some (convMap' !! key)
             ↔ is_Some (convMap !! key)
               ∨ ∃ uid res, (uid, res) ∈ results ∧ toString uid = key
                            ∧ key ≠ "__proto__" ∧ detail_succeeded res = true.
Proof.
  intros H. revert convMap.
  induction H as [|[uid res] results Hwf _ IH]; intros convMap; simpl.
  - eexists. split; [done|]. intros key. split; [by left|].
    intros [?|(? & ? & Hin & _)]; [done|]. by apply elem_of_nil in Hin.
  - destruct (fold_result_returns convMap uid res Hwf) as (m1 & -> & H1). simpl.
    destruct (IH m1) as (m2 & -> & H2).
    eexists. split; [done|]. intros key. rewrite H2, H1. split.
    + intros [[?|(? & ? & ?)]|(u & r & Hin & ? & ? & ?)]; [by left| |].
      * right. exists uid, res. split; [left|done].
      * right. exists u, r. split; [by right|done].
    + intros [?|(u & r & Hin & ? & ? & ?)]; [by do 2 left|].
      apply elem_of_cons in Hin as [[= -> ->]|Hin].
      * left. by right.
      * right. by exists u, r.
Qed.

Lemma fetch_details_requests getMessages l :
  List.map fst (Summary.fetch_details getMessages l) = List.map user_id l.
Proof.
  unfold Summary.fetch_details. revert getMessages.
  induction l as [|u l IH]; intros getMessages; [done|].
  rewrite imap_cons. simpl. f_equal. apply (IH (λ idx, getMessages (S idx))).
Qed.

(** C9, as stated, fails, in two ways.
    - Of two users of the summary the fetch of the first succeeds with a
      well-formed response and the fetch of the second reports success with
      an object where the array of messages should be: the loop over the
      results throws, the outer [catch] shows the local mirror, and the
      first user, who is among the first 20 and whose fetch succeeded, has
      no conversation, while [u1], who is not in the summary, has one.
    - The summary names [u0] a second time in its 23rd entry: the user of
      that entry is beyond the 20th and has a conversation. *)
Lemma summary_load_not_as_claimed :
  (let r := Summary.loadMessages_admin api_malformed_detail state_u1 in
   detail_succeeded (Summary.getMessages api_malformed_detail 0 (VStr "A")) = true
   ∧ List.map user_id (usersWithMessages (Summary.final r)) = [VStr "A"; VStr "B"]
   ∧ conversations (Summary.final r) !! "A" = None
   ∧ conversations (Summary.final r) !! "u1" = Some [early_message])
  ∧ (let r := Summary.loadMessages_admin api_repeated_user empty_state in
     user_id <$> usersWithMessages (Summary.final r) !! 22%nat = Some (VStr "u0")
     ∧ is_Some (conversations (Summary.final r) !! "u0")).
Proof. vm_compute. repeat split; try reflexivity. by eexists. Qed.

(** C9, amended. In the summary-based admin load, when the summary arrives
    and the successful detail responses are well formed (each carries no
    [data] or an array of records), the load runs to its end; detail
    fetches are issued for the first 20 users of the summary list and for
    no others, while the Known-user list holds them all; the conversations
    object has an entry exactly for the keys, other than [__proto__], of
    those of the first 20 users whose fetch succeeded. Hence, the users
    having distinct identifiers, a user beyond the 20th and a user whose
    fetch failed have no conversation in the resulting state. *)
Theorem summary_load_first_20
    (api : Summary.load_api) (response : value) (summaries : list value)
    (usersList : list known_user) (st : State) :
  Summary.getConversations api = Return response →
  truthy (get response "success") = true →
  or_ (get response "data") (VArr []) = VArr summaries →
  Summary.summary_users summaries = Return usersList →
  (∀ idx u, take 20 usersList !! idx = Some u →
            well_formed_detail (Summary.getMessages api idx (user_id u))) →
  let r := Summary.loadMessages_admin api st in
  Summary.fell_back r = false
  ∧ Summary.issued r = List.map user_id (take 20 usersList)
  ∧ usersWithMessages (Summary.final r) = usersList
  ∧ (∀ key,
       is_Some (conversations (Summary.final r) !! key)
       ↔ ∃ idx u, idx < 20 ∧ usersList !! idx = Some u ∧ user_key u = key
                  ∧ key ≠ "__proto__"
                  ∧ detail_succeeded (Summary.getMessages api idx (user_id u)) = true)
  ∧ (NoDup (List.map user_key usersList) →
     ∀ (idx : nat) (u : known_user), usersList !! idx = Some u →
       (20 ≤ idx)%nat ∨ detail_succeeded (Summary.getMessages api idx (user_id u)) = false →
       conversations (Summary.final r) !! user_key u = None).
Proof.
  intros Hresp Hsucc Hdata Husers Hwf r.
  set (results := Summary.fetch_details (Summary.getMessages api) (take 20 usersList)).
  assert (Hall : Forall (λ x, well_formed_detail x.2) results).
  { apply Forall_forall. intros [uid res] Hin.
    apply elem_of_lookup_imap in Hin as (idx & u & [= -> ->] & Hu). by eapply Hwf. }
  destruct (fold_results_returns ∅ results Hall) as (convMap & Hfold & Hdom).
  assert (Hr : r = Summary.AdminLoad
                     (setLoading false
                        (setConversations convMap
                           (setUsersWithMessages usersList (setLoading true st))))
                     (List.map fst results) false).
  { unfold r, Summary.loadMessages_admin. rewrite Hresp. simpl bind.
    rewrite prop_not_nullish by (by eapply truthy_get_not_nullish).
    simpl bind. rewrite Hsucc, Hdata. simpl as_array. simpl bind. rewrite Husers.
    simpl bind. unfold Summary.toFetch. fold results. by rewrite Hfold. }
  assert (Hkeys : ∀ key,
             is_Some (convMap !! key)
             ↔ ∃ idx u, idx < 20 ∧ usersList !! idx = Some u ∧ user_key u = key
                        ∧ key ≠ "__proto__"
                        ∧ detail_succeeded (Summary.getMessages api idx (user_id u)) = true).
  { intros key. rewrite Hdom, lookup_empty. split.
    - intros [[? [=]]|(uid & res & Hin & Hk & Hp & Hs)].
      apply elem_of_lookup_imap in Hin as (idx & u & [= -> ->] & Hu).
      apply lookup_take_Some in Hu as [Hu Hlt]. by exists idx, u.
    - intros (idx & u & Hlt & Hu & Hk & Hp & Hs). right.
      exists (user_id u), (Summary.getMessages api idx (user_id u)).
      split; [|done].
      apply (elem_of_lookup_imap_2
               (λ idx u, (user_id u, Summary.getMessages api idx (user_id u)))).
      by apply lookup_take_Some. }
  rewrite Hr. simpl.
  split; [done|]. split; [apply fetch_details_requests|]. split; [done|].
  split; [exact Hkeys|].
  intros Hnodup idx u Hu Hbad.
  apply eq_None_not_Some. intros Hsome.
  apply Hkeys in Hsome as (idx' & u' & Hlt & Hu' & Hk & _ & Hs).
  assert (idx' = idx) as ->.
  { eapply NoDup_lookup; [exact Hnodup| |].
    - by rewrite list_lookup_fmap, Hu'.
    - rewrite list_lookup_fmap, Hu. simpl. by rewrite Hk. }
  assert (u' = u) as -> by congruence.
  destruct Hbad as [Hge|Hfail]; [lia | congruence].
Qed.

Lemma summary_load_first_20_witness :
  let r := Summary.loadMessages_admin api_second_fails empty_state in
  Summary.fell_back r = false
  ∧ length (Summary.issued r) = 20
  ∧ length (usersWithMessages (Summary.final r)) = 22
  ∧ is_Some (conversations (Summary.final r) !! "u0")
  ∧ conversations (Summary.final r) !! "u1" = None
  ∧ conversations (Summary.final r) !! "u21" = None.
Proof.
  destruct (summary_load_first_20 api_second_fails
              (VObj [("success", VBool true); ("data", VArr many_summaries)])
              many_summaries many_users empty_state)
    as (Hback & Hissued & Husers & Hkeys & Habsent); try reflexivity.
  { intros idx u _ v. simpl.
    destruct (Nat.eqb idx 1); [discriminate|].
    intros [= <-] _. eexists. split; [reflexivity|]. repeat constructor. }
  assert (Hnodup : NoDup (List.map user_key many_users)) by by_computation.
  split; [exact Hback|].
  split; [rewrite Hissued; reflexivity|].
  split; [rewrite Husers; reflexivity|].
  split; [|split].
  - apply Hkeys. exists 0, (KnownUser (VStr "u0") (VStr "User") (VStr "")).
    split; [lia|]. split; [reflexivity|]. split; [reflexivity|].
    split; [discriminate | reflexivity].
  - apply (Habsent Hnodup 1 (KnownUser (VStr "u1") (VStr "User") (VStr "")));
      [reflexivity|]. right. reflexivity.
  - apply (Habsent Hnodup 21 (KnownUser (VStr "u21") (VStr "User") (VStr "")));
      [reflexivity|]. left. lia.
Defined.

(* ===================================================================== *)
(** ** Side remarks *)
(* ===================================================================== *)

(** A record whose timestamp is not a date compares as equal to every
    other record, and the order of the dated records around it is then not
    restored: here the first record is later than the third. *)
Example undated_record_breaks_order :
  List.map (λ m, get m "createdAt")
    (Provider.normalize_list Iso.Date_parse (λ _, tick0)
       [ VObj [("id", VStr "a"); ("text", VStr "x"); ("createdAt", iso "10:00:02")];
         VObj [("id", VStr "b"); ("text", VStr "y"); ("createdAt", VStr "soon")];
         VObj [("id", VStr "c"); ("text", VStr "z"); ("createdAt", iso "10:00:01")] ])
  = [iso "10:00:02"; VStr "soon"; iso "10:00:01"].
Proof. reflexivity. Qed.

(** The batch operation expects an array: its default covers only a
    missing argument. *)
Example normalizeMessagesArray_needs_an_array :
  Provider.normalizeMessagesArray Iso.Date_parse (λ _, tick0) VNull = Throw TypeError
  ∧ Provider.normalizeMessagesArray Iso.Date_parse (λ _, tick0) (VObj []) = Throw TypeError.
Proof. split; reflexivity. Qed.

(* ===================================================================== *)
(** * Further properties of the providers *)
(* ===================================================================== *)

(** ** The normalizer *)

(** X1. Normalizing twice is normalizing once: whatever the later clock
    reads, [normalizeMessage] leaves its own result as it is (an absent
    record stays [null]). The first clock must not have written an empty
    ISO string. *)
Theorem normalizeMessage_idempotent (t t' : tick) (m : value) :
  now_iso t ≠ "" →
  Provider.normalizeMessage t' (Provider.normalizeMessage t m)
  = Provider.normalizeMessage t m.
Proof.
  intros Hiso. destruct (truthy m) eqn:Hm.
  - by apply normalizeMessage_idem.
  - by rewrite (normalizeMessage_falsy t m Hm).
Qed.

Lemma normalizeMessage_idempotent_witness :
  Provider.normalizeMessage (Tick 5 "1970-01-01T00:00:00.005Z" "zz")
    (Provider.normalizeMessage tick0 (VObj [("text", VStr "hi"); ("sender", VStr "user")]))
  = Provider.normalizeMessage tick0 (VObj [("text", VStr "hi"); ("sender", VStr "user")]).
Proof. apply normalizeMessage_idempotent. discriminate. Defined.

(** X2. The normalized copy of a record has a truthy [id]; its [id],
    [senderType] and [createdAt] are chosen by precedence (the newer field
    name, then the legacy one, then a generated default; [senderType] has
    no default); every other property of the record is kept with its
    value. *)
Theorem normalizeMessage_shape (t : tick) (f : list (string * value)) :
  let n := Provider.normalizeMessage t (VObj f) in
  truthy (get n "id") = true
  ∧ get n "id"
    = or_ (or_ (get (VObj f) "id") (get (VObj f) "_id"))
          (VStr (string_of_Z (now_ms t) +:+ "-" +:+ random36 t))
  ∧ get n "senderType" = or_ (get (VObj f) "senderType") (get (VObj f) "sender")
  ∧ get n "createdAt"
    = or_ (or_ (get (VObj f) "createdAt") (get (VObj f) "timestamp")) (VStr (now_iso t))
  ∧ ∀ k, k ≠ "id" → k ≠ "senderType" → k ≠ "createdAt" → get n k = get (VObj f) k.
Proof.
  intros n.
  destruct (normalizeMessage_fields t (VObj f) eq_refl) as (Hid & Hst & Hc & Ht).
  split; [exact Ht|]. split; [exact Hid|]. split; [exact Hst|]. split; [exact Hc|].
  intros k H1 H2 H3. unfold n, Provider.normalizeMessage. simpl truthy. simpl negb.
  cbv iota. simpl own_fields. rewrite !get_VObj.
  by rewrite !assoc_set_other by done.
Qed.

(** ** Batches *)

Lemma elem_of_kept_canonical ticks l x :
  canonical x → x ∈ l → x ∈ kept ticks l.
Proof.
  intros [Hx Hn] Hin. apply list_elem_of_filter. split; [done|].
  apply list_elem_of_lookup in Hin as [i Hi].
  rewrite <- (Hn (ticks i)).
  by apply (elem_of_lookup_imap_2 (λ i m, Provider.normalizeMessage (ticks i) m)).
Qed.

Lemma sort_insert_last {A} (cmp : A → A → option Z) (key : A → Z) y l x :
  keyed_on cmp key (y :: l ++ [x]) → (key y ≤ key x)%Z →
  sort_insert cmp y (l ++ [x]) = sort_insert cmp y l ++ [x].
Proof.
  intros Hk Hyx. induction l as [|z l IH]; simpl.
  - rewrite (sort_before_keyed cmp key y x) by (apply Hk; [left | right; left]).
    by rewrite bool_decide_eq_true_2.
  - destruct (sort_before cmp y z); [done|].
    simpl. f_equal. apply IH. by eapply keyed_on_skip.
Qed.

Lemma Array_sort_last {A} (cmp : A → A → option Z) (key : A → Z) l x :
  keyed_on cmp key (l ++ [x]) → (∀ y, y ∈ l → (key y ≤ key x)%Z) →
  Array_sort cmp (l ++ [x]) = Array_sort cmp l ++ [x].
Proof.
  intros Hk Hle. induction l as [|y l IH]; [done|].
  simpl. fold (Array_sort cmp (l ++ [x])) (Array_sort cmp l).
  rewrite IH.
  - apply (sort_insert_last cmp key); [|apply Hle; left].
    eapply keyed_on_perm; [|exact Hk]. simpl. by rewrite Array_sort_perm.
  - by eapply keyed_on_cons.
  - intros z Hz. apply Hle. by right.
Qed.

Lemma filter_length_le_1 {A} (key : A → Z) (l : list A) k :
  NoDup (List.map key l) → (length (filter (λ a, key a = k) l) ≤ 1)%nat.
Proof.
  induction l as [|x l IH]; simpl; [lia|].
  intros Hnd. apply NoDup_cons in Hnd as [Hx Hnd].
  rewrite filter_cons. case_decide as Hk; [|by apply IH].
  simpl. assert (filter (λ a, key a = k) l = []) as ->; [|simpl; lia].
  destruct (filter _ l) as [|y ?] eqn:E; [done|].
  assert (y ∈ filter (λ a, key a = k) l) as Hy by (rewrite E; left).
  apply list_elem_of_filter in Hy as [Hyk Hy].
  exfalso. apply Hx. rewrite Hk, <- Hyk.
  apply list_elem_of_In, in_map, list_elem_of_In, Hy.
Qed.

Lemma perm_short {A} (l1 l2 : list A) : l1 ≡ₚ l2 → (length l1 ≤ 1)%nat → l1 = l2.
Proof.
  intros Hp Hl. destruct l1 as [|a [|b l1]]; simpl in Hl; [| |lia].
  - by apply Permutation_nil_l in Hp.
  - by apply Permutation_singleton_l in Hp.
Qed.

Section BatchFacts.

Variable Date_parse : string → option Z.

Local Abbreviation normalize_list := (Provider.normalize_list Date_parse).
Local Abbreviation tkey := (time_key Date_parse).
Local Abbreviation byCreatedAt := (Provider.byCreatedAt Date_parse).

Lemma normalize_list_of_canonical ticks l :
  Forall canonical l → normalize_list ticks l = Array_sort byCreatedAt l.
Proof. intros H. by rewrite normalize_list_kept, kept_of_canonical. Qed.

(** X3. Normalizing a batch again changes nothing: when the clock writes
    non-empty ISO strings and the records of the batch are dated, the list
    [normalizeMessagesArray] returns is a fixed point of
    [normalizeMessagesArray], whatever the later clock reads. *)
Theorem normalize_list_idempotent (ticks ticks' : nat → tick) (l : list value) :
  iso_clock ticks → all_dated Date_parse (kept ticks l) →
  Provider.normalizeMessagesArray Date_parse ticks'
    (VArr (Provider.normalize_list Date_parse ticks l))
  = Return (Provider.normalize_list Date_parse ticks l).
Proof.
  intros Hclock Hd. rewrite normalizeMessagesArray_returns. f_equal.
  set (out := normalize_list ticks l).
  assert (Hcan : Forall canonical out).
  { eapply canonical_perm; [|by apply kept_canonical].
    symmetry. apply normalize_list_perm. }
  assert (Hdo : all_dated Date_parse out).
  { eapply all_dated_perm; [|exact Hd]. symmetry. apply normalize_list_perm. }
  rewrite normalize_list_of_canonical by done. symmetry.
  apply (stable_sort_unique byCreatedAt tkey); [by apply all_dated_keyed| |done].
  unfold out. rewrite normalize_list_kept.
  apply Array_sort_sorted. by apply all_dated_keyed.
Qed.

(** X4. The order in which canonical messages arrive does not matter: two
    batches with the same dated messages, no two of them with the same
    timestamp, are normalized to the same list. *)
Theorem normalize_list_order_independent
    (ticks ticks' : nat → tick) (l l' : list value) :
  Forall canonical l → all_dated Date_parse l →
  NoDup (List.map (time_key Date_parse) l) →
  l ≡ₚ l' →
  Provider.normalize_list Date_parse ticks l
  = Provider.normalize_list Date_parse ticks' l'.
Proof.
  intros Hcan Hd Hnd Hp.
  assert (Hcan' : Forall canonical l') by (by eapply canonical_perm).
  assert (Hd' : all_dated Date_parse l') by (by eapply all_dated_perm).
  rewrite !normalize_list_of_canonical by done.
  apply (sorted_by_classes tkey).
  - apply Array_sort_sorted. by apply all_dated_keyed.
  - apply Array_sort_sorted. by apply all_dated_keyed.
  - intros k.
    rewrite !(Array_sort_stable byCreatedAt tkey) by (by apply all_dated_keyed).
    apply perm_short; [by rewrite Hp | by apply filter_length_le_1].
Qed.

(** X5. The newest message goes last: when a canonical message that is not
    older than any message of a canonical, dated conversation is added to
    it, the normalized result is the normalized conversation followed by
    the new message. *)
Theorem normalize_list_newest_last (ticks : nat → tick) (l : list value) (x : value) :
  Forall canonical l → canonical x →
  all_dated Date_parse (l ++ [x]) →
  (∀ m, m ∈ l → time_le Date_parse m x) →
  Provider.normalize_list Date_parse ticks (l ++ [x])
  = Provider.normalize_list Date_parse ticks l ++ [x].
Proof.
  intros Hl Hx Hd Hle.
  rewrite !normalize_list_of_canonical;
    [|done|apply Forall_app; split; [done | by constructor]].
  apply (Array_sort_last byCreatedAt tkey); [by apply all_dated_keyed|].
  intros y Hy. by apply time_le_key, Hle.
Qed.

End BatchFacts.

Lemma early_message_canonical : canonical early_message.
Proof. split; [reflexivity | intros t; reflexivity]. Qed.

Lemma late_message_canonical : canonical late_message.
Proof. split; [reflexivity | intros t; reflexivity]. Qed.

Lemma normalize_list_idempotent_witness :
  Provider.normalizeMessagesArray Iso.Date_parse (λ _, tick1)
    (VArr (Provider.normalize_list Iso.Date_parse (λ _, tick0) mixed_batch))
  = Return (Provider.normalize_list Iso.Date_parse (λ _, tick0) mixed_batch).
Proof.
  apply normalize_list_idempotent.
  - intros i. discriminate.
  - unfold all_dated. by_computation.
Defined.

Lemma normalize_list_order_independent_witness :
  Provider.normalize_list Iso.Date_parse (λ _, tick0) [late_message; early_message]
  = Provider.normalize_list Iso.Date_parse (λ _, tick1) [early_message; late_message].
Proof.
  apply normalize_list_order_independent.
  - repeat constructor; intros t; reflexivity.
  - unfold all_dated. by_computation.
  - by_computation.
  - apply Permutation_swap.
Defined.

Lemma normalize_list_newest_last_witness :
  Provider.normalize_list Iso.Date_parse (λ _, tick0) ([early_message] ++ [late_message])
  = Provider.normalize_list Iso.Date_parse (λ _, tick0) [early_message] ++ [late_message].
Proof.
  apply normalize_list_newest_last.
  - repeat constructor; intros t; reflexivity.
  - split; [reflexivity | intros t; reflexivity].
  - unfold all_dated. by_computation.
  - intros m Hm. apply list_elem_of_singleton in Hm as ->.
    exists 1704103201000%Z, 1704103202000%Z. repeat split; [reflexivity..|lia].
Defined.

(** ** Local storage *)

(** X6. The object [getLocalConversations] returns has, as its own
    properties, for every conversation other than [__proto__] the array
    stored under [autocare_messages_<conversation>], as it is stored, and
    nothing else: an item whose key lacks the prefix (the Known-user list
    among them) gives no property, and neither does an item stored for
    [__proto__]. *)
Theorem getLocalConversations_exact (ls : storage) (uid : string) :
  getLocalConversations ls !! uid
  = if String.eqb uid "__proto__" then None
    else items ls !! ("autocare_messages_" +:+ uid).
Proof. apply getLocalConversations_lookup. Qed.

(** X7. What [saveMessageLocally] saves for a conversation other than
    [__proto__], [getLocalConversations] finds: the conversation read back
    is the conversation read before with the message, as JSON writes it, at
    its end; every other conversation and the stored Known-user list are as
    before. *)
Theorem saveMessageLocally_read_back (message conversationId : value) (ls : storage) :
  toString conversationId ≠ "__proto__" →
  let ls' := saveMessageLocally message conversationId ls in
  getLocalConversations ls' !! toString conversationId
  = Some (default [] (getLocalConversations ls !! toString conversationId)
          ++ [JSON_value message])
  ∧ (∀ uid, uid ≠ toString conversationId →
            getLocalConversations ls' !! uid = getLocalConversations ls !! uid)
  ∧ message_users ls' = message_users ls.
Proof.
  intros Hp ls'. split; [|split; [|done]].
  - rewrite !getLocalConversations_lookup.
    rewrite (proj2 (String.eqb_neq _ _) Hp). unfold ls'.
    rewrite saveMessageLocally_items. unfold messages_key, messages_prefix.
    by rewrite lookup_insert_eq.
  - intros uid Hne. rewrite !getLocalConversations_lookup.
    destruct (String.eqb uid "__proto__"); [done|]. unfold ls'.
    rewrite saveMessageLocally_items. unfold messages_key, messages_prefix.
    rewrite lookup_insert_ne; [done|].
    intros H. by apply append_inj_l in H.
Qed.

Lemma saveMessageLocally_read_back_witness :
  getLocalConversations (saveMessageLocally late_message (VStr "u1") storage_u1) !! "u1"
  = Some [early_message; late_message]
  ∧ getLocalConversations
      (saveMessageLocally late_message (VStr "__proto__") storage_u1) !! "__proto__"
    = None.
Proof.
  destruct (saveMessageLocally_read_back late_message (VStr "u1") storage_u1)
    as (H & _ & _); [discriminate|].
  split; [|reflexivity]. exact H.
Defined.

Lemma JSON_prop_primitive v : is_primitive v = true → JSON_prop v = v.
Proof. by destruct v. Qed.

Lemma known_app sid l1 l2 : known sid (l1 ++ l2) = known sid l1 || known sid l2.
Proof. unfold known. apply existsb_app. Qed.

Lemma saveUserToMessageList_known user ls :
  is_primitive (get user "id") = true →
  known (get user "id") (message_users (saveUserToMessageList user ls)) = true.
Proof.
  intros Hp. unfold saveUserToMessageList. fold (known (get user "id") (message_users ls)).
  destruct (known (get user "id") (message_users ls)) eqn:Hk; simpl; [done|].
  rewrite known_app, Hk. unfold known. simpl.
  by rewrite JSON_prop_primitive, strict_eq_refl.
Qed.

Lemma saveUserToMessageList_unchanged user ls :
  known (get user "id") (message_users ls) = true → saveUserToMessageList user ls = ls.
Proof. unfold saveUserToMessageList, known. by intros ->. Qed.

(** X8. [saveUserToMessageList] keeps the stored Known-user list free of
    repetitions: it never removes or reorders an entry and never touches the
    stored messages; a user who is not in the list (by [===] on [id]) is
    added at its end, with [id], [name] and [email] as JSON writes them; a
    user who is in the list changes nothing. For a user with a primitive
    [id] a second call therefore changes nothing. *)
Theorem saveUserToMessageList_once (user : value) (ls : storage) :
  is_primitive (get user "id") = true →
  let ls' := saveUserToMessageList user ls in
  items ls' = items ls
  ∧ (known (get user "id") (message_users ls) = true → ls' = ls)
  ∧ (known (get user "id") (message_users ls) = false →
     message_users ls'
     = message_users ls
       ++ [KnownUser (get user "id") (JSON_prop (get user "name"))
                     (JSON_prop (get user "email"))])
  ∧ saveUserToMessageList user ls' = ls'.
Proof.
  intros Hp ls'. split; [apply saveUserToMessageList_items|].
  split; [apply saveUserToMessageList_unchanged|]. split.
  - intros Hk. unfold ls', saveUserToMessageList.
    fold (known (get user "id") (message_users ls)). rewrite Hk. simpl.
    by rewrite (JSON_prop_primitive (get user "id")).
  - apply saveUserToMessageList_unchanged. by apply saveUserToMessageList_known.
Qed.

Lemma saveUserToMessageList_once_witness :
  let ls' := saveUserToMessageList plain_user (Storage ∅ []) in
  message_users ls'
  = [KnownUser (VStr "u1") (VStr "Uma") (VStr "uma@example.com")]
  ∧ saveUserToMessageList plain_user ls' = ls'.
Proof.
  destruct (saveUserToMessageList_once plain_user (Storage ∅ []) eq_refl)
    as (_ & _ & Hnew & Hagain).
  split; [exact (Hnew eq_refl) | exact Hagain].
Defined.

(** ** Loading *)

(** X9. The provisional grouping of an admin load. When no entry of the
    summary is [null] or [undefined] and no conversation key is the name of
    a member that objects inherit, the grouping succeeds, and [byUser] holds
    under each conversation key exactly the summary messages of that
    conversation, in summary order: a message without a conversation key is
    in no group, and there is no empty group. The first message whose
    conversation key is such a name stops the grouping with a TypeError. *)
Theorem group_messages_by_conversation (msgs : list value) :
  Forall (λ m, nullish m = false) msgs →
  (Forall (λ m, ∀ k, conversation_key m = Some k → ¬ inherited_name k) msgs →
   ∃ g,
     Provider.group_messages (Provider.Grouping ∅ []) msgs = Return g
     ∧ ∀ key,
         Provider.byUser g !! key
         = match filter (λ m, conversation_key m = Some key) msgs with
           | [] => None
           | l => Some l
           end)
  ∧ (∀ pre m post,
       msgs = pre ++ m :: post →
       Forall (λ m, ∀ k, conversation_key m = Some k → ¬ inherited_name k) pre →
       (∃ k, conversation_key m = Some k ∧ inherited_name k) →
       Provider.group_messages (Provider.Grouping ∅ []) msgs = Throw TypeError).
Proof.
  intros Hmsgs. split.
  - intros Hkeys.
    destruct (group_messages_returns msgs (Provider.Grouping ∅ []) Hmsgs Hkeys)
      as [g Hg].
    exists g. split; [exact Hg|]. by apply group_messages_groups.
  - intros pre m post -> Hpre Hm.
    apply Forall_app in Hmsgs as [Hnpre Hnm]. apply Forall_cons in Hnm as [Hnm _].
    by apply group_messages_throws.
Qed.

Lemma group_messages_by_conversation_witness :
  (∃ g,
     Provider.group_messages (Provider.Grouping ∅ [])
       [summary_A; VObj [("text", VStr "no conversation")]; summary_B] = Return g
     ∧ Provider.byUser g !! "A" = Some [summary_A]
     ∧ Provider.byUser g !! "undefined" = None)
  ∧ Provider.group_messages (Provider.Grouping ∅ []) [summary_A; summary_constructor]
    = Throw TypeError.
Proof.
  split.
  - destruct (group_messages_by_conversation
                [summary_A; VObj [("text", VStr "no conversation")]; summary_B])
      as [H _]; [by repeat constructor|].
    destruct H as (g & Hg & Hby).
    { repeat constructor; intros k [= <-]; unfold inherited_name; by_computation. }
    exists g. split; [exact Hg|]. by rewrite !Hby.
  - destruct (group_messages_by_conversation [summary_A; summary_constructor])
      as [_ H]; [by repeat constructor|].
    apply (H [summary_A] summary_constructor []); [reflexivity| |].
    + repeat constructor. intros k [= <-]. unfold inherited_name. by_computation.
    + exists "constructor". split; [reflexivity|]. unfold inherited_name. by_computation.
Defined.

Lemma loadMessages_admin_returns Date_parse ticks api st :
  ∃ st',
    Provider.loadMessages_admin Date_parse ticks api st = Return st'
    ∧ localStorage st' = localStorage st ∧ loading st' = loading st.
Proof.
  unfold Provider.loadMessages_admin.
  match goal with |- ∃ _, try_catch ?b _ = _ ∧ _ => destruct b as [st'|e] eqn:E end;
    simpl; [|by eexists].
  exists st'. split; [done|].
  apply bind_Return in E as (adminResp & _ & E).
  apply bind_Return in E as (success & _ & E).
  destruct (truthy success); [|by injection E as <-].
  apply bind_Return in E as (msgs & _ & E).
  apply bind_Return in E as (g & _ & E).
  apply bind_Return in E as (entries & _ & E).
  by injection E as <-.
Qed.

Lemma loadMessages_admin_failed Date_parse ticks api st :
  request_failed (Provider.getAdminAllMessages api) = true →
  Provider.loadMessages_admin Date_parse ticks api st
  = Return (Provider.local_fallback true st).
Proof.
  intros Hf. unfold Provider.loadMessages_admin.
  destruct (Provider.getAdminAllMessages api) as [r|e]; simpl in *; [|done].
  unfold prop. destruct (nullish r); simpl in *; [done|].
  by destruct (truthy (get r "success")).
Qed.

(** X10. For an admin, [loadMessages] never rejects, whatever the network
    does and whatever the responses hold; it never writes to local storage
    and leaves [loading] cleared. When the summary request fails (it is
    rejected, or the response is absent or reports no success) the
    conversations are the local mirror and the Known-user list is the
    stored one. *)
Theorem loadMessages_admin_never_rejects
    (Date_parse : string → option Z) (ticks : string → nat → tick)
    (api : Provider.load_api) (user : value) (st : State) :
  truthy user = true → truthy (get user "isAdmin") = true →
  let r := Provider.loadMessages Date_parse ticks api user st in
  r.2 = None
  ∧ loading r.1 = false
  ∧ localStorage r.1 = localStorage st
  ∧ (request_failed (Provider.getAdminAllMessages api) = true →
     conversations r.1 = getLocalConversations (localStorage st)
     ∧ usersWithMessages r.1 = message_users (localStorage st)).
Proof.
  intros Hu Ha r. unfold r, Provider.loadMessages. rewrite Hu, Ha. simpl negb.
  cbv iota zeta.
  destruct (loadMessages_admin_returns Date_parse ticks api (setLoading true st))
    as (st' & Hst' & Hls & _).
  rewrite Hst'. simpl. split; [done|]. split; [done|]. split; [exact Hls|].
  intros Hf. rewrite loadMessages_admin_failed in Hst' by done.
  by injection Hst' as <-.
Qed.

Lemma loadMessages_admin_never_rejects_witness :
  let r := Provider.loadMessages Iso.Date_parse (λ _ _, tick0) api_wrong_shape admin_user
             state_u1 in
  r.2 = None ∧ loading r.1 = false ∧ localStorage r.1 = storage_u1
  ∧ conversations
      (Provider.loadMessages Iso.Date_parse (λ _ _, tick0) api_refuses admin_user state_u1).1
    = getLocalConversations storage_u1.
Proof.
  destruct (loadMessages_admin_never_rejects Iso.Date_parse (λ _ _, tick0) api_wrong_shape
              admin_user state_u1 eq_refl eq_refl) as (H1 & H2 & H3 & _).
  destruct (loadMessages_admin_never_rejects Iso.Date_parse (λ _ _, tick0) api_refuses
              admin_user state_u1 eq_refl eq_refl) as (_ & _ & _ & H4).
  split; [exact H1|]. split; [exact H2|]. split; [exact H3|].
  apply H4. reflexivity.
Defined.

Lemma own_conversation_array Date_parse ticks user l :
  Provider.own_conversation Date_parse ticks user (VArr l)
  = Return {[ toString (get user "id") := Provider.normalize_list Date_parse ticks l ]}.
Proof. reflexivity. Qed.

Lemma loadMessages_catch_user Date_parse ticks user st :
  truthy (get user "isAdmin") = false →
  truthy (get user "messages") = false →
  Provider.loadMessages_catch Date_parse ticks user st
  = Return (setConversations
              {[ toString (get user "id")
                 := Provider.normalize_list Date_parse ticks
                      (default [] (items (localStorage st) !! messages_key (get user "id"))) ]}
              st).
Proof.
  intros Ha Hm. unfold Provider.loadMessages_catch. by rewrite Ha, Hm.
Qed.

Lemma loadMessages_catch_profile Date_parse ticks user st l :
  truthy (get user "isAdmin") = false →
  get user "messages" = VArr l →
  Provider.loadMessages_catch Date_parse ticks user st
  = Return (setConversations
              {[ toString (get user "id")
                 := Provider.normalize_list Date_parse ticks l ]} st).
Proof.
  intros Ha Hm. unfold Provider.loadMessages_catch. by rewrite Ha, Hm.
Qed.

Lemma loadMessages_user_shape Date_parse ticks api user st st' :
  Provider.loadMessages_user Date_parse ticks api user st = Return st' →
  ∃ arr, st' = setConversations
                 {[ toString (get user "id")
                    := Provider.normalize_list Date_parse ticks arr ]} st.
Proof.
  assert (Hown : ∀ arr,
            (let! c := Provider.own_conversation Date_parse ticks user arr in
             Return (setConversations c st)) = Return st' →
            ∃ l, st' = setConversations
                         {[ toString (get user "id")
                            := Provider.normalize_list Date_parse ticks l ]} st).
  { intros arr H. apply bind_Return in H as (c & Hc & [= <-]).
    apply own_conversation_normalized in Hc as [l ->]. by exists l. }
  unfold Provider.loadMessages_user. intros H.
  destruct (truthy (get user "messages") && gt0 _); [by eapply Hown|].
  apply bind_Return in H as (r & _ & H).
  apply bind_Return in H as (success & _ & H).
  destruct (truthy success); by eapply Hown.
Qed.

(** X11. For a user who is not an admin and whose profile carries a
    non-empty [messages] array, [loadMessages] shows exactly that array,
    normalized, as the user's conversation: no request is consulted (the
    result is the same for every network), nothing is read from or written
    to local storage, the Known-user list is kept, and the promise
    resolves. *)
Theorem loadMessages_profile_first
    (Date_parse : string → option Z) (ticks : string → nat → tick)
    (api : Provider.load_api) (user : value) (st : State) (l : list value) :
  truthy user = true → truthy (get user "isAdmin") = false →
  get user "messages" = VArr l → l ≠ [] →
  Provider.loadMessages Date_parse ticks api user st
  = (MkState
       {[ toString (get user "id")
          := Provider.normalize_list Date_parse (ticks (toString (get user "id"))) l ]}
       (usersWithMessages st) false (localStorage st),
     None).
Proof.
  intros Hu Ha Hm Hl. unfold Provider.loadMessages. rewrite Hu, Ha. simpl negb.
  cbv iota zeta. unfold Provider.loadMessages_user. rewrite Hm.
  destruct l as [|m l]; [done|]. reflexivity.
Qed.

Lemma loadMessages_profile_first_witness :
  Provider.loadMessages Iso.Date_parse (λ _ _, tick0) offline user_with_history state_u1
  = (MkState {[ "u1" := [early_message; late_message] ]} [] false storage_u1, None).
Proof.
  rewrite (loadMessages_profile_first Iso.Date_parse (λ _ _, tick0) offline
             user_with_history state_u1 [late_message; early_message]
             eq_refl eq_refl eq_refl);
    [|discriminate].
  reflexivity.
Defined.

(** X12. For a user who is not an admin and whose profile [messages] is
    absent (falsy) or an array, [loadMessages] never rejects, whatever the
    network does and whatever the response holds: it leaves exactly one
    conversation, under the key of [user.id], which is the normalization of
    some array; the Known-user list and local storage are as before and
    [loading] is cleared. *)
Theorem loadMessages_user_never_rejects
    (Date_parse : string → option Z) (ticks : string → nat → tick)
    (api : Provider.load_api) (user : value) (st : State) :
  truthy user = true → truthy (get user "isAdmin") = false →
  truthy (get user "messages") = false ∨ (∃ l, get user "messages" = VArr l) →
  ∃ T arr,
    Provider.loadMessages Date_parse ticks api user st
    = (MkState
         {[ toString (get user "id") := Provider.normalize_list Date_parse T arr ]}
         (usersWithMessages st) false (localStorage st),
       None).
Proof.
  intros Hu Ha Hm. unfold Provider.loadMessages. rewrite Hu, Ha. simpl negb.
  cbv iota zeta.
  destruct (Provider.loadMessages_user Date_parse _ api user (setLoading true st))
    as [st'|e] eqn:E.
  - apply loadMessages_user_shape in E as [arr ->]. simpl. by eexists _, arr.
  - simpl try_catch. destruct Hm as [Hm|[l Hm]].
    + rewrite loadMessages_catch_user by done. simpl. by eexists _, _.
    + rewrite (loadMessages_catch_profile _ _ _ _ l) by done. simpl. by eexists _, _.
Qed.

Lemma loadMessages_user_never_rejects_witness :
  ∃ T arr,
    Provider.loadMessages Iso.Date_parse (λ _ _, tick0) api_wrong_shape plain_user state_u1
    = (MkState {[ toString (get plain_user "id")
                  := Provider.normalize_list Iso.Date_parse T arr ]}
         [] false storage_u1, None).
Proof.
  apply (loadMessages_user_never_rejects Iso.Date_parse (λ _ _, tick0) api_wrong_shape
           plain_user state_u1 eq_refl eq_refl).
  left. reflexivity.
Defined.

(** X13. An empty [messages] array in the profile of a user who is not an
    admin changes what a failed load shows. The array is not used for the
    first attempt (it has no element), so the request is made; when the
    request is rejected, the outer [catch] finds the array truthy and
    shows it: the conversation is empty and the local backup is ignored.
    When the response merely reports no success, the local backup is
    shown. *)
Theorem loadMessages_empty_profile
    (Date_parse : string → option Z) (ticks : string → nat → tick)
    (api : Provider.load_api) (user : value) (st : State) :
  truthy user = true → truthy (get user "isAdmin") = false →
  get user "messages" = VArr [] →
  let key := toString (get user "id") in
  let stored := default [] (items (localStorage st) !! messages_key (get user "id")) in
  (∀ e, Provider.getMessages api = Throw e →
        Provider.loadMessages Date_parse ticks api user st
        = (MkState {[ key := [] ]} (usersWithMessages st) false (localStorage st), None))
  ∧ (∀ r, Provider.getMessages api = Return r → nullish r = false →
          truthy (get r "success") = false →
          Provider.loadMessages Date_parse ticks api user st
          = (MkState {[ key := Provider.normalize_list Date_parse (ticks key) stored ]}
               (usersWithMessages st) false (localStorage st), None)).
Proof.
  intros Hu Ha Hm key stored. split.
  - intros e He. unfold Provider.loadMessages. rewrite Hu, Ha. simpl negb.
    cbv iota zeta. unfold Provider.loadMessages_user. rewrite Hm, He. simpl.
    rewrite (loadMessages_catch_profile _ _ _ _ []) by done. reflexivity.
  - intros r Hr Hn Hs. unfold Provider.loadMessages. rewrite Hu, Ha. simpl negb.
    cbv iota zeta. unfold Provider.loadMessages_user, prop. rewrite Hm, Hr. simpl.
    rewrite Hn. simpl. rewrite Hs. reflexivity.
Qed.

Lemma loadMessages_empty_profile_witness :
  Provider.loadMessages Iso.Date_parse (λ _ _, tick0) offline user_no_history state_u1
  = (MkState {[ "u1" := [] ]} [] false storage_u1, None)
  ∧ Provider.loadMessages Iso.Date_parse (λ _ _, tick0) api_refuses user_no_history state_u1
    = (MkState {[ "u1" := [early_message] ]} [] false storage_u1, None).
Proof.
  destruct (loadMessages_empty_profile Iso.Date_parse (λ _ _, tick0) offline
              user_no_history state_u1 eq_refl eq_refl eq_refl) as [H1 _].
  destruct (loadMessages_empty_profile Iso.Date_parse (λ _ _, tick0) api_refuses
              user_no_history state_u1 eq_refl eq_refl eq_refl) as [_ H2].
  split.
  - exact (H1 _ eq_refl).
  - rewrite (H2 _ eq_refl eq_refl eq_refl). reflexivity.
Defined.

(** X14. A response that reports success but carries something other than
    an array as [data] does not make the load of a user fail: the
    normalizer throws, the outer [catch] takes over, and, the profile
    carrying no messages, the conversation shown is the local backup,
    normalized. *)
Theorem loadMessages_user_wrong_shape
    (Date_parse : string → option Z) (ticks : string → nat → tick)
    (api : Provider.load_api) (user : value) (st : State) (r : value) :
  truthy user = true → truthy (get user "isAdmin") = false →
  truthy (get user "messages") = false →
  Provider.getMessages api = Return r → nullish r = false →
  truthy (get r "success") = true →
  truthy (get r "data") = true → (∀ l, get r "data" ≠ VArr l) →
  let key := toString (get user "id") in
  let stored := default [] (items (localStorage st) !! messages_key (get user "id")) in
  Provider.loadMessages Date_parse ticks api user st
  = (MkState {[ key := Provider.normalize_list Date_parse (shift 1 (ticks key)) stored ]}
       (usersWithMessages st) false (localStorage st), None).
Proof.
  intros Hu Ha Hm Hr Hn Hs Hd Hnarr key stored.
  unfold Provider.loadMessages. rewrite Hu, Ha. simpl negb.
  cbv iota zeta. unfold Provider.loadMessages_user, prop. rewrite Hm, Hr. simpl andb.
  cbv iota. simpl bind. rewrite Hn. simpl bind. rewrite Hs.
  rewrite or_truthy_l by done.
  assert (Provider.own_conversation Date_parse (ticks (toString (get user "id"))) user
            (get r "data") = Throw TypeError) as ->.
  { unfold Provider.own_conversation, Provider.normalizeMessagesArray, Provider.array_arg.
    destruct (get r "data") as [| |b|n|s|l|f]; try done. by destruct (Hnarr l). }
  simpl bind. simpl try_catch.
  rewrite loadMessages_catch_user by done. reflexivity.
Qed.

Lemma loadMessages_user_wrong_shape_witness :
  Provider.loadMessages Iso.Date_parse (λ _ _, tick0) api_wrong_shape
    (VObj [("id", VStr "u1"); ("isAdmin", VBool false)]) state_u1
  = (MkState {[ "u1" := [early_message] ]} [] false storage_u1, None).
Proof.
  rewrite (loadMessages_user_wrong_shape Iso.Date_parse (λ _ _, tick0) api_wrong_shape
             (VObj [("id", VStr "u1"); ("isAdmin", VBool false)]) state_u1
             (VObj [("success", VBool true); ("data", VObj [("messages", VArr [])])])
             eq_refl eq_refl eq_refl eq_refl eq_refl eq_refl eq_refl);
    [reflexivity | discriminate].
Defined.

(** ** Real-time events *)

Lemma and_falsy_l a b : truthy a = false → truthy (and_ a b) = false.
Proof. unfold and_. intros H. by rewrite H. Qed.

(** X15. The handler of [message-received] ignores an event, leaving the
    whole state as it was, when there is no authenticated user, when the
    user is not an admin, and when the payload names no sender (neither a
    truthy [senderId] nor a truthy [sender._id]). *)
Theorem handleMessageReceived_ignores
    (Date_parse : string → option Z) (ticks : nat → tick)
    (user data : value) (st : State) :
  truthy user && truthy (get user "isAdmin") = false
  ∨ (nullish data = false ∧ truthy (event_sender data) = false) →
  Provider.handleMessageReceived Date_parse ticks user data st = Return st.
Proof.
  unfold Provider.handleMessageReceived. intros [H|[Hn Hs]].
  - by rewrite H.
  - destruct (truthy user && truthy (get user "isAdmin")); [|done].
    rewrite prop_not_nullish by done. simpl bind.
    fold (event_sender data). by rewrite Hs.
Qed.

Lemma handleMessageReceived_ignores_witness :
  Provider.handleMessageReceived Iso.Date_parse (λ _, tick0) plain_user event_m1 state_u1
  = Return state_u1
  ∧ Provider.handleMessageReceived Iso.Date_parse (λ _, tick0) admin_user
      (VObj [("text", VStr "anonymous")]) state_u1
    = Return state_u1.
Proof.
  split.
  - apply handleMessageReceived_ignores. left. reflexivity.
  - apply handleMessageReceived_ignores. right. split; reflexivity.
Defined.

(** X16. What one [message-received] event can change. The handler throws
    only a TypeError, and only for an admin: when the payload is [null] or
    [undefined], or when the sender has no conversation and bears the name
    of a member that objects inherit (the updater of the conversations
    throws, and for such a sender it always does). Otherwise the handler never
    touches local storage (an incoming message is not saved) nor
    [loading]; every conversation other than the sender's is as before;
    and the Known-user list is as before or has one new entry, for the
    sender, at its front. *)
Theorem handleMessageReceived_frame
    (Date_parse : string → option Z) (ticks : nat → tick)
    (user data : value) (st : State) :
  match Provider.handleMessageReceived Date_parse ticks user data st with
  | Throw e =>
      e = TypeError
      ∧ truthy user = true ∧ truthy (get user "isAdmin") = true
      ∧ (nullish data = true
         ∨ (truthy (event_sender data) = true
            ∧ conversations st !! toString (event_sender data) = None
            ∧ inherited_name (toString (event_sender data))))
  | Return st' =>
      localStorage st' = localStorage st
      ∧ loading st' = loading st
      ∧ (∀ key, key ≠ toString (event_sender data) →
                conversations st' !! key = conversations st !! key)
      ∧ (usersWithMessages st' = usersWithMessages st
         ∨ ∃ u, user_id u = event_sender data
                ∧ usersWithMessages st' = u :: usersWithMessages st)
  end
  ∧ (truthy user = true → truthy (get user "isAdmin") = true →
     truthy (event_sender data) = true →
     conversations st !! toString (event_sender data) = None →
     inherited_name (toString (event_sender data)) →
     Provider.handleMessageReceived Date_parse ticks user data st = Throw TypeError).
Proof.
  split.
  2:{ intros Hu Ha Hs Hn Hi.
      apply handleMessageReceived_throws; try done. by apply inherited_true. }
  unfold Provider.handleMessageReceived.
  destruct (truthy user) eqn:Hu, (truthy (get user "isAdmin")) eqn:Ha; simpl andb;
    cbv iota; try (by repeat split; eauto).
  unfold prop. destruct (nullish data) eqn:Hn; simpl bind.
  { split; [done|]. split; [done|]. split; [done|]. by left. }
  fold (event_sender data).
  destruct (truthy (event_sender data)) eqn:Hs; simpl negb; cbv iota;
    [|by repeat split; eauto].
  destruct (spread_cases (conversations st) (event_sender data))
    as [[-> _]|(-> & Hnone & Hin)]; simpl bind.
  - destruct (existsb _ _); simpl;
      (split; [done|]; split; [done|]; split;
       [intros key Hk; by rewrite lookup_insert_ne
       |first [by left | right; eexists; split; [|reflexivity]; reflexivity]]).
  - split; [done|]. split; [done|]. split; [done|]. right.
    split; [done|]. split; [done|]. by apply inherited_inv.
Qed.

Lemma handleMessageReceived_frame_witness :
  Provider.handleMessageReceived Iso.Date_parse (λ _, tick0) admin_user
    (VObj [("senderId", VStr "toString"); ("text", VStr "Hello")]) state_u1
  = Throw TypeError.
Proof.
  apply handleMessageReceived_frame; try reflexivity.
  unfold inherited_name. by_computation.
Defined.

Lemma handleMessageReceived_storage Date_parse ticks user data st st' :
  Provider.handleMessageReceived Date_parse ticks user data st = Return st' →
  localStorage st' = localStorage st.
Proof.
  unfold Provider.handleMessageReceived.
  destruct (truthy user && truthy (get user "isAdmin")); [|by intros [= <-]].
  intros H. apply bind_Return in H as (s & _ & H).
  destruct (negb _); [by injection H as <-|].
  apply bind_Return in H as (prev & _ & H).
  destruct (existsb _ _); by injection H as <-.
Qed.

Lemma loadMessages_admin_offline Date_parse ticks api user st :
  truthy user = true → truthy (get user "isAdmin") = true →
  request_failed (Provider.getAdminAllMessages api) = true →
  Provider.loadMessages Date_parse ticks api user st
  = (MkState (getLocalConversations (localStorage st)) (message_users (localStorage st))
       false (localStorage st), None).
Proof.
  intros Hu Ha Hf. unfold Provider.loadMessages. rewrite Hu, Ha. simpl negb.
  cbv iota zeta. by rewrite loadMessages_admin_failed.
Qed.

(** X17. A message received over the socket does not survive a reload
    that cannot reach the backend: the handler shows the message but does
    not save it, so an admin load whose summary request fails afterwards
    leaves the same state as if the event had never arrived. *)
Theorem received_message_lost_on_offline_reload
    (Date_parse : string → option Z) (ticks : nat → tick) (loadTicks : string → nat → tick)
    (api : Provider.load_api) (user data : value) (st st1 : State) :
  truthy user = true → truthy (get user "isAdmin") = true →
  Provider.handleMessageReceived Date_parse ticks user data st = Return st1 →
  request_failed (Provider.getAdminAllMessages api) = true →
  Provider.loadMessages Date_parse loadTicks api user st1
  = Provider.loadMessages Date_parse loadTicks api user st.
Proof.
  intros Hu Ha Hh Hf. rewrite !loadMessages_admin_offline by done.
  by rewrite (handleMessageReceived_storage _ _ _ _ _ _ Hh).
Qed.

Lemma received_message_lost_on_offline_reload_witness :
  ∃ st1,
    Provider.handleMessageReceived Iso.Date_parse (λ _, tick0) admin_user event_m1
      empty_state = Return st1
    ∧ is_Some (conversations st1 !! "u1")
    ∧ Provider.loadMessages Iso.Date_parse (λ _ _, tick0) offline admin_user st1
      = Provider.loadMessages Iso.Date_parse (λ _ _, tick0) offline admin_user empty_state
    ∧ conversations
        (Provider.loadMessages Iso.Date_parse (λ _ _, tick0) offline admin_user st1).1
      !! "u1" = None.
Proof.
  eexists. split; [reflexivity|]. split; [by eexists|].
  split; [|reflexivity].
  apply (received_message_lost_on_offline_reload Iso.Date_parse (λ _, tick0) (λ _ _, tick0)
           offline admin_user event_m1 empty_state); reflexivity.
Defined.

(** ** Sending *)

Lemma request_succeeded (o : outcome value) :
  request_failed o = false →
  ∃ r, o = Return r ∧ nullish r = false ∧ truthy (get r "success") = true.
Proof.
  destruct o as [r|e]; [|done]. unfold request_failed.
  destruct (nullish r) eqn:Hn; [done|].
  destruct (truthy (get r "success")) eqn:Hs; [|done]. intros _. by exists r.
Qed.

(** What a [sendMessage] can leave, and the one way it can throw. *)
Lemma sendMessage_shape Date_parse ticks send user text st :
  truthy user = true →
  match Provider.sendMessage Date_parse ticks send user text st with
  | Return st' =>
      ∃ st0,
        st' = (if truthy (get user "isAdmin") then st0
               else setLocalStorage (saveUserToMessageList user (localStorage st0)) st0)
        ∧ usersWithMessages st0 = usersWithMessages st
        ∧ loading st0 = loading st
        ∧ message_users (localStorage st0) = message_users (localStorage st)
        ∧ (truthy (get user "isAdmin") = false →
           is_Some (conversations st0 !! toString (get user "id")))
        ∧ ∃ cid, ∀ k, k ≠ toString cid → conversations st0 !! k = conversations st !! k
  | Throw e =>
      e = TypeError
      ∧ conversations st !! toString (get user "id") = None
      ∧ inherited (toString (get user "id")) = true
  end.
Proof.
  intros Hu. unfold Provider.sendMessage. rewrite Hu. simpl negb. cbv iota zeta.
  match goal with
  | |- match try_catch ?b _ with _ => _ end => destruct b as [st'|e] eqn:E
  end.
  - apply bind_Return in E as (r & _ & E).
    apply bind_Return in E as (success & _ & E).
    destruct (truthy success); [|done].
    apply bind_Return in E as (cid & Hcid & E).
    apply bind_Return in E as (current & _ & E).
    injection E as <-. simpl try_catch. cbv iota beta.
    eexists. split; [reflexivity|].
    destruct (truthy (get r "autoReply")); simpl;
      (split; [done|]; split; [done|]; split; [done|]; split;
       [intros Ha; rewrite Ha in Hcid; injection Hcid as <-;
        rewrite lookup_insert_eq; by eexists
       |exists cid; intros k Hk; by rewrite lookup_insert_ne]).
  - simpl try_catch. unfold Provider.send_fallback.
    destruct (spread_cases (conversations st) (get user "id"))
      as [[-> _]|(-> & Hn & Hi)]; simpl bind; cbv iota beta; [|done].
    exists (pending_filed Date_parse (shift 1 ticks)
              (if truthy (get user "isAdmin") then "admin" else "user")
              (get user "id") text st).
    split; [reflexivity|]. simpl.
    split; [done|]. split; [done|]. split; [done|]. split.
    + intros _. rewrite lookup_insert_eq. by eexists.
    + exists (get user "id"). intros k Hk. by rewrite lookup_insert_ne.
Qed.

(** X18. [sendMessage] catches every error of the request and of the
    response. Its promise is rejected in one case only, with a TypeError:
    when the conversation of [user.id] cannot be read, because the user
    has no conversation and bears the name of a member that objects
    inherit; then the [catch] block itself throws. For such a user it does
    so whenever the request fails, and, if the user is not an admin,
    whatever the backend answers. A call that returns never changes the
    Known-user list of the state nor [loading], and changes at most one
    conversation. *)
Theorem sendMessage_rejects_only_unreadable
    (Date_parse : string → option Z) (ticks : nat → tick)
    (send : value → outcome value) (user text : value) (st : State) :
  match Provider.sendMessage Date_parse ticks send user text st with
  | Throw e =>
      e = TypeError ∧ truthy user = true
      ∧ conversations st !! toString (get user "id") = None
      ∧ inherited_name (toString (get user "id"))
  | Return st' =>
      usersWithMessages st' = usersWithMessages st
      ∧ loading st' = loading st
      ∧ ∃ cid, ∀ k, k ≠ toString cid → conversations st' !! k = conversations st !! k
  end
  ∧ (truthy user = true →
     conversations st !! toString (get user "id") = None →
     inherited_name (toString (get user "id")) →
     truthy (get user "isAdmin") = false
     ∨ request_failed
         (send (VObj [("text", text);
                      ("recipientId",
                       if truthy (get user "isAdmin") then VNull else VUndef)])) = true →
     Provider.sendMessage Date_parse ticks send user text st = Throw TypeError).
Proof.
  split.
  - destruct (truthy user) eqn:Hu.
    + pose proof (sendMessage_shape Date_parse ticks send user text st Hu) as H.
      destruct (Provider.sendMessage Date_parse ticks send user text st) as [st'|e].
      * destruct H as (st0 & -> & H1 & H2 & _ & _ & H3).
        by destruct (truthy (get user "isAdmin")).
      * destruct H as (-> & Hn & Hi). split; [done|]. split; [done|].
        split; [done|]. by apply inherited_inv.
    + unfold Provider.sendMessage. rewrite Hu. simpl.
      split; [done|]. split; [done|]. by exists VUndef.
  - intros Hu Hn Hi Hcase. pose proof (inherited_true _ Hi) as Hi'.
    destruct (request_failed
                (send (VObj [("text", text);
                             ("recipientId",
                              if truthy (get user "isAdmin") then VNull else VUndef)])))
      eqn:Hf.
    + rewrite sendMessage_failure_fallback by done.
      by rewrite send_fallback_throws.
    + destruct Hcase as [Ha|Hcase]; [|done].
      destruct (request_succeeded _ Hf) as (r & Hreq & Hnr & Hs).
      unfold Provider.sendMessage. rewrite Hu. simpl negb. cbv iota zeta.
      rewrite Hreq. simpl bind. rewrite prop_not_nullish by done. simpl bind.
      rewrite Hs, Ha. simpl bind. rewrite spread_inherited by done. simpl.
      by rewrite send_fallback_throws.
Qed.

Lemma sendMessage_rejects_only_unreadable_witness :
  Provider.sendMessage Iso.Date_parse (λ _, tick0) network_down
    (VObj [("id", VStr "valueOf"); ("isAdmin", VBool true)]) (VStr "Hello") state_u1
  = Throw TypeError
  ∧ Provider.sendMessage Iso.Date_parse (λ _, tick0) (λ _, Return response_with_reply)
      (VObj [("id", VStr "hasOwnProperty"); ("isAdmin", VBool false)]) (VStr "Hello")
      state_u1
    = Throw TypeError.
Proof.
  split.
  - apply sendMessage_rejects_only_unreadable; try reflexivity.
    + unfold inherited_name. by_computation.
    + by right.
  - apply sendMessage_rejects_only_unreadable; try reflexivity.
    + unfold inherited_name. by_computation.
    + by left.
Defined.

(** X19. For an admin, a call of [sendMessageToUser] for a user whose
    conversation can be read (it exists, or [userId] names nothing that
    objects inherit) returns normally and adds exactly one record [m] to
    the conversation of [userId] before it is normalized, and the same
    record, as JSON writes it, at the end of the array stored for that
    conversation: the normalized [data] of a response that reports success,
    and otherwise (rejected request, absent response, no success) the
    pending record with sender type [admin]. The Known-user lists of the
    state and of local storage are not touched. *)
Theorem sendMessageToUser_appends_one
    (Date_parse : string → option Z) (ticks : nat → tick)
    (send : value → outcome value) (user userId text : value) (st : State) :
  truthy user = true → truthy (get user "isAdmin") = true →
  readable (conversations st) userId →
  let request := send (VObj [("text", text); ("recipientId", userId)]) in
  let current := conversation_of (conversations st) userId in
  let stored := stored_under (localStorage st) userId in
  ∃ st' T m,
    Provider.sendMessageToUser Date_parse ticks send user userId text st = Return st'
    ∧ conversations st'
      = <[toString userId := Provider.normalize_list Date_parse T (current ++ [m])]>
          (conversations st)
    ∧ items (localStorage st')
      = <[storage_key userId := stored ++ [JSON_value m]]> (items (localStorage st))
    ∧ message_users (localStorage st') = message_users (localStorage st)
    ∧ usersWithMessages st' = usersWithMessages st
    ∧ (request_failed request = true →
       m = Provider.pending_message (ticks 1) "admin" text)
    ∧ (∀ r, request = Return r → request_failed request = false →
            m = Provider.normalizeMessage (ticks 0) (get r "data")).
Proof.
  intros Hu Ha Hr request current stored.
  unfold Provider.sendMessageToUser. rewrite Hu, Ha. simpl orb. cbv iota.
  fold request. destruct (request_failed request) eqn:Hf.
  - exists (pending_filed Date_parse (shift 1 ticks) "admin" userId text st),
      (shift 2 ticks), (Provider.pending_message (ticks 1) "admin" text).
    split.
    { rewrite <- (send_fallback_readable _ _ _ _ _ _ Hr).
      destruct request as [r|e]; simpl in *; [|done].
      unfold prop. destruct (nullish r); simpl in *; [done|].
      by destruct (truthy (get r "success")). }
    do 4 (split; [done|]). split; [done|]. by intros r _ [=].
  - destruct (request_succeeded _ Hf) as (r & Hreq & Hn & Hs).
    rewrite Hreq. simpl bind. rewrite prop_not_nullish by done. simpl bind. rewrite Hs.
    rewrite spread_readable by done. simpl bind. simpl try_catch.
    eexists _, (shift 1 ticks), (Provider.normalizeMessage (ticks 0) (get r "data")).
    split; [reflexivity|]. simpl.
    do 4 (split; [done|]). split; [done|]. intros r' Hr' _.
    by injection Hr' as <-.
Qed.

Lemma sendMessageToUser_appends_one_witness :
  ∃ st',
    Provider.sendMessageToUser Iso.Date_parse (λ _, tick1) network_down admin_user
      (VStr "u1") (VStr "Your car is ready")
      (MkState {[ "u1" := [early_message] ]} [] false storage_u1) = Return st'
    ∧ conversations st' !! "u1"
      = Some [early_message;
              Provider.pending_message tick1 "admin" (VStr "Your car is ready")]
    ∧ items (localStorage st') !! "autocare_messages_u1"
      = Some [early_message;
              Provider.pending_message tick1 "admin" (VStr "Your car is ready")].
Proof.
  destruct (sendMessageToUser_appends_one Iso.Date_parse (λ _, tick1) network_down
              admin_user (VStr "u1") (VStr "Your car is ready")
              (MkState {[ "u1" := [early_message] ]} [] false storage_u1)
              eq_refl eq_refl)
    as (st' & T & m & Hst' & Hc & Hi & _ & _ & Hm & _); [discriminate|].
  exists st'. split; [exact Hst'|].
  rewrite Hc, Hi, (Hm eq_refl). split; reflexivity.
Defined.

(** X20. In an admin session, [sendMessage] files what it could not
    confirm under the admin's own identifier. When the request fails, and
    also when the response reports success but carries no [data] (the
    normalized record is [null], and reading its [recipient] throws), and
    the conversation of [user.id] can be read (it exists, or [user.id]
    names nothing that objects inherit), the call returns normally and the
    pending record, with sender type [admin], joins the conversation keyed
    by [user.id] and the array stored for it; no recipient's conversation
    changes, and the stored Known-user list is not touched. *)
Theorem sendMessage_admin_failure
    (Date_parse : string → option Z) (ticks : nat → tick)
    (send : value → outcome value) (user text : value) (st : State) :
  truthy user = true → truthy (get user "isAdmin") = true →
  let request := send (VObj [("text", text); ("recipientId", VNull)]) in
  request_failed request = true
  ∨ (∃ r, request = Return r ∧ truthy (get r "success") = true
          ∧ truthy (get r "data") = false) →
  let uid := get user "id" in
  readable (conversations st) uid →
  let pending := Provider.pending_message (ticks 1) "admin" text in
  let current := conversation_of (conversations st) uid in
  let stored := stored_under (localStorage st) uid in
  ∃ st',
    Provider.sendMessage Date_parse ticks send user text st = Return st'
    ∧ conversations st'
      = <[toString uid
          := Provider.normalize_list Date_parse (shift 2 ticks) (current ++ [pending])]>
          (conversations st)
    ∧ items (localStorage st')
      = <[storage_key uid := stored ++ [JSON_value pending]]> (items (localStorage st))
    ∧ message_users (localStorage st') = message_users (localStorage st)
    ∧ usersWithMessages st' = usersWithMessages st.
Proof.
  intros Hu Ha request Hreq uid Hr pending current stored.
  exists (pending_filed Date_parse (shift 1 ticks) "admin" uid text st).
  split; [|by repeat split].
  destruct Hreq as [Hf|(r & Hreq & Hs & Hd)].
  - rewrite sendMessage_failure_unfold by (rewrite ?Ha; done). by rewrite Ha.
  - unfold Provider.sendMessage. rewrite Hu, Ha. simpl negb. cbv iota zeta.
    fold request. rewrite Hreq. simpl bind.
    rewrite prop_not_nullish by (by eapply truthy_get_not_nullish).
    simpl bind. rewrite Hs.
    rewrite (normalizeMessage_falsy _ _ Hd). simpl bind. simpl try_catch.
    by rewrite send_fallback_readable.
Qed.

Lemma sendMessage_admin_failure_witness :
  ∃ st',
    Provider.sendMessage Iso.Date_parse (λ _, tick0)
      (λ _, Return (VObj [("success", VBool true)])) admin_user (VStr "Hello") state_u1
    = Return st'
    ∧ conversations st' !! "admin1"
      = Some [Provider.pending_message tick0 "admin" (VStr "Hello")]
    ∧ conversations st' !! "u1" = None.
Proof.
  destruct (sendMessage_admin_failure Iso.Date_parse (λ _, tick0)
              (λ _, Return (VObj [("success", VBool true)])) admin_user (VStr "Hello")
              state_u1 eq_refl eq_refl)
    as (st' & Hst' & Hc & _).
  - right. eexists. split; [reflexivity|]. split; reflexivity.
  - intros _. unfold inherited_name. by_computation.
  - exists st'. split; [exact Hst'|]. rewrite Hc. split; reflexivity.
Defined.

Lemma sendMessage_user_success_unfold Date_parse ticks send user text st r :
  truthy user = true → truthy (get user "isAdmin") = false →
  send (VObj [("text", text); ("recipientId", VUndef)]) = Return r →
  nullish r = false → truthy (get r "success") = true →
  let cid := get user "id" in
  readable (conversations st) cid →
  let sent := Provider.normalizeMessage (ticks 0) (get r "data") in
  let batch := conversation_of (conversations st) cid ++ [sent] in
  let updated := Provider.normalize_list Date_parse (shift 1 ticks) batch in
  let st1 :=
    setLocalStorage (saveMessageLocally sent cid (localStorage st))
      (setConversations (<[toString cid := updated]> (conversations st)) st) in
  let k := S (length batch) in
  let st2 :=
    if truthy (get r "autoReply") then
      setLocalStorage (saveMessageLocally (get r "autoReply") cid (localStorage st1))
        (setConversations
           (<[toString cid
              := Provider.normalize_list Date_parse (shift (S k) ticks)
                   (updated ++ [Provider.normalizeMessage (ticks k) (get r "autoReply")])]>
              (conversations st)) st1)
    else st1 in
  Provider.sendMessage Date_parse ticks send user text st
  = Return (setLocalStorage (saveUserToMessageList user (localStorage st2)) st2).
Proof.
  intros Hu Ha Hr Hn Hs cid Hread. simpl.
  unfold Provider.sendMessage. rewrite Hu, Ha. simpl negb. cbv iota zeta.
  rewrite Hr. simpl bind. rewrite prop_not_nullish by done. simpl bind. rewrite Hs.
  simpl bind. rewrite spread_readable by done. reflexivity.
Qed.

Lemma kept_snoc_falsy ticks l x :
  truthy x = false → kept ticks (l ++ [x]) = kept ticks l.
Proof.
  intros Hx. rewrite kept_app. unfold kept at 2. simpl.
  rewrite filter_cons, decide_False, filter_nil, app_nil_r; [done|].
  rewrite normalizeMessage_truthy_iff, Hx. done.
Qed.

(** X21. A response that reports success but carries no [data] gives a
    user who is not an admin, and whose conversation can be read, nothing
    to see and a [null] to keep: the call returns normally, the user's
    conversation holds the messages it held (normalized again, no record
    added, no pending record either), and [null] is added at the end of
    the array stored for the conversation. *)
Theorem sendMessage_success_without_data
    (Date_parse : string → option Z) (ticks : nat → tick)
    (send : value → outcome value) (user text r : value) (st : State) :
  truthy user = true → truthy (get user "isAdmin") = false →
  send (VObj [("text", text); ("recipientId", VUndef)]) = Return r →
  truthy (get r "success") = true →
  truthy (get r "data") = false → truthy (get r "autoReply") = false →
  let uid := get user "id" in
  readable (conversations st) uid →
  let current := conversation_of (conversations st) uid in
  let stored := stored_under (localStorage st) uid in
  ∃ st' conv',
    Provider.sendMessage Date_parse ticks send user text st = Return st'
    ∧ conversations st' = <[toString uid := conv']> (conversations st)
    ∧ conv' ≡ₚ kept (shift 1 ticks) current
    ∧ items (localStorage st')
      = <[storage_key uid := stored ++ [VNull]]> (items (localStorage st)).
Proof.
  intros Hu Ha Hr Hs Hd Har uid Hread current stored.
  rewrite (sendMessage_user_success_unfold Date_parse ticks send user text st r)
    by (done || by eapply truthy_get_not_nullish).
  rewrite Har. eexists _, _. split; [reflexivity|].
  cbn [conversations setLocalStorage setConversations localStorage].
  split; [reflexivity|].
  rewrite (normalizeMessage_falsy _ _ Hd). split.
  - rewrite normalize_list_perm. by rewrite kept_snoc_falsy.
  - by rewrite saveUserToMessageList_items, saveMessageLocally_items.
Qed.

Lemma sendMessage_success_without_data_witness :
  ∃ st',
    Provider.sendMessage Iso.Date_parse (λ _, tick0)
      (λ _, Return (VObj [("success", VBool true)])) plain_user (VStr "Hello")
      (MkState {[ "u1" := [early_message] ]} [] false storage_u1)
    = Return st'
    ∧ conversations st' !! "u1" = Some [early_message]
    ∧ items (localStorage st') !! "autocare_messages_u1" = Some [early_message; VNull].
Proof.
  destruct (sendMessage_success_without_data Iso.Date_parse (λ _, tick0)
              (λ _, Return (VObj [("success", VBool true)])) plain_user (VStr "Hello")
              (VObj [("success", VBool true)])
              (MkState {[ "u1" := [early_message] ]} [] false storage_u1)
              eq_refl eq_refl eq_refl eq_refl eq_refl eq_refl)
    as (st' & conv' & Hst' & Hc & Hp & Hi); [discriminate|].
  exists st'. split; [exact Hst'|]. rewrite Hc, Hi. split; [|reflexivity].
  rewrite lookup_insert_eq. f_equal.
  apply Permutation_singleton_r. exact Hp.
Defined.

Lemma saveUserToMessageList_users_congr user ls1 ls2 :
  message_users ls1 = message_users ls2 →
  message_users (saveUserToMessageList user ls1)
  = message_users (saveUserToMessageList user ls2).
Proof.
  intros H. unfold saveUserToMessageList. rewrite H.
  destruct (negb _); simpl; by rewrite ?H.
Qed.

(** A [sendMessage] of a user who is not an admin returns when the user's
    conversation can be read, and then the conversation exists. *)
Lemma sendMessage_user_returns Date_parse ticks send user text st :
  truthy user = true → truthy (get user "isAdmin") = false →
  readable (conversations st) (get user "id") →
  ∃ st0,
    Provider.sendMessage Date_parse ticks send user text st
    = Return (setLocalStorage (saveUserToMessageList user (localStorage st0)) st0)
    ∧ message_users (localStorage st0) = message_users (localStorage st)
    ∧ is_Some (conversations st0 !! toString (get user "id")).
Proof.
  intros Hu Ha Hr.
  pose proof (sendMessage_shape Date_parse ticks send user text st Hu) as H.
  destruct (Provider.sendMessage Date_parse ticks send user text st) as [st'|e].
  - destruct H as (st0 & -> & _ & _ & Hm & Hown & _). rewrite Ha.
    exists st0. split; [done|]. split; [done|]. by apply Hown.
  - destruct H as (_ & Hn & Hi). destruct (Hr Hn). by apply inherited_inv.
Qed.

(** X22. Sending registers a user who is not an admin, and whose
    conversation can be read, in the stored Known-user list exactly once.
    Whatever the backend answers, after the first [sendMessage] the stored
    list is what [saveUserToMessageList] makes of the list that was stored,
    so the user is in it, and a second [sendMessage] leaves the stored list
    as the first left it. (The user is named by a primitive identifier.) *)
Theorem sendMessage_registers_user_once
    (Date_parse : string → option Z) (ticks1 ticks2 : nat → tick)
    (send1 send2 : value → outcome value) (user text1 text2 : value) (st : State) :
  truthy user = true → truthy (get user "isAdmin") = false →
  is_primitive (get user "id") = true →
  readable (conversations st) (get user "id") →
  ∃ st1 st2,
    Provider.sendMessage Date_parse ticks1 send1 user text1 st = Return st1
    ∧ Provider.sendMessage Date_parse ticks2 send2 user text2 st1 = Return st2
    ∧ message_users (localStorage st1)
      = message_users (saveUserToMessageList user (localStorage st))
    ∧ known (get user "id") (message_users (localStorage st1)) = true
    ∧ message_users (localStorage st2) = message_users (localStorage st1).
Proof.
  intros Hu Ha Hp Hr.
  destruct (sendMessage_user_returns Date_parse ticks1 send1 user text1 st Hu Ha Hr)
    as (st0 & H1 & Hm0 & [l Hown]).
  set (st1 := setLocalStorage (saveUserToMessageList user (localStorage st0)) st0) in *.
  assert (Hr1 : readable (conversations st1) (get user "id"))
    by (by apply (readable_own _ _ l)).
  destruct (sendMessage_user_returns Date_parse ticks2 send2 user text2 st1 Hu Ha Hr1)
    as (st0' & H2 & Hm0' & _).
  exists st1, (setLocalStorage (saveUserToMessageList user (localStorage st0')) st0').
  split; [exact H1|]. split; [exact H2|].
  assert (Hk : known (get user "id") (message_users (localStorage st1)) = true)
    by (by apply saveUserToMessageList_known).
  split; [by apply saveUserToMessageList_users_congr|]. split; [exact Hk|].
  cbn [localStorage setLocalStorage].
  rewrite (saveUserToMessageList_users_congr user _ (localStorage st1) Hm0').
  by rewrite saveUserToMessageList_unchanged.
Qed.

Lemma sendMessage_registers_user_once_witness :
  ∃ st1 st2,
    Provider.sendMessage Iso.Date_parse (λ _, tick0) network_down plain_user
      (VStr "Hello") state_u1 = Return st1
    ∧ Provider.sendMessage Iso.Date_parse (λ _, tick1) network_down plain_user
        (VStr "Anyone there?") st1 = Return st2
    ∧ message_users (localStorage st2)
      = [KnownUser (VStr "u1") (VStr "Uma") (VStr "uma@example.com")].
Proof.
  destruct (sendMessage_registers_user_once Iso.Date_parse (λ _, tick0) (λ _, tick1)
              network_down network_down plain_user (VStr "Hello") (VStr "Anyone there?")
              state_u1 eq_refl eq_refl eq_refl)
    as (st1 & st2 & H1 & H2 & Hm & _ & Hm2).
  { intros _. unfold inherited_name. by_computation. }
  exists st1, st2. split; [exact H1|]. split; [exact H2|].
  rewrite Hm2, Hm. reflexivity.
Defined.

Lemma elem_of_normalize_list_canonical Date_parse ticks l x :
  canonical x → x ∈ l → x ∈ Provider.normalize_list Date_parse ticks l.
Proof.
  intros Hx Hin. rewrite normalize_list_perm. by apply elem_of_kept_canonical.
Qed.

Lemma conversation_of_own c k l : c !! toString k = Some l → conversation_of c k = l.
Proof. unfold conversation_of. by intros ->. Qed.

(** A [sendMessage] of a user who is not an admin removes no canonical
    message from the user's conversation. *)
Lemma sendMessage_user_keeps Date_parse ticks send user text st l x :
  truthy user = true → truthy (get user "isAdmin") = false →
  conversations st !! toString (get user "id") = Some l →
  canonical x → x ∈ l →
  ∃ st' l',
    Provider.sendMessage Date_parse ticks send user text st = Return st'
    ∧ conversations st' !! toString (get user "id") = Some l'
    ∧ x ∈ l'.
Proof.
  intros Hu Ha Hl Hx Hin.
  assert (Hr : readable (conversations st) (get user "id")) by (by eapply readable_own).
  destruct (request_failed (send (VObj [("text", text); ("recipientId", VUndef)])))
    eqn:Hf.
  - rewrite sendMessage_failure_unfold by (rewrite ?Ha; done). rewrite Ha.
    eexists _, _. split; [reflexivity|].
    cbn [conversations setLocalStorage setConversations pending_filed].
    split; [apply lookup_insert_eq|].
    rewrite (conversation_of_own _ _ _ Hl).
    apply elem_of_normalize_list_canonical; [done|]. apply elem_of_app. by left.
  - destruct (request_succeeded _ Hf) as (r & Hreq & Hn & Hs).
    rewrite (sendMessage_user_success_unfold Date_parse ticks send user text st r)
      by done.
    rewrite (conversation_of_own _ _ _ Hl).
    assert (Hup : x ∈ Provider.normalize_list Date_parse (shift 1 ticks)
                    (l ++ [Provider.normalizeMessage (ticks 0) (get r "data")])).
    { apply elem_of_normalize_list_canonical; [done|]. apply elem_of_app. by left. }
    destruct (truthy (get r "autoReply"));
      (eexists _, _; split; [reflexivity|];
       cbn [conversations setLocalStorage setConversations];
       split; [apply lookup_insert_eq|]); [|exact Hup].
    apply elem_of_normalize_list_canonical; [done|]. apply elem_of_app. by left.
Qed.

(** X23. A pending record is never confirmed or cleared by a later send.
    When a [sendMessage] of a user who is not an admin, and whose
    conversation can be read, fails, the pending record it leaves in the
    user's conversation is still there after the next [sendMessage],
    whatever the backend answers to it: also when the same text is then
    sent and confirmed, the conversation keeps the pending record beside
    the confirmed one. *)
Theorem pending_survives_later_send
    (Date_parse : string → option Z) (ticks1 ticks2 : nat → tick)
    (send1 send2 : value → outcome value) (user text1 text2 : value) (st : State) :
  truthy user = true → truthy (get user "isAdmin") = false →
  request_failed (send1 (VObj [("text", text1); ("recipientId", VUndef)])) = true →
  now_ms (ticks1 1) ≠ 0%Z → now_iso (ticks1 1) ≠ "" →
  readable (conversations st) (get user "id") →
  let pending := Provider.pending_message (ticks1 1) "user" text1 in
  ∃ st1 st2 conv1 conv2,
    Provider.sendMessage Date_parse ticks1 send1 user text1 st = Return st1
    ∧ Provider.sendMessage Date_parse ticks2 send2 user text2 st1 = Return st2
    ∧ conversations st1 !! toString (get user "id") = Some conv1
    ∧ pending ∈ conv1
    ∧ conversations st2 !! toString (get user "id") = Some conv2
    ∧ pending ∈ conv2.
Proof.
  intros Hu Ha Hf Hms Hiso Hr pending.
  assert (Hp : canonical pending) by (by apply pending_message_canonical).
  pose proof (sendMessage_failure_unfold Date_parse ticks1 send1 user text1 st Hu) as H1.
  rewrite Ha in H1. specialize (H1 Hf Hr). cbv zeta in H1.
  set (st1 := setLocalStorage _ _) in H1.
  set (conv1 := Provider.normalize_list Date_parse (shift 1 (shift 1 ticks1))
                  (conversation_of (conversations st) (get user "id") ++ [pending])).
  assert (Hc1 : conversations st1 !! toString (get user "id") = Some conv1).
  { unfold st1. cbn [conversations setLocalStorage setConversations pending_filed].
    apply lookup_insert_eq. }
  assert (Hin : pending ∈ conv1).
  { apply elem_of_normalize_list_canonical; [done|].
    apply elem_of_app. right. by left. }
  destruct (sendMessage_user_keeps Date_parse ticks2 send2 user text2 st1 conv1 pending
              Hu Ha Hc1 Hp Hin) as (st2 & conv2 & H2 & Hc2 & Hin2).
  by exists st1, st2, conv1, conv2.
Qed.

Lemma pending_survives_later_send_witness :
  ∃ st1 st2 conv2,
    Provider.sendMessage Iso.Date_parse (λ _, tick0) network_down plain_user
      (VStr "Need an oil change") empty_state = Return st1
    ∧ Provider.sendMessage Iso.Date_parse (λ _, tick1) send_confirms_m1 plain_user
        (VStr "Need an oil change") st1 = Return st2
    ∧ conversations st2 !! "u1" = Some conv2
    ∧ Provider.pending_message tick0 "user" (VStr "Need an oil change") ∈ conv2
    ∧ length conv2 = 2%nat.
Proof.
  destruct (pending_survives_later_send Iso.Date_parse (λ _, tick0) (λ _, tick1)
              network_down send_confirms_m1 plain_user (VStr "Need an oil change")
              (VStr "Need an oil change") empty_state eq_refl eq_refl eq_refl)
    as (st1 & st2 & conv1 & conv2 & H1 & H2 & _ & _ & Hc2 & Hin); [done|done| |].
  { intros _. unfold inherited_name. by_computation. }
  exists st1, st2, conv2. split; [exact H1|]. split; [exact H2|].
  split; [exact Hc2|]. split; [exact Hin|].
  vm_compute in H1. injection H1 as <-. vm_compute in H2. injection H2 as <-.
  vm_compute in Hc2. injection Hc2 as <-. reflexivity.
Defined.

Lemma context_messages_user user st :
  truthy user = true → truthy (get user "isAdmin") = false →
  Provider.context_messages user st = messages_of (conversations st) (get user "id").
Proof. intros Hu Ha. unfold Provider.context_messages. by rewrite Hu, Ha. Qed.

Lemma loadMessages_user_failed Date_parse ticks api user st :
  truthy user = true → truthy (get user "isAdmin") = false →
  truthy (get user "messages") = false →
  request_failed (Provider.getMessages api) = true →
  ∃ T,
    Provider.loadMessages Date_parse ticks api user st
    = (MkState
         {[ toString (get user "id")
            := Provider.normalize_list Date_parse T
                 (default [] (items (localStorage st) !! messages_key (get user "id"))) ]}
         (usersWithMessages st) false (localStorage st),
       None).
Proof.
  intros Hu Ha Hm Hf. unfold Provider.loadMessages. rewrite Hu, Ha. simpl negb.
  cbv iota zeta. unfold Provider.loadMessages_user, prop. rewrite Hm. simpl andb.
  cbv iota. destruct (Provider.getMessages api) as [r|e]; simpl in Hf.
  - simpl bind. destruct (nullish r).
    + simpl. rewrite loadMessages_catch_user by done. by eexists.
    + simpl in Hf. simpl bind.
      destruct (truthy (get r "success")); [done|]. by eexists.
  - simpl. rewrite loadMessages_catch_user by done. by eexists.
Qed.

(** X24. What a user sends while the backend cannot be reached is found
    again by a load that cannot reach it either. After a failed
    [sendMessage] of a user who is not an admin, whose conversation can be
    read and whose profile carries no messages, a [loadMessages] whose
    request fails resolves and shows one conversation, the user's: the
    normalization of the array that was stored for it with the pending
    record added at its end. This is what the context gives as [messages],
    and the pending record is in it. *)
Theorem offline_send_found_by_offline_load
    (Date_parse : string → option Z) (ticks : nat → tick) (loadTicks : string → nat → tick)
    (send : value → outcome value) (api : Provider.load_api)
    (user : value) (text : string) (st : State) :
  truthy user = true → truthy (get user "isAdmin") = false →
  truthy (get user "messages") = false →
  request_failed (send (VObj [("text", VStr text); ("recipientId", VUndef)])) = true →
  request_failed (Provider.getMessages api) = true →
  now_ms (ticks 1) ≠ 0%Z → now_iso (ticks 1) ≠ "" →
  let uid := get user "id" in
  readable (conversations st) uid →
  let pending := Provider.pending_message (ticks 1) "user" (VStr text) in
  let stored := stored_under (localStorage st) uid in
  ∃ st1 st2 T,
    let shown := Provider.normalize_list Date_parse T (stored ++ [pending]) in
    Provider.sendMessage Date_parse ticks send user (VStr text) st = Return st1
    ∧ Provider.loadMessages Date_parse loadTicks api user st1 = (st2, None)
    ∧ conversations st2 = {[ toString uid := shown ]}
    ∧ Provider.context_messages user st2 = Messages shown
    ∧ pending ∈ shown.
Proof.
  intros Hu Ha Hm Hf Hl Hms Hiso uid Hr pending stored.
  pose proof (sendMessage_failure_unfold Date_parse ticks send user (VStr text) st Hu)
    as H1.
  rewrite Ha in H1. specialize (H1 Hf Hr). cbv zeta in H1.
  set (st1 := setLocalStorage _ _) in H1.
  destruct (loadMessages_user_failed Date_parse loadTicks api user st1 Hu Ha Hm Hl)
    as [T H2].
  assert (Hst : default [] (items (localStorage st1) !! messages_key uid)
                = stored ++ [pending]).
  { unfold st1. cbn [localStorage setLocalStorage pending_filed].
    rewrite saveUserToMessageList_items, saveMessageLocally_items, lookup_insert_eq.
    cbn [default]. by rewrite JSON_value_pending. }
  fold uid in H2. rewrite Hst in H2.
  eexists st1, _, T. cbv zeta. split; [exact H1|]. split; [exact H2|].
  cbn [conversations]. split; [reflexivity|].
  rewrite context_messages_user by done. cbn [conversations].
  unfold messages_of. fold uid. rewrite lookup_singleton_eq.
  split; [reflexivity|].
  apply elem_of_normalize_list_canonical.
  - by apply pending_message_canonical.
  - apply elem_of_app. right. by left.
Qed.

Lemma offline_send_found_by_offline_load_witness :
  ∃ st1 st2,
    Provider.sendMessage Iso.Date_parse (λ _, tick1) network_down plain_user
      (VStr "Hello") state_u1 = Return st1
    ∧ Provider.loadMessages Iso.Date_parse (λ _ _, tick1) offline plain_user st1
      = (st2, None)
    ∧ conversations st2
      = {[ "u1" := [early_message; Provider.pending_message tick1 "user" (VStr "Hello")] ]}.
Proof.
  destruct (offline_send_found_by_offline_load Iso.Date_parse (λ _, tick1) (λ _ _, tick1)
              network_down offline plain_user "Hello" state_u1
              eq_refl eq_refl eq_refl eq_refl eq_refl)
    as (st1 & st2 & T & H1 & H2 & _); [done|done| |].
  { intros _. unfold inherited_name. by_computation. }
  exists st1, st2. split; [exact H1|]. split; [exact H2|].
  vm_compute in H1. injection H1 as <-. vm_compute in H2. injection H2 as <-.
  vm_compute. reflexivity.
Defined.

(** ** The Known-user list and the admin view *)

(** X25. [refreshUserList] rebuilds the Known-user list of an admin from
    the conversations alone: the list gets exactly one entry for each
    conversation key, with the key (a string) as [id], no key twice, and a
    name that is never empty; conversations and local storage are not
    touched. For anyone else it does nothing. *)
Theorem refreshUserList_one_entry_per_conversation (user : value) (st : State) :
  let st' := Provider.refreshUserList user st in
  (truthy (opt_chain user "isAdmin") = false → st' = st)
  ∧ (truthy (opt_chain user "isAdmin") = true →
     conversations st' = conversations st
     ∧ localStorage st' = localStorage st
     ∧ NoDup (List.map user_id (usersWithMessages st'))
     ∧ (∀ v, v ∈ List.map user_id (usersWithMessages st')
             ↔ ∃ uid, v = VStr uid ∧ is_Some (conversations st !! uid))
     ∧ Forall (λ u, truthy (user_name u) = true) (usersWithMessages st')
     ∧ length (usersWithMessages st') = size (conversations st)).
Proof.
  intros st'. unfold st', Provider.refreshUserList.
  destruct (truthy (opt_chain user "isAdmin")); (split; [done|]); [|done].
  intros _. cbn [conversations localStorage usersWithMessages setUsersWithMessages].
  split; [done|]. split; [done|].
  set (entry := λ p : string * list value, _).
  assert (Hid : List.map user_id (List.map entry (map_to_list (conversations st)))
                = VStr <$> (map_to_list (conversations st)).*1).
  { rewrite List.map_map, <- list_fmap_compose. apply List.map_ext. by intros [uid msgs]. }
  assert (Hinj : Inj (=) (=) VStr) by (by intros a b [= ->]).
  split; [|split; [|split]].
  - rewrite Hid. apply (NoDup_fmap_2 VStr). apply NoDup_fst_map_to_list.
  - intros v. rewrite Hid. split.
    + intros Hv. apply list_elem_of_fmap_1 in Hv as (uid & -> & Hin).
      apply list_elem_of_fmap_1 in Hin as ([uid' msgs] & -> & Hin).
      apply elem_of_map_to_list in Hin. exists uid'. split; [done|]. by exists msgs.
    + intros (uid & -> & [msgs Hl]).
      apply list_elem_of_fmap_2. apply (list_elem_of_fmap_2' fst _ (uid, msgs)).
      * by apply elem_of_map_to_list.
      * done.
  - apply Forall_forall. intros u Hu.
    change (u ∈ entry <$> map_to_list (conversations st)) in Hu.
    apply list_elem_of_fmap_1 in Hu as ([uid msgs] & -> & _).
    by apply truthy_or_r.
  - by rewrite length_map, length_map_to_list.
Qed.

Lemma refreshUserList_one_entry_per_conversation_witness :
  let st' :=
    Provider.refreshUserList admin_user
      (MkState {[ "u1" := [early_message]; "u2" := [] ]} [] false (Storage ∅ [])) in
  NoDup (List.map user_id (usersWithMessages st'))
  ∧ length (usersWithMessages st') = 2%nat
  ∧ Provider.refreshUserList plain_user state_u1 = state_u1.
Proof.
  destruct (refreshUserList_one_entry_per_conversation admin_user
              (MkState {[ "u1" := [early_message]; "u2" := [] ]} [] false (Storage ∅ [])))
    as [_ H].
  destruct (H eq_refl) as (_ & _ & Hnd & _ & _ & Hlen).
  destruct (refreshUserList_one_entry_per_conversation plain_user state_u1) as [H' _].
  split; [exact Hnd|]. split; [exact Hlen|]. exact (H' eq_refl).
Defined.

Lemma last_or_undefined_snoc l x : Provider.last_or_undefined (l ++ [x]) = x.
Proof. unfold Provider.last_or_undefined. by rewrite last_snoc. Qed.

(** X26. The line under a user's name in the admin view follows the
    events. When an admin receives a [message-received] event whose
    sender is the user of that line, the sender's conversation can be read
    (it exists, or the sender's identifier names nothing that objects
    inherit), and the message is dated and not older than the messages of
    that conversation (canonical and dated), the handler returns a state
    in which the sender has a conversation that ends with the message
    received, and the preview of that user is evaluated without an error
    to the text of the message, provided it has one. *)
Theorem preview_after_event
    (Date_parse : string → option Z) (ticks : nat → tick)
    (user data : value) (st : State) (u : known_user) :
  truthy user = true → truthy (get user "isAdmin") = true →
  truthy (event_sender data) = true → user_id u = event_sender data →
  now_iso (ticks 0) ≠ "" →
  readable (conversations st) (user_id u) →
  let x := Provider.normalizeMessage (ticks 0) (or_ (get data "message") data) in
  let current := conversation_of (conversations st) (user_id u) in
  Forall canonical current →
  all_dated Date_parse (current ++ [x]) →
  (∀ m, m ∈ current → time_le Date_parse m x) →
  truthy (get x "text") = true →
  ∃ st',
    Provider.handleMessageReceived Date_parse ticks user data st = Return st'
    ∧ conversations st' !! toString (user_id u)
      = Some (Provider.normalize_list Date_parse (shift 1 ticks) current ++ [x])
    ∧ AdminUserConversations.preview (conversations st') u = Return (get x "text").
Proof.
  intros Hu Ha Hs Hid Hiso Hr x current Hcan Hd Hle Ht.
  assert (Hx : canonical x).
  { apply normalizeMessage_canonical; [by apply event_payload_truthy | done]. }
  assert (Hr' : readable (conversations st) (event_sender data)) by (by rewrite <- Hid).
  pose proof (handleMessageReceived_unfold Date_parse ticks user data st Hu Ha Hs Hr')
    as Hh.
  cbv zeta in Hh. rewrite <- Hid in Hh. fold x current in Hh.
  assert (Hsort : Provider.normalize_list Date_parse (shift 1 ticks) (current ++ [x])
                  = Provider.normalize_list Date_parse (shift 1 ticks) current ++ [x]).
  { rewrite !normalize_list_of_canonical;
      [|done|apply Forall_app; split; [done | by constructor]].
    apply (Array_sort_last (Provider.byCreatedAt Date_parse) (time_key Date_parse));
      [by apply all_dated_keyed|].
    intros y Hy. by apply time_le_key, Hle. }
  rewrite Hsort in Hh.
  eexists. split; [exact Hh|].
  assert (Hconv : ∀ st1 : State,
            conversations
              (if known (user_id u) (usersWithMessages st) then st1
               else setUsersWithMessages
                      (KnownUser (user_id u)
                         (or_ (or_ (get data "senderName")
                                   (and_ (get data "sender")
                                         (get (get data "sender") "name")))
                              (VStr "User"))
                         (or_ (and_ (get data "sender")
                                    (get (get data "sender") "email"))
                              (VStr ""))
                       :: usersWithMessages st) st1)
            = conversations st1).
  { intros st1. by destruct (known _ _). }
  rewrite Hconv. cbn [conversations setConversations].
  split; [apply lookup_insert_eq|].
  unfold AdminUserConversations.preview. rewrite lookup_insert_eq.
  rewrite last_or_undefined_snoc. unfold opt_chain.
  rewrite (truthy_get_not_nullish x "text") by done.
  f_equal. by apply or_truthy_l.
Qed.

Lemma preview_after_event_witness :
  ∃ st',
    Provider.handleMessageReceived Iso.Date_parse (λ _, tick0) admin_user event_m1
      (MkState {[ "u1" := [older_message] ]} [] false (Storage ∅ [])) = Return st'
    ∧ AdminUserConversations.preview (conversations st')
        (KnownUser (VStr "u1") (VStr "Uma") (VStr ""))
      = Return (VStr "Need an oil change").
Proof.
  destruct (preview_after_event Iso.Date_parse (λ _, tick0) admin_user event_m1
              (MkState {[ "u1" := [older_message] ]} [] false (Storage ∅ []))
              (KnownUser (VStr "u1") (VStr "Uma") (VStr ""))
              eq_refl eq_refl eq_refl eq_refl)
    as (st' & Hst' & _ & Hp).
  - discriminate.
  - discriminate.
  - repeat constructor.
  - unfold all_dated. by_computation.
  - intros m Hm. apply list_elem_of_singleton in Hm as ->.
    eexists _, _. split; [reflexivity|]. split; [reflexivity|]. done.
  - reflexivity.
  - exists st'. split; [exact Hst'|]. exact Hp.
Defined.

(** ** The plain provider *)

Lemma plain_handler_unfold user data st :
  truthy user = true → truthy (get user "isAdmin") = true →
  truthy (event_sender data) = true →
  readable (conversations st) (event_sender data) →
  ∃ st1,
    Plain.handleMessageReceived user data st = Return st1
    ∧ conversations st1
      = <[toString (event_sender data)
          := conversation_of (conversations st) (event_sender data)
             ++ [or_ (get data "message") data]]> (conversations st)
    ∧ localStorage st1 = localStorage st.
Proof.
  intros Hu Ha Hs Hr. unfold Plain.handleMessageReceived. rewrite Hu, Ha. simpl andb.
  cbv iota. rewrite prop_not_nullish by (by apply event_sender_not_nullish).
  simpl bind. fold (event_sender data). rewrite Hs. simpl negb. cbv iota.
  rewrite spread_readable by done. simpl bind.
  destruct (existsb _ _); eexists; (split; [reflexivity|]); by split.
Qed.

(** X27. The plain provider shows the messages of a sender in the order
    the events arrive, whatever their timestamps. For an admin, after a
    sequence of [message-received] events that all name the same sender,
    whose conversation can be read (it exists, or the sender's identifier
    names nothing that objects inherit), the listener has returned normally
    for each, the sender's conversation is what it was followed by the
    payloads ([data.message], or [data] itself) in order of arrival, every
    other conversation is as before, and local storage is not touched. *)
Theorem plain_events_in_arrival_order
    (user : value) (events : list value) (sid : value) (st : State) :
  truthy user = true → truthy (get user "isAdmin") = true →
  truthy sid = true → Forall (λ data, event_sender data = sid) events →
  readable (conversations st) sid →
  ∃ st',
    Plain.on_message_received user events st = Return st'
    ∧ conversation_of (conversations st') sid
      = conversation_of (conversations st) sid
        ++ List.map (λ data, or_ (get data "message") data) events
    ∧ (∀ key, key ≠ toString sid → conversations st' !! key = conversations st !! key)
    ∧ localStorage st' = localStorage st.
Proof.
  intros Hu Ha Hsid Hev. revert st.
  induction Hev as [|data events Hd _ IH]; intros st Hr.
  - exists st. simpl. by rewrite app_nil_r.
  - destruct (plain_handler_unfold user data st Hu Ha) as (st1 & H1 & Hc1 & Hl1);
      [by rewrite Hd|by rewrite Hd|].
    rewrite Hd in Hc1.
    destruct (IH st1) as (st' & H' & Hc' & Hk' & Hl');
      [rewrite Hc1; apply readable_insert|].
    exists st'. simpl. rewrite H1. simpl bind. split; [exact H'|].
    split; [|split].
    + rewrite Hc', Hc1, conversation_of_insert, <- app_assoc. done.
    + intros key Hk. rewrite Hk', Hc1 by done. by rewrite lookup_insert_ne.
    + by rewrite Hl'.
Qed.

Lemma plain_events_in_arrival_order_witness :
  ∃ st',
    Plain.on_message_received admin_user [event_m1; event_m0; event_m1] empty_state
    = Return st'
    ∧ List.map (λ m, get m "createdAt") (conversation_of (conversations st') (VStr "u1"))
      = [iso "10:00:00"; iso "09:59:00"; iso "10:00:00"].
Proof.
  destruct (plain_events_in_arrival_order admin_user [event_m1; event_m0; event_m1]
              (VStr "u1") empty_state eq_refl eq_refl eq_refl)
    as (st' & Hst' & Hc & _).
  - repeat constructor.
  - intros _. unfold inherited_name. by_computation.
  - exists st'. split; [exact Hst'|]. rewrite Hc. reflexivity.
Defined.

(** ** The summary-based provider *)

(** X28. The summary-based provider does not sort what it sends. When
    [sendMessage] receives a response that reports success and carries
    [data], and the conversation concerned (the user's own, or for an admin
    the one named by [data.recipient] or [data.conversation]) can be read
    (it exists, or its key names nothing that objects inherit), the call
    returns normally, and the conversation is what it was, followed by the
    confirmed message and then, if the response carries one, the
    auto-reply: the messages already shown keep their places and the two
    new ones go to the end in this order, whatever their timestamps. *)
Theorem summary_sendMessage_appends_last
    (t : tick) (send : value → outcome value) (user text response : value) (st : State) :
  truthy user = true →
  send (VObj [("text", text);
              ("recipientId", if truthy (get user "isAdmin") then VNull else VUndef)])
  = Return response →
  truthy (get response "success") = true →
  nullish (get response "data") = false →
  let raw := get response "data" in
  let ar := get response "autoReply" in
  let cid :=
    if truthy (get user "isAdmin") then or_ (get raw "recipient") (get raw "conversation")
    else or_ (get user "id") (get user "_id") in
  readable (conversations st) cid →
  ∃ st' sent reply,
    Summary.sendMessage t send user text st = Return st'
    ∧ conversation_of (conversations st') cid
      = conversation_of (conversations st) cid
        ++ sent :: (if truthy ar then [reply] else [])
    ∧ get sent "text" = get raw "text"
    ∧ get sent "timestamp" = or_ (get raw "createdAt") (get raw "timestamp")
    ∧ get reply "text" = get ar "text"
    ∧ get reply "timestamp" = or_ (get ar "createdAt") (get ar "timestamp").
Proof.
  intros Hu Hsend Hsucc Hdata raw ar cid Hr.
  unfold Summary.sendMessage. rewrite Hu. simpl negb. cbv iota zeta.
  rewrite Hsend. simpl bind.
  rewrite prop_not_nullish by (by eapply truthy_get_not_nullish).
  simpl bind. rewrite Hsucc.
  rewrite prop_not_nullish by done. simpl bind. fold raw ar cid.
  rewrite spread_readable by done. simpl bind. simpl try_catch.
  eexists _,
    (VObj [("id", or_ (get raw "_id") (get raw "id"));
           ("_id", or_ (get raw "_id") (get raw "id"));
           ("text", get raw "text");
           ("senderType", get raw "senderType");
           ("sender", get raw "senderType");
           ("timestamp", or_ (get raw "createdAt") (get raw "timestamp"))]),
    (VObj [("id", or_ (get ar "_id") (get ar "id"));
           ("_id", or_ (get ar "_id") (get ar "id"));
           ("text", get ar "text");
           ("senderType", or_ (get ar "senderType") (VStr "admin"));
           ("sender", or_ (get ar "senderType") (VStr "admin"));
           ("timestamp", or_ (get ar "createdAt") (get ar "timestamp"))]).
  split; [reflexivity|].
  split; [|by repeat split].
  destruct (truthy (get user "isAdmin")), (truthy ar);
    cbn [conversations setLocalStorage setConversations];
    rewrite conversation_of_insert; by rewrite <- ?app_assoc.
Qed.

Lemma summary_sendMessage_appends_last_witness :
  ∃ st',
    Summary.sendMessage tick0 (λ _, Return response_with_reply) plain_user
      (VStr "Need an oil change")
      (MkState {[ "u1" := [late_message] ]} [] false (Storage ∅ [])) = Return st'
    ∧ length (conversation_of (conversations st') (VStr "u1")) = 3%nat
    ∧ conversation_of (conversations st') (VStr "u1") !! 0%nat = Some late_message.
Proof.
  destruct (summary_sendMessage_appends_last tick0 (λ _, Return response_with_reply)
              plain_user (VStr "Need an oil change") response_with_reply
              (MkState {[ "u1" := [late_message] ]} [] false (Storage ∅ []))
              eq_refl eq_refl eq_refl eq_refl)
    as (st' & sent & reply & Hst' & Hc & _); [discriminate|].
  change (conversation_of (conversations st') (VStr "u1")
          = [late_message] ++ sent :: [reply]) in Hc.
  exists st'. split; [exact Hst'|]. rewrite Hc. split; reflexivity.
Defined.

(** X29. When the summary request of the summary-based admin load fails
    (it is rejected, or the response is absent or reports no success), no
    detail request is issued, the conversations are the local mirror, the
    Known-user list is left as it was (the stored list is not read),
    local storage is not touched and [loading] is cleared. *)
Theorem summary_load_summary_failed (api : Summary.load_api) (st : State) :
  request_failed (Summary.getConversations api) = true →
  let r := Summary.loadMessages_admin api st in
  Summary.issued r = []
  ∧ conversations (Summary.final r) = getLocalConversations (localStorage st)
  ∧ usersWithMessages (Summary.final r) = usersWithMessages st
  ∧ localStorage (Summary.final r) = localStorage st
  ∧ loading (Summary.final r) = false.
Proof.
  intros Hf r. unfold r, Summary.loadMessages_admin.
  destruct (Summary.getConversations api) as [resp|e]; simpl in Hf; [|done].
  simpl bind. unfold prop. destruct (nullish resp); [done|].
  simpl in Hf. simpl bind. by destruct (truthy (get resp "success")).
Qed.

Lemma summary_load_summary_failed_witness :
  let r :=
    Summary.loadMessages_admin
      (Summary.LoadApi (Return (VObj [("success", VBool false)]))
         (λ _ _, Return (VObj [("success", VBool true)])))
      state_u1 in
  Summary.issued r = []
  ∧ conversations (Summary.final r) = getLocalConversations storage_u1.
Proof.
  destruct (summary_load_summary_failed
              (Summary.LoadApi (Return (VObj [("success", VBool false)]))
                 (λ _ _, Return (VObj [("success", VBool true)])))
              state_u1 eq_refl) as (H1 & H2 & _).
  split; [exact H1 | exact H2].
Defined.

Lemma fold_results_throws convMap pre uid res post :
  (∀ m, Summary.fold_result m uid res = Throw TypeError) →
  ∃ e, Summary.fold_results convMap (pre ++ (uid, res) :: post) = Throw e.
Proof.
  intros Hres. revert convMap.
  induction pre as [|[uid' res'] pre IH]; intros convMap; simpl.
  - rewrite Hres. simpl. by eexists.
  - destruct (Summary.fold_result convMap uid' res') as [m'|e]; simpl; [apply IH|].
    by eexists.
Qed.

(** X30. In the summary-based admin load one malformed detail response
    undoes all the others. A rejected detail request is skipped, but when
    one of the detail responses reports success and carries something
    other than an array as [data], the loop over the results throws, and
    the outer [catch] replaces every fetched conversation by the local
    mirror; the Known-user list stays the one built from the summary, and
    the detail requests have all been issued. *)
Theorem summary_load_malformed_detail
    (api : Summary.load_api) (response : value) (summaries : list value)
    (usersList : list known_user) (st : State) (idx : nat) (u : known_user) (v : value) :
  Summary.getConversations api = Return response →
  truthy (get response "success") = true →
  or_ (get response "data") (VArr []) = VArr summaries →
  Summary.summary_users summaries = Return usersList →
  take 20 usersList !! idx = Some u →
  Summary.getMessages api idx (user_id u) = Return v →
  truthy (opt_chain v "success") = true →
  truthy (get v "data") = true → (∀ l, get v "data" ≠ VArr l) →
  let r := Summary.loadMessages_admin api st in
  Summary.fell_back r = true
  ∧ conversations (Summary.final r) = getLocalConversations (localStorage st)
  ∧ usersWithMessages (Summary.final r) = usersList
  ∧ Summary.issued r = List.map user_id (take 20 usersList).
Proof.
  intros Hresp Hsucc Hdata Husers Hu Hv Hvs Hvd Hnarr r.
  set (results := Summary.fetch_details (Summary.getMessages api) (take 20 usersList)).
  assert (Hthrow : ∃ e, Summary.fold_results ∅ results = Throw e).
  { assert (Hin : results !! idx = Some (user_id u, Return v)).
    { unfold results, Summary.fetch_details. rewrite list_lookup_imap, Hu. simpl.
      by rewrite Hv. }
    apply list_elem_of_split_length in Hin as (pre & post & Hsplit & _).
    rewrite Hsplit. apply fold_results_throws. intros m. simpl. rewrite Hvs.
    rewrite or_truthy_l by done.
    destruct (get v "data") as [| |b|n|s|l|f]; try done. by destruct (Hnarr l). }
  destruct Hthrow as [e He].
  unfold r, Summary.loadMessages_admin. rewrite Hresp. simpl bind.
  rewrite prop_not_nullish by (by eapply truthy_get_not_nullish).
  simpl bind. rewrite Hsucc, Hdata. simpl as_array. simpl bind. rewrite Husers.
  simpl bind. unfold Summary.toFetch. fold results. rewrite He.
  cbn. split; [done|]. split; [done|]. split; [done|].
  apply fetch_details_requests.
Qed.

Lemma summary_load_malformed_detail_witness :
  let api :=
    Summary.LoadApi
      (Return (VObj [("success", VBool true);
                     ("data", VArr [VObj [("_id", VStr "A")]; VObj [("_id", VStr "B")]])]))
      (λ idx _, if Nat.eqb idx 0
                then Return (VObj [("success", VBool true); ("data", VArr [late_message])])
                else Return (VObj [("success", VBool true);
                                   ("data", VObj [("messages", VArr [])])])) in
  let r := Summary.loadMessages_admin api state_u1 in
  conversations (Summary.final r) = getLocalConversations storage_u1
  ∧ List.map user_id (usersWithMessages (Summary.final r)) = [VStr "A"; VStr "B"].
Proof.
  intros api r.
  destruct (summary_load_malformed_detail api
              (VObj [("success", VBool true);
                     ("data", VArr [VObj [("_id", VStr "A")]; VObj [("_id", VStr "B")]])])
              [VObj [("_id", VStr "A")]; VObj [("_id", VStr "B")]]
              [KnownUser (VStr "A") (VStr "User") (VStr "");
               KnownUser (VStr "B") (VStr "User") (VStr "")]
              state_u1 1%nat (KnownUser (VStr "B") (VStr "User") (VStr ""))
              (VObj [("success", VBool true); ("data", VObj [("messages", VArr [])])])
              eq_refl eq_refl eq_refl eq_refl eq_refl eq_refl eq_refl eq_refl)
    as (_ & Hc & Hus & _); [discriminate|].
  split; [exact Hc|]. unfold r. rewrite Hus. reflexivity.
Defined.
